(** * The GitHub user scraper of [data.py]: model and verified properties

    The development follows the source file top to bottom: the module-level
    rate-limited [api_call], the class [GitHubScraper] with its paginated
    queries, the per-user processing, the two table builders, and [main].

    Modelling decisions, in one place:
    - Python values that travel through the program (JSON bodies, table
      cells) are an inductive type [value]; a [Dict[str, Any]] is an
      association list, because pandas derives column order from key order.
    - Strings in records and table cells are [string], ASCII text.  The two
      functions whose result depends on the characters themselves,
      [clean_company_name] and [get_surname], are also modelled on
      sequences of code points, over all of Unicode, in module [Unicode];
      on ASCII text the two models of [clean_company_name] agree.
    - Effects are explicit: a computation returns its outcome together with
      the trace of what it did (remote calls, printed messages, files
      written).  An outcome is a value, a raised exception, or [OutOfFuel]
      for a loop that has not finished within the given number of rounds.
    - The remote service is a function from requests to replies: either the
      transport raises, or a response with a status code and a body comes
      back.  Bodies have the shapes the type annotations of the source give
      them ([List[Dict[str, Any]]], [Dict[str, Any]]).
    - The decorators of [api_call] only delay a call; timing is not part of
      the model. *)

From Stdlib Require Import ZArith String Ascii List Bool Lia Permutation DecimalString.
Import ListNotations.
Local Open Scope string_scope.
Local Open Scope list_scope.
Local Open Scope Z_scope.

(** ** Python values *)

#[local] Set Warnings "-register-all".

Inductive value : Type :=
| VNone
| VBool (b : bool)
| VInt (z : Z)
| VStr (s : string)
| VNaN                                   (* float('nan'): pandas' missing cell *)
| VList (l : list value)
| VDict (d : list (string * value)).

Definition Dict : Type := list (string * value).

(** [bool(v)]: truthiness. *)
Definition truthy (v : value) : bool :=
  match v with
  | VNone => false
  | VBool b => b
  | VInt z => negb (z =? 0)
  | VStr s => negb (String.eqb s "")
  | VNaN => true
  | VList l => match l with [] => false | _ => true end
  | VDict d => match d with [] => false | _ => true end
  end.

(** [k in d] and [d[k]] for a dict. *)
Fixpoint dict_get (k : string) (d : Dict) : option value :=
  match d with
  | [] => None
  | (k', v) :: d' => if String.eqb k k' then Some v else dict_get k d'
  end.

Definition dict_truthy (d : Dict) : bool :=
  match d with [] => false | _ => true end.

(** ** Exceptions and outcomes *)

Inductive exn : Type :=
| ConnectionError
| JSONDecodeError
| KeyError (key : string)
| AttributeError (attr : string).

Inductive outcome (A : Type) : Type :=
| Ok (a : A)
| Raise (e : exn)
| OutOfFuel.
Arguments Ok {A} a.
Arguments Raise {A} e.
Arguments OutOfFuel {A}.

(** ** ASCII text: the [str] methods the scraper uses

    The strings of records and table cells are ASCII text, and the methods
    are modelled as they act on it: the white space of the ASCII range, and
    an upper-case form that changes the letters a to z.  Module [Unicode]
    has the same methods on all of Unicode. *)

Module PyStr.

(** [c.isspace()] on the ASCII range: tab, line feed, vertical tab, form
    feed, carriage return, the four separators 0x1c..0x1f, and space. *)
Definition isspace (c : ascii) : bool :=
  let n := nat_of_ascii c in
  ((9 <=? n) && (n <=? 13) || (28 <=? n) && (n <=? 32))%nat.

Fixpoint lstrip (s : string) : string :=
  match s with
  | EmptyString => EmptyString
  | String c s' => if isspace c then lstrip s' else s
  end.

Fixpoint rstrip (s : string) : string :=
  match s with
  | EmptyString => EmptyString
  | String c s' =>
      match rstrip s' with
      | EmptyString => if isspace c then EmptyString else String c EmptyString
      | r => String c r
      end
  end.

(** [s.strip()] *)
Definition strip (s : string) : string := rstrip (lstrip s).

(** [s.startswith(c)] for a one-character prefix. *)
Definition startswith (c : ascii) (s : string) : bool :=
  match s with
  | String c' _ => Ascii.eqb c' c
  | EmptyString => false
  end.

(** [s[1:]] *)
Definition tail (s : string) : string :=
  match s with
  | String _ s' => s'
  | EmptyString => EmptyString
  end.

Definition upper_char (c : ascii) : ascii :=
  let n := nat_of_ascii c in
  if ((97 <=? n) && (n <=? 122))%nat then ascii_of_nat (n - 32) else c.

(** [s.upper()] *)
Fixpoint upper (s : string) : string :=
  match s with
  | EmptyString => EmptyString
  | String c s' => String (upper_char c) (upper s')
  end.

(** [str(n)] for an int. *)
Definition of_int (n : Z) : string := NilZero.string_of_int (Z.to_int n).

(** Every character of [s] is an ASCII character. *)
Definition is_ascii (s : string) : bool :=
  forallb (fun c => (nat_of_ascii c <? 128)%nat) (list_ascii_of_string s).

End PyStr.

(** ** [GitHubScraper.clean_company_name]

    The argument is whatever sits in the [company] cell.  A falsy cell gives
    the empty string; a non-empty string is cleaned; any other truthy value
    has no [strip] method. *)
Definition clean_company_name (company : value) : outcome string :=
  if negb (truthy company) then Ok ""
  else
    match company with
    | VStr s =>
        let company := PyStr.strip s in
        let company :=
          if PyStr.startswith "@"%char company then PyStr.tail company else company in
        Ok (PyStr.upper company)
    | _ => Raise (AttributeError "strip")
    end.

(** ** Strings over all of Unicode

    What [clean_company_name] returns, and what [get_surname] of
    [answers.py] returns, depends on the characters themselves.  For these
    two functions a [str] is modelled as Python has it, a sequence of code
    points.  Which code points are white space, and what the upper-case
    form of a code point is, are facts of the interpreter's character
    database, which is a parameter: [str.strip] and [str.split] treat
    exactly the code points with [isspace] as white space, and [str.upper]
    replaces every code point by its full upper-case mapping, which can be
    several code points. *)

Module Unicode.

Definition char : Type := N.
Definition str : Type := list char.

Record database : Type := mkDatabase {
  isspace : char -> bool;
  to_upper : char -> list char
}.

Section Methods.

Variable db : database.

Fixpoint lstrip (s : str) : str :=
  match s with
  | [] => []
  | c :: s' => if isspace db c then lstrip s' else s
  end.

Fixpoint rstrip (s : str) : str :=
  match s with
  | [] => []
  | c :: s' =>
      match rstrip s' with
      | [] => if isspace db c then [] else [c]
      | r => c :: r
      end
  end.

(** [s.strip()] *)
Definition strip (s : str) : str := rstrip (lstrip s).

(** [s.startswith(c)] for a one-character prefix. *)
Definition startswith (c : char) (s : str) : bool :=
  match s with
  | c' :: _ => N.eqb c' c
  | [] => false
  end.

(** [s[1:]] *)
Definition tail (s : str) : str :=
  match s with
  | _ :: s' => s'
  | [] => []
  end.

(** [s.upper()] *)
Definition upper (s : str) : str := flat_map (to_upper db) s.

(** [s.split()]: the maximal runs of code points that are not white
    space, in order. *)
Fixpoint split (s : str) : list str :=
  match s with
  | [] => []
  | c :: s' =>
      if isspace db c then split s'
      else
        match s' with
        | [] => [[c]]
        | c' :: _ =>
            if isspace db c' then [c] :: split s'
            else
              match split s' with
              | w :: ws => (c :: w) :: ws
              | [] => [[c]]
              end
        end
  end.

(** [GitHubScraper.clean_company_name] on what its annotation and the
    JSON of a profile give it: a [str], or [None].  The at-sign is code
    point 64. *)
Definition clean_company_name (company : option str) : str :=
  match company with
  | None => []
  | Some [] => []
  | Some company =>
      let company := strip company in
      let company := if startswith 64%N company then tail company else company in
      upper company
  end.

End Methods.

(** The code points of a [string]. *)
Definition of_string (s : string) : str :=
  map N_of_ascii (list_ascii_of_string s).

(** The database says of the 128 ASCII code points what [PyStr] says. *)
Definition ascii_ok (db : database) : bool :=
  forallb (fun a : ascii =>
             Bool.eqb (isspace db (N_of_ascii a)) (PyStr.isspace a) &&
             match to_upper db (N_of_ascii a) with
             | [u] => N.eqb u (N_of_ascii (PyStr.upper_char a))
             | _ => false
             end)
          (map ascii_of_nat (seq 0 128)).

Definition in_range (lo hi c : N) : bool := ((lo <=? c) && (c <=? hi))%N.

(** A database for running the model: white space as [str.isspace] has it
    on all code points, the upper-case mapping as [str.upper] has it on the
    code points below 256 (the micro sign, sharp s and y with diaeresis
    leave that range) and the identity above. *)
Definition latin1 : database :=
  mkDatabase
    (fun c =>
       in_range 9 13 c || in_range 28 32 c || N.eqb c 133 || N.eqb c 160 ||
       N.eqb c 5760 || in_range 8192 8202 c || in_range 8232 8233 c ||
       N.eqb c 8239 || N.eqb c 8287 || N.eqb c 12288)
    (fun c =>
       if in_range 97 122 c then [(c - 32)%N]
       else if N.eqb c 181 then [924%N]
       else if N.eqb c 223 then [83%N; 83%N]
       else if in_range 224 254 c && negb (N.eqb c 247) then [(c - 32)%N]
       else if N.eqb c 255 then [376%N]
       else [c]).

End Unicode.

(** The normalizer as the specification words it, on an optional string:
    trim white space, drop one leading at-sign, uppercase the rest; nothing
    or the empty string gives the empty string.  Trimming is dropping the
    white space at the front, and at the front of the reverse. *)
Module CompanySpec.

Fixpoint drop_while {A} (p : A -> bool) (l : list A) : list A :=
  match l with
  | [] => []
  | c :: l' => if p c then drop_while p l' else l
  end.

Definition trim {A} (p : A -> bool) (l : list A) : list A :=
  rev (drop_while p (rev (drop_while p l))).

Definition drop_at (l : Unicode.str) : Unicode.str :=
  match l with
  | c :: l' => if N.eqb c 64 then l' else l
  | [] => []
  end.

Definition cleanCompany (db : Unicode.database) (raw : option Unicode.str)
  : Unicode.str :=
  match raw with
  | None => []
  | Some [] => []
  | Some s =>
      flat_map (Unicode.to_upper db)
        (drop_at (trim (Unicode.isspace db) s))
  end.

End CompanySpec.

(** ** pandas: the part of [DataFrame] the scraper touches

    A frame is its column labels and its rows, each row aligned with the
    labels.  A label that a record lacks gives a NaN cell.  Cells keep the
    values they were given: the dtype that pandas infers for a column is
    not part of the model. *)

Record DataFrame : Type := mkDataFrame {
  columns : list string;
  rows : list (list value)
}.

Module pd.

Fixpoint index_of (c : string) (cols : list string) : option nat :=
  match cols with
  | [] => None
  | c' :: cols' =>
      if String.eqb c c' then Some O
      else option_map S (index_of c cols')
  end.

Definition has_column (c : string) (cols : list string) : bool :=
  match index_of c cols with Some _ => true | None => false end.

(** The cell of [row] under label [c], NaN when there is none. *)
Definition cell (cols : list string) (row : list value) (c : string) : value :=
  match index_of c cols with
  | Some i => nth i row VNaN
  | None => VNaN
  end.

(** Lay a row out under other labels. *)
Definition realign (from to : list string) (row : list value) : list value :=
  map (cell from row) to.

(** Append the labels of [new] that [cols] lacks, in order. *)
Fixpoint union (cols new : list string) : list string :=
  match new with
  | [] => cols
  | c :: new' =>
      if has_column c cols then union cols new' else union (cols ++ [c]) new'
  end.

(** [pd.DataFrame()] *)
Definition empty_frame : DataFrame := mkDataFrame [] [].

(** [pd.DataFrame(data)] for a list of records: labels are the keys in
    order of first appearance. *)
Definition DataFrame_of (data : list Dict) : DataFrame :=
  let cols := fold_left (fun acc d => union acc (map fst d)) data [] in
  mkDataFrame cols
    (map (fun d => map (fun c => match dict_get c d with
                                 | Some v => v
                                 | None => VNaN
                                 end) cols) data).

(** [df.empty] *)
Definition empty (df : DataFrame) : bool :=
  match columns df, rows df with
  | [], _ => true
  | _, [] => true
  | _, _ => false
  end.

(** [df[c]]: the cells of one column. *)
Definition getitem (df : DataFrame) (c : string) : outcome (list value) :=
  if has_column c (columns df)
  then Ok (map (fun r => cell (columns df) r c) (rows df))
  else Raise (KeyError c).

Fixpoint set_nth (i : nat) (v : value) (row : list value) : list value :=
  match i, row with
  | O, _ :: row' => v :: row'
  | S i', x :: row' => x :: set_nth i' v row'
  | _, [] => [v]
  end.

(** [df[c] = series], the series having one cell per row: an existing
    column is overwritten, a new one is added last. *)
Definition setitem (df : DataFrame) (c : string) (series : list value) : DataFrame :=
  match index_of c (columns df) with
  | Some i =>
      mkDataFrame (columns df)
        (map (fun rv => set_nth i (snd rv) (fst rv)) (combine (rows df) series))
  | None =>
      mkDataFrame (columns df ++ [c])
        (map (fun rv => fst rv ++ [snd rv]) (combine (rows df) series))
  end.

(** [df[c] = scalar]: the scalar is broadcast to every row. *)
Definition setitem_scalar (df : DataFrame) (c : string) (v : value) : DataFrame :=
  setitem df c (map (fun _ => v) (rows df)).

(** [df[[c1, ..., cn]]] *)
Definition select (df : DataFrame) (cols : list string) : outcome DataFrame :=
  match filter (fun c => negb (has_column c (columns df))) cols with
  | [] => Ok (mkDataFrame cols (map (realign (columns df) cols) (rows df)))
  | c :: _ => Raise (KeyError c)
  end.

(** [pd.concat(frames, ignore_index=True)] *)
Definition concat (frames : list DataFrame) : DataFrame :=
  let cols := fold_left (fun acc f => union acc (columns f)) frames [] in
  mkDataFrame cols
    (flat_map (fun f => map (realign (columns f) cols) (rows f)) frames).

(** [series.apply(f)] for an [f] that may raise. *)
Fixpoint apply {A : Type} (f : value -> outcome A) (series : list value)
  : outcome (list A) :=
  match series with
  | [] => Ok []
  | v :: series' =>
      match f v with
      | Ok a =>
          match apply f series' with
          | Ok l => Ok (a :: l)
          | Raise e => Raise e
          | OutOfFuel => OutOfFuel
          end
      | Raise e => Raise e
      | OutOfFuel => OutOfFuel
      end
  end.

End pd.

(** ** The remote service, and what a run leaves behind *)

(** One outbound call: endpoint and query parameters.  The base URL and the
    two headers are the same for every call of a scraper and are left out. *)
Inductive Request : Type :=
| SearchUsers (q : string) (page per_page : Z)
| GetUser (username : value)
| GetUserRepos (username : value) (sort direction : string) (per_page page : Z).

(** The decoded body of a search response: [data['items']]. *)
Record SearchResult : Type := mkSearchResult { items : list Dict }.

Definition body_of (r : Request) : Type :=
  match r with
  | SearchUsers _ _ _ => SearchResult
  | GetUser _ => Dict
  | GetUserRepos _ _ _ _ _ => list Dict
  end.

(** [requests.Response]: [json] is [None] when the body does not decode. *)
Record Response (A : Type) : Type := mkResponse {
  status_code : Z;
  json : option A
}.
Arguments mkResponse {A} status_code json.
Arguments status_code {A} r.
Arguments json {A} r.

Inductive reply (A : Type) : Type :=
| Responded (r : Response A)
| TransportError (e : exn).
Arguments Responded {A} r.
Arguments TransportError {A} e.

Definition Server : Type := forall r : Request, reply (body_of r).

Inductive message : Type :=
| ErrorFetchingUsers (status : Z)
| ErrorFetchingUserDetails (username : value) (status : Z)
| ErrorFetchingRepos (username : value) (status : Z)
| FetchingBerlinUsers
| FoundUsers (n : nat)
| Processing (completed total : nat) (login : value)
| ErrorProcessing (login : value) (e : exn)
| CreatingFinalDatasets
| SavingResults
| Done
| Error (e : exn).

Inductive event : Type :=
| Call (r : Request)
| Print (m : message)
| ToCsv (df : DataFrame) (path : string).

(** ** The effect monad: an outcome and the trace that led to it *)

Definition M (A : Type) : Type := (outcome A * list event)%type.

Definition ret {A} (a : A) : M A := (Ok a, []).

Definition bind {A B} (m : M A) (f : A -> M B) : M B :=
  match m with
  | (Ok a, t) => let (o, t') := f a in (o, t ++ t')
  | (Raise e, t) => (Raise e, t)
  | (OutOfFuel, t) => (OutOfFuel, t)
  end.

Definition raise {A} (e : exn) : M A := (Raise e, []).

Definition lift {A} (o : outcome A) : M A := (o, []).

Definition print (m : message) : M unit := (Ok tt, [Print m]).

(** [try: m except Exception as e: h e] *)
Definition try_except {A} (m : M A) (h : exn -> M A) : M A :=
  match m with
  | (Raise e, t) => let (o, t') := h e in (o, t ++ t')
  | other => other
  end.

Declare Scope py_scope.
Delimit Scope py_scope with py.
Notation "x <- m ;; k" := (bind m (fun x => k))
  (at level 61, m at next level, right associativity) : py_scope.
Notation "m ;; k" := (bind m (fun _ => k))
  (at level 61, right associativity) : py_scope.
Local Open Scope py_scope.

Definition result {A} (m : M A) : outcome A := fst m.
Definition trace {A} (m : M A) : list event := snd m.

(** [d[k]] raising [KeyError]. *)
Definition dict_getitem (d : Dict) (k : string) : M value :=
  match dict_get k d with
  | Some v => ret v
  | None => raise (KeyError k)
  end.

(** [l[:k]] *)
Definition slice_to {A} (l : list A) (k : Z) : list A :=
  if 0 <=? k then firstn (Z.to_nat k) l
  else firstn (length l - Z.to_nat (- k)) l.

Definition len {A} (l : list A) : Z := Z.of_nat (length l).

Definition CALLS_PER_MINUTE : Z := 80.
Definition ONE_MINUTE : Z := 60.

(** ** [api_call] and the class [GitHubScraper] *)

Section Scraper.

Variable srv : Server.

(** [api_call(url, headers, params)]: the call is recorded, then either
    the transport raises or the response is returned. *)
Definition api_call (r : Request) : M (Response (body_of r)) :=
  match srv r with
  | Responded resp => (Ok resp, [Call r])
  | TransportError e => (Raise e, [Call r])
  end.

(** [response.json()] *)
Definition response_json {A} (resp : Response A) : M A :=
  match json resp with
  | Some a => ret a
  | None => raise JSONDecodeError
  end.

(** The [q] parameter of [get_berlin_users]. *)
Definition search_query (min_followers : Z) : string :=
  ("location:Berlin followers:>=" ++ PyStr.of_int min_followers)%string.

(** The [while True] loop of [get_berlin_users], one round per unit of
    fuel. *)
Fixpoint get_berlin_users_loop (fuel : nat) (min_followers : Z)
    (users : list Dict) (page : Z) : M (list Dict) :=
  match fuel with
  | O => (OutOfFuel, [])
  | S fuel' =>
      response <- api_call (SearchUsers (search_query min_followers) page 100) ;;
      if negb (status_code response =? 200) then
        print (ErrorFetchingUsers (status_code response)) ;;
        ret users
      else
        data <- response_json response ;;
        match items data with
        | [] => ret users
        | _ :: _ =>
            get_berlin_users_loop fuel' min_followers (users ++ items data) (page + 1)
        end
  end.

Definition get_berlin_users (fuel : nat) (min_followers : Z) : M (list Dict) :=
  get_berlin_users_loop fuel min_followers [] 1.

Definition get_user_details (username : value) : M (option Dict) :=
  response <- api_call (GetUser username) ;;
  if negb (status_code response =? 200) then
    print (ErrorFetchingUserDetails username (status_code response)) ;;
    ret None
  else
    d <- response_json response ;;
    ret (Some d).

(** The [while len(repos) < max_repos] loop of [get_user_repos]. *)
Fixpoint get_user_repos_loop (fuel : nat) (username : value) (max_repos : Z)
    (repos : list Dict) (page : Z) : M (list Dict) :=
  if len repos <? max_repos then
    match fuel with
    | O => (OutOfFuel, [])
    | S fuel' =>
        response <- api_call (GetUserRepos username "pushed" "desc" 100 page) ;;
        if negb (status_code response =? 200) then
          print (ErrorFetchingRepos username (status_code response)) ;;
          ret repos
        else
          data <- response_json response ;;
          match data with
          | [] => ret repos
          | _ :: _ =>
              let repos := repos ++ data in
              if len data <? 100 then ret repos
              else get_user_repos_loop fuel' username max_repos repos (page + 1)
          end
    end
  else ret repos.

(** Every round that goes on adds at least 100 repositories, so
    [max_repos] rounds are more than the loop can use. *)
Definition get_user_repos (username : value) (max_repos : Z) : M (list Dict) :=
  repos <- get_user_repos_loop (Z.to_nat max_repos) username max_repos [] 1 ;;
  ret (slice_to repos max_repos).

Definition license_key (x : value) : outcome value :=
  match x with
  | VDict d => match dict_get "key" d with Some k => Ok k | None => Ok VNone end
  | _ => Ok VNone
  end.

Definition repo_columns : list string :=
  ["login"; "full_name"; "created_at"; "stargazers_count";
   "watchers_count"; "language"; "has_projects"; "has_wiki"; "license_name"].

Definition create_repos_dataframe (repos_data : list Dict) (username : value)
  : M DataFrame :=
  match repos_data with
  | [] => ret pd.empty_frame
  | _ :: _ =>
      let repos_df := pd.DataFrame_of repos_data in
      let repos_df := pd.setitem_scalar repos_df "login" username in
      license <- lift (pd.getitem repos_df "license") ;;
      license_name <- lift (pd.apply license_key license) ;;
      let repos_df := pd.setitem repos_df "license_name" license_name in
      lift (pd.select repos_df repo_columns)
  end.

Definition process_user (user : Dict) : M (option Dict * option DataFrame) :=
  username <- dict_getitem user "login" ;;
  user_details <- get_user_details username ;;
  match user_details with
  | Some (_ :: _) =>
      repos <- get_user_repos username 500 ;;
      repos_df <- match repos with
                  | _ :: _ => create_repos_dataframe repos username
                  | [] => ret pd.empty_frame
                  end ;;
      ret (user_details, Some repos_df)
  | _ => ret (None, None)
  end.

Definition user_columns : list string :=
  ["login"; "name"; "company"; "location"; "email"; "hireable";
   "bio"; "public_repos"; "followers"; "following"; "created_at"].

Definition create_users_dataframe (users_data : list Dict) : M DataFrame :=
  let users_df := pd.DataFrame_of users_data in
  company <- lift (pd.getitem users_df "company") ;;
  cleaned <- lift (pd.apply clean_company_name company) ;;
  let users_df := pd.setitem users_df "company" (map VStr cleaned) in
  lift (pd.select users_df user_columns).

End Scraper.

(** ** [main]

    Each [executor.submit(scraper.process_user, user)] gives a future: the
    stub together with the worker's own run.  [as_completed] hands the
    futures back in some order, each exactly once; that order is the
    parameter [sched].  The trace of [main] is the trace of the main thread;
    what a worker did stays in its future. *)

Definition Future : Type := (Dict * M (option Dict * option DataFrame))%type.

Definition fut_user (f : Future) : Dict := fst f.
Definition fut_run (f : Future) : M (option Dict * option DataFrame) := snd f.

Definition Schedule : Type := list Future -> list Future.

(** The two accumulators [users_data] and [all_repos_data]. *)
Record Collected : Type := mkCollected {
  users_data : list Dict;
  all_repos_data : list DataFrame
}.

Section Main.

Variable srv : Server.
Variable sched : Schedule.

Definition submit (user : Dict) : Future := (user, process_user srv user).

(** One round of [for future in as_completed(future_to_user)].  The
    progress line is printed before the [try]; inside it, an append that
    happened before an exception stays. *)
Definition handle_future (total : nat) (st : nat * Collected) (future : Future)
  : M (nat * Collected) :=
  let user := fut_user future in
  let completed := S (fst st) in
  let acc := snd st in
  login <- dict_getitem user "login" ;;
  print (Processing completed total login) ;;
  match result (fut_run future) with
  | OutOfFuel => (OutOfFuel, [])
  | Raise e =>
      print (ErrorProcessing login e) ;;
      ret (completed, acc)
  | Ok (user_details, repos_df) =>
      let users_data' :=
        match user_details with
        | Some ((_ :: _) as d) => users_data acc ++ [d]
        | _ => users_data acc
        end in
      match repos_df with
      | None =>
          print (ErrorProcessing login (AttributeError "empty")) ;;
          ret (completed, mkCollected users_data' (all_repos_data acc))
      | Some df =>
          ret (completed,
               mkCollected users_data'
                 (if negb (pd.empty df) then all_repos_data acc ++ [df]
                  else all_repos_data acc))
      end
  end.

Fixpoint for_each_future (total : nat) (st : nat * Collected)
    (futures : list Future) : M (nat * Collected) :=
  match futures with
  | [] => ret st
  | future :: rest =>
      st' <- handle_future total st future ;;
      for_each_future total st' rest
  end.

(** The [with ThreadPoolExecutor(max_workers=5)] block of [main]: submit
    every stub, then handle the futures as they complete. *)
Definition process_all (berlin_users : list Dict) : M (nat * Collected) :=
  let future_to_user := map submit berlin_users in
  for_each_future (length berlin_users)
    (O, mkCollected [] []) (sched future_to_user).

Definition to_csv (df : DataFrame) (path : string) : M unit :=
  (Ok tt, [ToCsv df path]).

Definition main (fuel : nat) : M unit :=
  try_except
    (print FetchingBerlinUsers ;;
     berlin_users <- get_berlin_users srv fuel 200 ;;
     print (FoundUsers (length berlin_users)) ;;
     st <- process_all berlin_users ;;
     let acc := snd st in
     print CreatingFinalDatasets ;;
     users_df <- create_users_dataframe (users_data acc) ;;
     let repos_df :=
       match all_repos_data acc with
       | _ :: _ => pd.concat (all_repos_data acc)
       | [] => pd.empty_frame
       end in
     print SavingResults ;;
     to_csv users_df "users.csv" ;;
     to_csv repos_df "repositories.csv" ;;
     print Done)
    (fun e => print (Error e)).

End Main.

(** A remote service given by its pages, for running the model: search
    page [n] and repository page [n] are the [n]-th entries of the lists
    (an empty page past the end), all with status 200. *)
Module Fixture.

Definition page_of {A} (pages : list (list A)) (page : Z) : list A :=
  if page <=? 0 then [] else nth (Z.to_nat (page - 1)) pages [].

Definition ok {A} (a : A) : reply A := Responded (mkResponse 200 (Some a)).
Definition status {A} (code : Z) : reply A := Responded (mkResponse code None).

Definition serve (search : Z -> reply SearchResult)
    (detail : value -> reply Dict) (repos : value -> Z -> reply (list Dict))
  : Server :=
  fun r =>
    match r return reply (body_of r) with
    | SearchUsers _ page _ => search page
    | GetUser u => detail u
    | GetUserRepos u _ _ _ page => repos u page
    end.

(** A service that answers every repository listing from [pages] and
    every search from [found]; every user has the same profile. *)
Definition listing (pages : list (list Dict)) : Server :=
  serve (fun _ => ok (mkSearchResult []))
        (fun _ => ok [("login", VNone)])
        (fun _ page => ok (page_of pages page)).

Definition stub (login : string) : Dict := [("login", VStr login)].

Definition repo (name : string) : Dict :=
  [("full_name", VStr name); ("created_at", VStr "2020-01-01T00:00:00Z");
   ("stargazers_count", VInt 1); ("watchers_count", VInt 1);
   ("language", VStr "Python"); ("has_projects", VBool true);
   ("has_wiki", VBool false);
   ("license", VDict [("key", VStr "mit")])].

Definition profile (login : string) : Dict :=
  [("login", VStr login); ("name", VNone); ("company", VStr "@acme ");
   ("location", VStr "Berlin"); ("email", VNone); ("hireable", VNone);
   ("bio", VNone); ("public_repos", VInt 3); ("followers", VInt 250);
   ("following", VInt 1); ("created_at", VStr "2015-05-05T00:00:00Z")].

(** [n] repository records. *)
Definition repos_n (n : nat) : list Dict := repeat (repo "o/r") n.

Definition first_page_then {A} (first rest : reply A) (page : Z) : reply A :=
  if page =? 1 then first else rest.

(** The profile the service keeps for login [u]. *)
Definition profile_for (u : value) : Dict :=
  ("login", u) :: List.tl (profile "").

(** Fifty stubs, [u0] to [u49]. *)
Definition crowd : list Dict :=
  map (fun i => stub ("u" ++ PyStr.of_int (Z.of_nat i))%string) (seq 0 50).

Definition crowd_search : Z -> reply SearchResult :=
  first_page_then (ok (mkSearchResult crowd)) (ok (mkSearchResult [])).

Definition is_one_of (names : list string) (u : value) : bool :=
  match u with
  | VStr s => existsb (String.eqb s) names
  | _ => false
  end.

(** One stub on search page 1; page 2 answers 500, or is empty, or the
    connection drops. *)
Definition search_fails_on_page_2 : Server :=
  serve (first_page_then (ok (mkSearchResult [stub "a"])) (status 500))
        (fun u => ok (profile_for u)) (fun _ _ => ok []).

Definition search_ends_on_page_2 : Server :=
  serve (first_page_then (ok (mkSearchResult [stub "a"])) (ok (mkSearchResult [])))
        (fun u => ok (profile_for u)) (fun _ _ => ok []).

Definition search_drops_on_page_2 : Server :=
  serve (first_page_then (ok (mkSearchResult [stub "a"]))
           (TransportError ConnectionError))
        (fun u => ok (profile_for u)) (fun _ _ => ok []).

(** Search and listing both answer one good page, then an error status. *)
Definition flaky : Server :=
  serve (first_page_then (ok (mkSearchResult [stub "a"])) (status 500))
        (fun u => ok (profile_for u))
        (fun _ => first_page_then (ok (repos_n 100)) (status 503)).

(** The search never runs dry: every page holds one stub. *)
Definition endless : Server :=
  serve (fun _ => ok (mkSearchResult [stub "a"]))
        (fun u => ok (profile_for u)) (fun _ _ => ok []).

(** No user detail can be fetched. *)
Definition nobody : Server :=
  serve crowd_search (fun _ => status 404) (fun _ _ => ok (repos_n 2)).

(** The crowd is found; the details of five of them answer 404; everyone
    else has a profile and two repositories. *)
Definition berlin : Server :=
  serve crowd_search
        (fun u => if is_one_of ["u3"; "u14"; "u15"; "u26"; "u42"] u
                  then status 404 else ok (profile_for u))
        (fun _ => first_page_then (ok (repos_n 2)) (ok [])).

(** Every repository page is full, without end. *)
Definition bottomless : Server :=
  serve crowd_search (fun u => ok (profile_for u)) (fun _ _ => ok (repos_n 100)).

(** Details come back as the empty object. *)
Definition blank : Server :=
  serve crowd_search (fun _ => ok []) (fun _ _ => ok (repos_n 2)).

(** One full page of repositories, then the connection drops. *)
Definition listing_drops : Server :=
  serve crowd_search (fun u => ok (profile_for u))
        (fun _ => first_page_then (ok (repos_n 100)) (TransportError ConnectionError)).

(** Details are served, repository listings are not. *)
Definition no_repos : Server :=
  serve (fun _ => ok (mkSearchResult [])) (fun u => ok (profile_for u))
        (fun _ _ => status 500).

(** Details are served; the connection drops on every repository
    listing. *)
Definition repos_unreachable : Server :=
  serve (fun _ => ok (mkSearchResult [])) (fun u => ok (profile_for u))
        (fun _ _ => TransportError ConnectionError).

End Fixture.

(** The search query as the specification words it: a location filter and
    a filter for users strictly above the threshold. *)
Module SearchSpec.

Definition query (city : string) (threshold : Z) : string :=
  ("location:" ++ city ++ " followers:>" ++ PyStr.of_int threshold)%string.

Definition per_page_maximum : Z := 100.

End SearchSpec.

(** ** Vocabulary for the statements *)

(** What the remote service answers to the three kinds of call. *)
Definition repos_request (u : value) (page : Z) : Request :=
  GetUserRepos u "pushed" "desc" 100 page.

Definition search_request (min_followers : Z) (page : Z) : Request :=
  SearchUsers (search_query min_followers) page 100.

Definition repos_page (srv : Server) (u : value) (page : Z) : reply (list Dict) :=
  srv (repos_request u page).

Definition search_page (srv : Server) (min_followers : Z) (page : Z)
  : reply SearchResult :=
  srv (search_request min_followers page).

Definition user_detail (srv : Server) (u : value) : reply Dict :=
  srv (GetUser u).

(** A page that came back with status 200 and a decodable body. *)
Definition page_ok {A} (a : A) : reply A := Responded (mkResponse 200 (Some a)).

(** The remote calls of a trace, and the files it wrote. *)
Fixpoint calls (t : list event) : list Request :=
  match t with
  | [] => []
  | Call r :: t' => r :: calls t'
  | _ :: t' => calls t'
  end.

Fixpoint writes (t : list event) : list (DataFrame * string) :=
  match t with
  | [] => []
  | ToCsv df path :: t' => (df, path) :: writes t'
  | _ :: t' => writes t'
  end.

(** Pages [page], [page + 1], ... ([n] of them) of a page-indexed family. *)
Definition pages_from {A} (body : Z -> A) (page : Z) (n : nat) : list A :=
  map (fun i => body (page + Z.of_nat i)) (seq 0 n).

(** The repository pages [ds] are what the service answers from [page] on,
    each one a full page fetched while the cap was not yet reached. *)
Fixpoint full_pages (srv : Server) (u : value) (max_repos : Z)
    (repos : list Dict) (page : Z) (ds : list (list Dict)) : Prop :=
  match ds with
  | [] => True
  | d :: ds' =>
      len repos < max_repos /\
      repos_page srv u page = page_ok d /\
      100 <= len d /\
      full_pages srv u max_repos (repos ++ d) (page + 1) ds'
  end.

(** The search pages [ds] are what the service answers from [page] on,
    each one with at least one item. *)
Fixpoint found_pages (srv : Server) (min_followers : Z) (page : Z)
    (ds : list (list Dict)) : Prop :=
  match ds with
  | [] => True
  | d :: ds' =>
      search_page srv min_followers page = page_ok (mkSearchResult d) /\
      d <> [] /\
      found_pages srv min_followers (page + 1) ds'
  end.

(** With [repos] collected and [page] next, the listing loop goes no
    further than one more fetch: the cap is reached, or what comes back is
    not a full page. *)
Definition stops_at (srv : Server) (u : value) (max_repos : Z)
    (repos : list Dict) (page : Z) : Prop :=
  max_repos <= len repos \/
  forall d, repos_page srv u page = page_ok d -> len d < 100.

(** ** What one future adds to the dataset *)

(** The profile, if any, that handling a future with result [r] appends to
    [users_data], and the repository table it appends to
    [all_repos_data]. *)
Definition profile_of (r : outcome (option Dict * option DataFrame)) : list Dict :=
  match r with
  | Ok (Some ((_ :: _) as d), _) => [d]
  | _ => []
  end.

Definition frames_of (r : outcome (option Dict * option DataFrame)) : list DataFrame :=
  match r with
  | Ok (_, Some df) => if negb (pd.empty df) then [df] else []
  | _ => []
  end.

(** Processing the stub gives a profile. *)
Definition succeeds (srv : Server) (stub : Dict) : bool :=
  match profile_of (result (process_user srv stub)) with
  | [] => false
  | _ :: _ => true
  end.

(** The detail fetch for the stub hands back no record. *)
Definition detail_fails (srv : Server) (stub : Dict) : bool :=
  match dict_get "login" stub with
  | Some u =>
      match result (get_user_details srv u) with
      | Ok (Some _) => false
      | _ => true
      end
  | None => false
  end.

(** The remote service answers a detail request for a login with the
    record of that login. *)
Definition detail_login_matches (srv : Server) : Prop :=
  forall u d, user_detail srv u = page_ok d -> dict_get "login" d = Some u.

(** [as_completed] yields every future exactly once. *)
Definition fair (sched : Schedule) : Prop :=
  forall futures, Permutation futures (sched futures).

(** The logins of the progress lines of a trace. *)
Fixpoint progress (t : list event) : list value :=
  match t with
  | [] => []
  | Print (Processing _ _ login) :: t' => login :: progress t'
  | _ :: t' => progress t'
  end.

(** The login cells of a table. *)
Definition logins (df : DataFrame) : list value :=
  map (fun row => pd.cell (columns df) row "login") (rows df).

(** [repos_df] of [main]. *)
Definition repos_frame (all_repos_data : list DataFrame) : DataFrame :=
  match all_repos_data with
  | _ :: _ => pd.concat all_repos_data
  | [] => pd.empty_frame
  end.

(** The login of a stub, as a list of at most one element. *)
Definition stub_login (stub : Dict) : list value :=
  match dict_get "login" stub with
  | Some login => [login]
  | None => []
  end.

(** Every row of the table has one cell per column. *)
Definition well_formed (df : DataFrame) : Prop :=
  Forall (fun row => length row = length (columns df)) (rows df).

(** The cell a record gives under label [c]. *)
Definition field (c : string) (d : Dict) : value :=
  match dict_get c d with
  | Some v => v
  | None => VNaN
  end.

(** The exception, if any, that fetching and decoding a reply raises:
    the transport's own, or [JSONDecodeError] for a 200 whose body does
    not decode. *)
Definition fetch_exception {A} (rep : reply A) : option exn :=
  match rep with
  | TransportError e => Some e
  | Responded resp =>
      if status_code resp =? 200 then
        match json resp with
        | None => Some JSONDecodeError
        | Some _ => None
        end
      else None
  end.

(** ** The rows of the two tables *)

(** [x['key'] if isinstance(x, dict) and 'key' in x else None] *)
Definition license_name_of (x : value) : value :=
  match x with
  | VDict d => match dict_get "key" d with Some k => k | None => VNone end
  | _ => VNone
  end.

(** The row of the repository table for one raw record of user [u]. *)
Definition repo_row (u : value) (d : Dict) : list value :=
  [u; field "full_name" d; field "created_at" d; field "stargazers_count" d;
   field "watchers_count" d; field "language" d; field "has_projects" d;
   field "has_wiki" d; license_name_of (field "license" d)].

(** The cleaned company cell of a profile. *)
Definition company_cell (d : Dict) : value :=
  match clean_company_name (field "company" d) with
  | Ok s => VStr s
  | _ => VNaN
  end.

(** The row of the users table for one profile. *)
Definition user_row (d : Dict) : list value :=
  [field "login" d; field "name" d; company_cell d; field "location" d;
   field "email" d; field "hireable" d; field "bio" d; field "public_repos" d;
   field "followers" d; field "following" d; field "created_at" d].

(** Some record of [data] has the key [c]. *)
Definition key_somewhere (c : string) (data : list Dict) : bool :=
  existsb (fun d => match dict_get c d with Some _ => true | None => false end) data.

(** The keys that the raw records themselves must supply, in the order in
    which the table builders look for them. *)
Definition raw_repo_keys : list string :=
  ["license"; "full_name"; "created_at"; "stargazers_count";
   "watchers_count"; "language"; "has_projects"; "has_wiki"].

Definition raw_user_keys : list string :=
  ["login"; "name"; "location"; "email"; "hireable";
   "bio"; "public_repos"; "followers"; "following"; "created_at"].

(** Every profile has a company cell that [clean_company_name] accepts. *)
Definition companies_clean (users : list Dict) : bool :=
  forallb (fun d => match clean_company_name (field "company" d) with
                    | Ok _ => true
                    | _ => false
                    end) users.


(** ** [answers.py]: the surname of a display name *)

Module Answers.

(** [parts[-1] if parts else None] *)
Fixpoint last_part (parts : list Unicode.str) : option Unicode.str :=
  match parts with
  | [] => None
  | [w] => Some w
  | _ :: parts' => last_part parts'
  end.

(** [get_surname(name)]; a missing name ([pd.isna]) is [None]. *)
Definition get_surname (db : Unicode.database) (name : option Unicode.str)
  : option Unicode.str :=
  match name with
  | None => None
  | Some s => last_part (Unicode.split db (Unicode.strip db s))
  end.

End Answers.

(* ================================================================== *)
(** * Properties *)

(** ** Trimming *)

Section Trim.

Context {A : Type}.
Variable p : A -> bool.

Lemma drop_while_snoc (l : list A) (c : A) :
  CompanySpec.drop_while p (l ++ [c]) =
  match CompanySpec.drop_while p l with
  | [] => if p c then [] else [c]
  | r => r ++ [c]
  end.
Proof.
  induction l as [|a l IH]; simpl.
  - destruct (p c); reflexivity.
  - destruct (p a); [exact IH | reflexivity].
Qed.

(** What is dropped is white space, and what stays does not begin with
    white space. *)
Lemma drop_while_split (l : list A) :
  exists before,
    l = before ++ CompanySpec.drop_while p l /\
    forallb p before = true /\
    (forall c r, CompanySpec.drop_while p l = c :: r -> p c = false).
Proof.
  induction l as [|a l IH]; simpl.
  - exists []. repeat split; intros; discriminate.
  - destruct (p a) eqn:Ea.
    + destruct IH as (b & H1 & H2 & H3).
      exists (a :: b). simpl. rewrite Ea, H2. repeat split; auto.
      now rewrite <- H1.
    + exists []. repeat split; auto. intros c r H. now inversion H; subst.
Qed.

Lemma drop_while_keeps (l : list A) (c : A) (r : list A) :
  p c = false ->
  exists r', CompanySpec.drop_while p (l ++ c :: r) = r' ++ c :: r.
Proof.
  intros Hc. induction l as [|a l IH]; simpl.
  - rewrite Hc. now exists [].
  - destruct (p a); [exact IH|]. now exists (a :: l).
Qed.

(** Trimming takes a run of white space off each end; what is left has
    white space at neither end. *)
Lemma trim_core (l : list A) :
  exists before after,
    l = before ++ CompanySpec.trim p l ++ after /\
    forallb p before = true /\
    forallb p after = true /\
    (forall c r, CompanySpec.trim p l = c :: r -> p c = false) /\
    (forall r c, CompanySpec.trim p l = r ++ [c] -> p c = false).
Proof.
  unfold CompanySpec.trim.
  destruct (drop_while_split l) as (b & Hb1 & Hb2 & Hb3).
  set (m := CompanySpec.drop_while p l) in *.
  destruct (drop_while_split (rev m)) as (a & Ha1 & Ha2 & Ha3).
  set (k := CompanySpec.drop_while p (rev m)) in *.
  assert (Hm : m = rev k ++ rev a).
  { rewrite <- rev_app_distr, <- Ha1, rev_involutive. reflexivity. }
  exists b, (rev a). split; [|split; [|split; [|split]]].
  - rewrite Hb1 at 1. now rewrite Hm.
  - exact Hb2.
  - rewrite forallb_forall in *. intros x Hx. apply Ha2. now apply in_rev.
  - intros c r Hk.
    destruct m as [|x xs] eqn:Em.
    + subst k. simpl in Hk. discriminate.
    + assert (Hx : p x = false) by (eapply Hb3; reflexivity).
      rewrite Hk in Hm. simpl in Hm. inversion Hm; subst. exact Hx.
  - intros r c Hk.
    apply (f_equal (@rev A)) in Hk.
    rewrite rev_involutive, rev_app_distr in Hk. simpl in Hk.
    eapply Ha3. exact Hk.
Qed.


Lemma trim_incl (l : list A) (x : A) :
  In x (CompanySpec.trim p l) -> In x l.
Proof.
  destruct (trim_core l) as (before & after & H & _).
  intros Hx. rewrite H. apply in_or_app. right. apply in_or_app. now left.
Qed.

(** A string without white space at either end is its own trimming. *)
Lemma trim_fixed (l : list A) :
  (forall c r, l = c :: r -> p c = false) ->
  (forall r c, l = r ++ [c] -> p c = false) ->
  CompanySpec.trim p l = l.
Proof.
  intros Hhead Hlast. unfold CompanySpec.trim.
  assert (H1 : CompanySpec.drop_while p l = l).
  { destruct l as [|c r]; [reflexivity|].
    simpl. now rewrite (Hhead c r eq_refl). }
  rewrite H1.
  assert (H2 : CompanySpec.drop_while p (rev l) = rev l).
  { destruct (rev l) as [|c r] eqn:E; [reflexivity|].
    simpl. rewrite (Hlast (rev r) c); [reflexivity|].
    apply (f_equal (@rev A)) in E. now rewrite rev_involutive in E. }
  rewrite H2. apply rev_involutive.
Qed.

End Trim.

Lemma drop_while_map {A B} (f : A -> B) (p : A -> bool) (q : B -> bool)
    (l : list A) :
  (forall a, In a l -> q (f a) = p a) ->
  map f (CompanySpec.drop_while p l) = CompanySpec.drop_while q (map f l).
Proof.
  induction l as [|a l IH]; intros H; [reflexivity|].
  simpl. rewrite (H a (or_introl eq_refl)).
  destruct (p a); [|reflexivity].
  apply IH. intros x Hx. apply H. now right.
Qed.

Lemma drop_while_incl {A} (p : A -> bool) (l : list A) (x : A) :
  In x (CompanySpec.drop_while p l) -> In x l.
Proof.
  destruct (drop_while_split p l) as (b & H & _).
  intros Hx. rewrite H. apply in_or_app. now right.
Qed.

Lemma trim_map {A B} (f : A -> B) (p : A -> bool) (q : B -> bool)
    (l : list A) :
  (forall a, In a l -> q (f a) = p a) ->
  map f (CompanySpec.trim p l) = CompanySpec.trim q (map f l).
Proof.
  intros H. unfold CompanySpec.trim.
  rewrite map_rev. f_equal.
  rewrite <- (drop_while_map f p q l H), <- map_rev.
  apply drop_while_map.
  intros a Ha. apply H. apply in_rev in Ha.
  now apply drop_while_incl in Ha.
Qed.

(** ** [str.strip] is trimming *)

Section CompanyName.

Local Abbreviation chars := list_ascii_of_string.

Lemma chars_lstrip (s : string) :
  chars (PyStr.lstrip s) = CompanySpec.drop_while PyStr.isspace (chars s).
Proof.
  induction s as [|c s IH]; simpl; [reflexivity|].
  destruct (PyStr.isspace c); [exact IH | reflexivity].
Qed.

Lemma chars_rstrip (s : string) :
  chars (PyStr.rstrip s) =
  rev (CompanySpec.drop_while PyStr.isspace (rev (chars s))).
Proof.
  induction s as [|c s IH]; simpl; [reflexivity|].
  rewrite drop_while_snoc.
  destruct (PyStr.rstrip s) as [|a r] eqn:E; simpl in IH.
  - destruct (CompanySpec.drop_while PyStr.isspace (rev (chars s))) as [|x xs] eqn:D.
    + destruct (PyStr.isspace c); reflexivity.
    + exfalso. simpl in IH. symmetry in IH.
      apply app_eq_nil in IH. destruct IH as [_ IH]. discriminate IH.
  - destruct (CompanySpec.drop_while PyStr.isspace (rev (chars s))) as [|x xs] eqn:D.
    + discriminate IH.
    + rewrite rev_app_distr. simpl in IH |- *. rewrite <- IH. reflexivity.
Qed.

Lemma chars_strip (s : string) :
  chars (PyStr.strip s) = CompanySpec.trim PyStr.isspace (chars s).
Proof.
  unfold PyStr.strip, CompanySpec.trim.
  rewrite chars_rstrip, chars_lstrip. reflexivity.
Qed.

Lemma chars_upper (s : string) :
  chars (PyStr.upper s) = map PyStr.upper_char (chars s).
Proof.
  induction s as [|c s IH]; simpl; [reflexivity | now rewrite IH].
Qed.

Variable db : Unicode.database.

Lemma lstrip_drop_while (s : Unicode.str) :
  Unicode.lstrip db s = CompanySpec.drop_while (Unicode.isspace db) s.
Proof.
  induction s as [|c s IH]; simpl; [reflexivity|].
  destruct (Unicode.isspace db c); [exact IH | reflexivity].
Qed.

Lemma rstrip_drop_while (s : Unicode.str) :
  Unicode.rstrip db s =
  rev (CompanySpec.drop_while (Unicode.isspace db) (rev s)).
Proof.
  induction s as [|c s IH]; simpl; [reflexivity|].
  rewrite drop_while_snoc.
  destruct (Unicode.rstrip db s) as [|a r] eqn:E.
  - destruct (CompanySpec.drop_while (Unicode.isspace db) (rev s)) as [|x xs] eqn:D.
    + destruct (Unicode.isspace db c); reflexivity.
    + exfalso. simpl in IH. symmetry in IH.
      apply app_eq_nil in IH. destruct IH as [_ IH]. discriminate IH.
  - destruct (CompanySpec.drop_while (Unicode.isspace db) (rev s)) as [|x xs] eqn:D.
    + discriminate IH.
    + rewrite rev_app_distr. simpl in IH |- *. rewrite <- IH. reflexivity.
Qed.

Lemma strip_trim (s : Unicode.str) :
  Unicode.strip db s = CompanySpec.trim (Unicode.isspace db) s.
Proof.
  unfold Unicode.strip, CompanySpec.trim.
  rewrite rstrip_drop_while, lstrip_drop_while. reflexivity.
Qed.

Lemma startswith_drop_at (s : Unicode.str) :
  (if Unicode.startswith 64%N s then Unicode.tail s else s) =
  CompanySpec.drop_at s.
Proof. destruct s as [|c s]; reflexivity. Qed.

(** *** ASCII text: the two models of a string agree *)

Lemma N_of_ascii_at (c : ascii) :
  N.eqb (N_of_ascii c) 64%N = Ascii.eqb c "@"%char.
Proof.
  destruct c as [[] [] [] [] [] [] [] []]; vm_compute; reflexivity.
Qed.

Lemma upper_char_ascii (c : ascii) :
  (nat_of_ascii c <? 128)%nat = true ->
  (nat_of_ascii (PyStr.upper_char c) <? 128)%nat = true.
Proof.
  destruct c as [[] [] [] [] [] [] [] []]; vm_compute; intros H;
    first [reflexivity | discriminate H].
Qed.

Lemma ascii_ok_at (c : ascii) :
  Unicode.ascii_ok db = true ->
  (nat_of_ascii c <? 128)%nat = true ->
  Unicode.isspace db (N_of_ascii c) = PyStr.isspace c /\
  Unicode.to_upper db (N_of_ascii c) = [N_of_ascii (PyStr.upper_char c)].
Proof.
  intros Hok Hc. unfold Unicode.ascii_ok in Hok.
  rewrite forallb_forall in Hok.
  assert (Hin : In c (map ascii_of_nat (seq 0 128))).
  { apply in_map_iff. exists (nat_of_ascii c).
    split; [apply ascii_nat_embedding|].
    apply in_seq. apply Nat.ltb_lt in Hc. lia. }
  specialize (Hok c Hin). apply andb_true_iff in Hok.
  destruct Hok as [Hs Hu]. split.
  - now apply Bool.eqb_prop in Hs.
  - destruct (Unicode.to_upper db (N_of_ascii c)) as [|u [|u' r]];
      try discriminate.
    apply N.eqb_eq in Hu. now subst u.
Qed.

Lemma is_ascii_in (s : string) (c : ascii) :
  PyStr.is_ascii s = true -> In c (chars s) ->
  (nat_of_ascii c <? 128)%nat = true.
Proof.
  unfold PyStr.is_ascii. rewrite forallb_forall. auto.
Qed.

Lemma is_ascii_strip (s : string) :
  PyStr.is_ascii s = true -> PyStr.is_ascii (PyStr.strip s) = true.
Proof.
  intros H. unfold PyStr.is_ascii. apply forallb_forall. intros c Hc.
  rewrite chars_strip in Hc. apply trim_incl in Hc.
  now apply (is_ascii_in s).
Qed.

Lemma is_ascii_tail (s : string) :
  PyStr.is_ascii s = true -> PyStr.is_ascii (PyStr.tail s) = true.
Proof.
  destruct s as [|c s]; [auto|].
  unfold PyStr.is_ascii. cbn [list_ascii_of_string forallb PyStr.tail].
  intros H. apply andb_true_iff in H. now destruct H.
Qed.

Lemma is_ascii_upper (s : string) :
  PyStr.is_ascii s = true -> PyStr.is_ascii (PyStr.upper s) = true.
Proof.
  unfold PyStr.is_ascii. rewrite chars_upper, !forallb_forall.
  intros H c Hc. apply in_map_iff in Hc. destruct Hc as (a & <- & Ha).
  apply upper_char_ascii. now apply H.
Qed.

Lemma of_string_strip (s : string) :
  Unicode.ascii_ok db = true ->
  PyStr.is_ascii s = true ->
  Unicode.strip db (Unicode.of_string s) = Unicode.of_string (PyStr.strip s).
Proof.
  intros Hok Hs. rewrite strip_trim. unfold Unicode.of_string.
  rewrite chars_strip. symmetry. apply trim_map.
  intros a Ha. apply ascii_ok_at; [exact Hok|]. now apply (is_ascii_in s).
Qed.

Lemma of_string_upper (s : string) :
  Unicode.ascii_ok db = true ->
  PyStr.is_ascii s = true ->
  Unicode.upper db (Unicode.of_string s) = Unicode.of_string (PyStr.upper s).
Proof.
  intros Hok. unfold Unicode.upper, Unicode.of_string, PyStr.is_ascii.
  induction s as [|c s IH]; [reflexivity|].
  cbn [list_ascii_of_string forallb map flat_map PyStr.upper].
  intros H. apply andb_true_iff in H. destruct H as [Hc Hs].
  rewrite (proj2 (ascii_ok_at c Hok Hc)), (IH Hs). reflexivity.
Qed.

(** On ASCII text the cell-level [clean_company_name] and the one over
    code points give the same string. *)
Lemma clean_company_name_ascii (raw : string) :
  Unicode.ascii_ok db = true ->
  PyStr.is_ascii raw = true ->
  exists s,
    clean_company_name (VStr raw) = Ok s /\
    PyStr.is_ascii s = true /\
    Unicode.clean_company_name db (Some (Unicode.of_string raw)) =
      Unicode.of_string s.
Proof.
  intros Hok Hraw. destruct raw as [|c0 raw0]; [exists ""%string; now repeat split|].
  set (raw := String c0 raw0) in *.
  unfold clean_company_name. change (negb (truthy (VStr raw))) with false.
  cbv iota.
  set (core := PyStr.strip raw).
  set (y := if PyStr.startswith "@"%char core then PyStr.tail core else core).
  assert (Hcore : PyStr.is_ascii core = true) by now apply is_ascii_strip.
  assert (Hy : PyStr.is_ascii y = true).
  { unfold y. destruct (PyStr.startswith "@"%char core); [|exact Hcore].
    now apply is_ascii_tail. }
  exists (PyStr.upper y). split; [reflexivity|].
  split; [now apply is_ascii_upper|].
  change (Unicode.of_string raw) with
    (N_of_ascii c0 :: Unicode.of_string raw0).
  cbn [Unicode.clean_company_name].
  change (N_of_ascii c0 :: Unicode.of_string raw0) with (Unicode.of_string raw).
  rewrite (of_string_strip raw Hok Hraw). fold core.
  rewrite <- (of_string_upper y Hok Hy). f_equal.
  unfold y. destruct core as [|c core']; [reflexivity|].
  unfold Unicode.of_string.
  cbn [list_ascii_of_string map Unicode.startswith Unicode.tail
       PyStr.startswith PyStr.tail].
  rewrite N_of_ascii_at. destruct (Ascii.eqb c "@"%char); reflexivity.
Qed.

End CompanyName.

(** C9. [clean_company_name], on every [str] over all of Unicode and on
    [None], agrees with the normalizer of the specification: white space
    is trimmed first, then one leading at-sign is dropped, then the rest
    is uppercased, and an absent or empty input gives the empty string.
    Spelled out: a non-empty input is a run of white space, a core with
    white space at neither end, and a run of white space, and the result
    is the upper-case form of the core without its leading at-sign.  With a
    character database that has the ASCII rows, the three quoted examples
    hold. *)
Theorem clean_company_name_spec (db : Unicode.database) :
  (forall raw : option Unicode.str,
      Unicode.clean_company_name db raw = CompanySpec.cleanCompany db raw) /\
  Unicode.clean_company_name db None = [] /\
  Unicode.clean_company_name db (Some []) = [] /\
  (forall s : Unicode.str,
      s <> [] ->
      exists before core after,
        s = before ++ core ++ after /\
        forallb (Unicode.isspace db) before = true /\
        forallb (Unicode.isspace db) after = true /\
        (forall c r, core = c :: r -> Unicode.isspace db c = false) /\
        (forall r c, core = r ++ [c] -> Unicode.isspace db c = false) /\
        Unicode.clean_company_name db (Some s) =
          flat_map (Unicode.to_upper db)
            (match core with
             | 64%N :: rest => rest
             | _ => core
             end)) /\
  (Unicode.ascii_ok db = true ->
   Unicode.clean_company_name db (Some (Unicode.of_string "@OpenAI ")) =
     Unicode.of_string "OPENAI" /\
   Unicode.clean_company_name db (Some (Unicode.of_string "Acme Corp")) =
     Unicode.of_string "ACME CORP").
Proof.
  assert (Hspec : forall raw : option Unicode.str,
             Unicode.clean_company_name db raw = CompanySpec.cleanCompany db raw).
  { intros [s|]; [|reflexivity].
    destruct s as [|c s]; [reflexivity|].
    unfold Unicode.clean_company_name, CompanySpec.cleanCompany, Unicode.upper.
    cbv zeta. now rewrite startswith_drop_at, strip_trim. }
  split; [exact Hspec|]. split; [reflexivity|]. split; [reflexivity|]. split.
  - intros s Hne.
    destruct (trim_core (Unicode.isspace db) s)
      as (before & after & Hs & Hb & Ha & Hhead & Hlast).
    exists before, (CompanySpec.trim (Unicode.isspace db) s), after.
    repeat split; auto.
    rewrite Hspec. destruct s as [|c s]; [congruence|].
    unfold CompanySpec.cleanCompany. f_equal.
    destruct (CompanySpec.trim (Unicode.isspace db) (c :: s)) as [|x r];
      [reflexivity|].
    unfold CompanySpec.drop_at.
    destruct (N.eqb_spec x 64) as [->|Hx]; [reflexivity|].
    destruct x as [|x]; [reflexivity|].
    repeat (destruct x as [x|x|]; try reflexivity). congruence.
  - intros Hok. split.
    + destruct (clean_company_name_ascii db "@OpenAI " Hok eq_refl)
        as (r & Hr & _ & Hu).
      vm_compute in Hr. inversion Hr; subst r. exact Hu.
    + destruct (clean_company_name_ascii db "Acme Corp" Hok eq_refl)
        as (r & Hr & _ & Hu).
      vm_compute in Hr. inversion Hr; subst r. exact Hu.
Qed.

Lemma clean_company_name_spec_witness :
  (Unicode.clean_company_name Unicode.latin1
     (Some (Unicode.of_string "@OpenAI ")) = Unicode.of_string "OPENAI" /\
   Unicode.clean_company_name Unicode.latin1
     (Some (Unicode.of_string "Acme Corp")) = Unicode.of_string "ACME CORP") /\
  (* u with diaeresis, 252, becomes U with diaeresis, 220 *)
  Unicode.clean_company_name Unicode.latin1
    (Some [77; 252; 110; 99; 104; 101; 110; 32; 65; 71]%N) =
    [77; 220; 78; 67; 72; 69; 78; 32; 65; 71]%N /\
  (* no-break space, 160, and em space, 8195, are trimmed; sharp s, 223,
     becomes SS *)
  Unicode.clean_company_name Unicode.latin1
    (Some [160; 115; 116; 114; 97; 223; 101; 8195]%N) =
    Unicode.of_string "STRASSE".
Proof.
  split; [|split; reflexivity].
  apply (clean_company_name_spec Unicode.latin1). vm_compute. reflexivity.
Defined.

(** ** The effect monad *)

Lemma bind_ok {A B} (a : A) (t : list event) (f : A -> M B) :
  bind (Ok a, t) f = (fst (f a), t ++ snd (f a)).
Proof. unfold bind. destruct (f a); reflexivity. Qed.

Lemma result_bind {A B} (m : M A) (f : A -> M B) :
  result (bind m f) =
  match result m with
  | Ok a => result (f a)
  | Raise e => Raise e
  | OutOfFuel => OutOfFuel
  end.
Proof.
  destruct m as [[a|e|] t]; simpl; try reflexivity.
  destruct (f a); reflexivity.
Qed.

Lemma trace_bind {A B} (m : M A) (f : A -> M B) :
  trace (bind m f) =
  match result m with
  | Ok a => trace m ++ trace (f a)
  | _ => trace m
  end.
Proof.
  destruct m as [[a|e|] t]; simpl; try reflexivity.
  destruct (f a); reflexivity.
Qed.

Lemma result_lift_bind {A B} (o : outcome A) (f : A -> M B) :
  result (bind (lift o) f) =
  match o with
  | Ok a => result (f a)
  | Raise e => Raise e
  | OutOfFuel => OutOfFuel
  end.
Proof. rewrite result_bind. reflexivity. Qed.

Lemma calls_app (t1 t2 : list event) : calls (t1 ++ t2) = calls t1 ++ calls t2.
Proof.
  induction t1 as [|[r|m|df p] t1 IH]; simpl; rewrite ?IH; reflexivity.
Qed.

Lemma writes_app (t1 t2 : list event) : writes (t1 ++ t2) = writes t1 ++ writes t2.
Proof.
  induction t1 as [|[r|m|df p] t1 IH]; simpl; rewrite ?IH; reflexivity.
Qed.

Lemma pages_from_S {A} (body : Z -> A) (page : Z) (n : nat) :
  pages_from body page (S n) = body page :: pages_from body (page + 1) n.
Proof.
  unfold pages_from. simpl. rewrite Z.add_0_r. f_equal.
  rewrite <- seq_shift, map_map. apply map_ext. intros i. f_equal. lia.
Qed.

Lemma pages_from_snoc {A} (body : Z -> A) (page : Z) (n : nat) :
  pages_from body page (S n) =
  pages_from body page n ++ [body (page + Z.of_nat n)].
Proof.
  unfold pages_from. rewrite seq_S, map_app. reflexivity.
Qed.

Lemma len_app {A} (l1 l2 : list A) : len (l1 ++ l2) = len l1 + len l2.
Proof. unfold len. rewrite length_app. lia. Qed.

Lemma len_nonneg {A} (l : list A) : 0 <= len l.
Proof. unfold len. lia. Qed.

Lemma slice_to_all {A} (l : list A) (k : Z) : len l <= k -> slice_to l k = l.
Proof.
  unfold slice_to, len. intros H.
  destruct (0 <=? k) eqn:E; [|lia].
  apply firstn_all2. lia.
Qed.

Lemma len_slice_to {A} (l : list A) (k : Z) : 0 <= k -> len (slice_to l k) <= k.
Proof.
  unfold slice_to, len. intros H. destruct (0 <=? k) eqn:E; [|lia].
  rewrite length_firstn. lia.
Qed.

(** ** One round of the repository listing loop *)

Section ReposLoop.

Variable srv : Server.
Variable u : value.
Variable max_repos : Z.

Local Abbreviation loop := (get_user_repos_loop srv).

Lemma repos_loop_cap fuel repos page :
  max_repos <= len repos ->
  loop fuel u max_repos repos page = ret repos.
Proof.
  intros H. destruct fuel; simpl;
    (destruct (len repos <? max_repos) eqn:E; [apply Z.ltb_lt in E; lia | reflexivity]).
Qed.

Lemma repos_loop_round fuel repos page :
  len repos < max_repos ->
  loop (S fuel) u max_repos repos page =
  match repos_page srv u page with
  | TransportError e => (Raise e, [Call (repos_request u page)])
  | Responded resp =>
      if status_code resp =? 200 then
        match json resp with
        | None => (Raise JSONDecodeError, [Call (repos_request u page)])
        | Some [] => (Ok repos, [Call (repos_request u page)])
        | Some ((_ :: _) as data) =>
            if len data <? 100
            then (Ok (repos ++ data), [Call (repos_request u page)])
            else
              let m := loop fuel u max_repos (repos ++ data) (page + 1) in
              (fst m, Call (repos_request u page) :: snd m)
        end
      else (Ok repos, [Call (repos_request u page);
                       Print (ErrorFetchingRepos u (status_code resp))])
  end.
Proof.
  intros H. apply Z.ltb_lt in H. simpl. rewrite H.
  unfold api_call, repos_page, repos_request.
  destruct (srv (GetUserRepos u "pushed" "desc" 100 page)) as [resp|e];
    [|reflexivity].
  rewrite bind_ok. destruct resp as [st js]. cbn [status_code json].
  destruct (st =? 200); [|reflexivity].
  cbn [negb]. unfold response_json. cbn [json].
  destruct js as [[|d data]|]; try reflexivity.
  cbn [ret bind].
  destruct (len (d :: data) <? 100); [reflexivity|].
  cbn [fst snd app].
  destruct (get_user_repos_loop srv fuel u max_repos _ _); reflexivity.
Qed.

(** A run of full pages is fetched page after page. *)
Lemma repos_loop_run ds : forall fuel repos page,
  full_pages srv u max_repos repos page ds ->
  (length ds <= fuel)%nat ->
  loop fuel u max_repos repos page =
  (fst (loop (fuel - length ds) u max_repos (repos ++ concat ds) (page + len ds)),
   map Call (pages_from (repos_request u) page (length ds)) ++
   snd (loop (fuel - length ds) u max_repos (repos ++ concat ds) (page + len ds))).
Proof.
  induction ds as [|d ds IH]; intros fuel repos page Hfull Hfuel.
  - simpl. rewrite Nat.sub_0_r, app_nil_r. unfold len. simpl.
    rewrite Z.add_0_r. destruct (loop _ _ _ _ _); reflexivity.
  - destruct Hfull as (Hlt & Hpage & Hlen & Hrest).
    destruct fuel as [|fuel]; [simpl in Hfuel; lia|].
    rewrite repos_loop_round by exact Hlt.
    rewrite Hpage. unfold page_ok. cbn [status_code json Z.eqb Pos.eqb].
    destruct d as [|x d]; [unfold len in Hlen; simpl in Hlen; lia|].
    destruct (len (x :: d) <? 100) eqn:E; [apply Z.ltb_lt in E; lia|].
    cbv zeta. rewrite (IH fuel (repos ++ x :: d) (page + 1) Hrest)
      by (simpl in Hfuel; lia).
    cbn [fst snd length concat Nat.sub]. rewrite pages_from_S.
    rewrite <- app_assoc.
    replace (page + len ((x :: d) :: ds)) with (page + 1 + len ds)
      by (unfold len; cbn [length]; lia).
    reflexivity.
Qed.

End ReposLoop.

(** ** Where the repository listing stops *)

Section ReposStop.

Variable srv : Server.
Variable u : value.
Variable max_repos : Z.

Local Abbreviation loop := (get_user_repos_loop srv).

Local Abbreviation stops_at := (stops_at srv u max_repos).

Local Ltac no_full_page :=
  exists []; cbn [concat length full_pages pages_from map seq app];
  rewrite !app_nil_r; change (len (@nil (list Dict))) with 0;
  rewrite !Z.add_0_r.

Lemma last_round fuel repos page :
  stops_at repos page ->
  loop (S fuel) u max_repos repos page = loop 1 u max_repos repos page.
Proof.
  intros [Hcap|Hshort].
  - now rewrite !repos_loop_cap.
  - destruct (Z.lt_ge_cases (len repos) max_repos) as [Hlt|Hge];
      [|now rewrite !repos_loop_cap].
    rewrite !repos_loop_round by exact Hlt.
    destruct (repos_page srv u page) as [[st js]|e] eqn:E; [|reflexivity].
    cbn [status_code json].
    destruct (st =? 200) eqn:Est; [|reflexivity].
    destruct js as [[|x d]|]; try reflexivity.
    apply Z.eqb_eq in Est. subst st.
    specialize (Hshort (x :: d) eq_refl).
    apply Z.ltb_lt in Hshort. now rewrite Hshort.
Qed.

Lemma last_round_returns repos page :
  stops_at repos page ->
  result (loop 1 u max_repos repos page) <> OutOfFuel.
Proof.
  intros Hstop.
  destruct (Z.lt_ge_cases (len repos) max_repos) as [Hlt|Hge];
    [|rewrite repos_loop_cap by exact Hge; discriminate].
  destruct Hstop as [Hcap|Hshort]; [lia|].
  rewrite repos_loop_round by exact Hlt.
  destruct (repos_page srv u page) as [[st js]|e] eqn:E; [|discriminate].
  cbn [status_code json].
  destruct (st =? 200) eqn:Est; [|discriminate].
  destruct js as [[|x d]|]; try discriminate.
  apply Z.eqb_eq in Est. subst st.
  specialize (Hshort (x :: d) eq_refl).
  apply Z.ltb_lt in Hshort. rewrite Hshort. discriminate.
Qed.

(** The whole loop: a run of full pages, then one last round. *)
Lemma repos_loop_stops fuel : forall repos page,
  (Z.to_nat (max_repos - len repos) <= fuel)%nat ->
  exists ds,
    full_pages srv u max_repos repos page ds /\
    stops_at (repos ++ concat ds) (page + len ds) /\
    loop fuel u max_repos repos page =
    (fst (loop 1 u max_repos (repos ++ concat ds) (page + len ds)),
     map Call (pages_from (repos_request u) page (length ds)) ++
     snd (loop 1 u max_repos (repos ++ concat ds) (page + len ds))).
Proof.
  induction fuel as [|fuel IH]; intros repos page Hfuel.
  - no_full_page.
    assert (Hcap : max_repos <= len repos) by lia.
    repeat split; [now left|].
    now rewrite !repos_loop_cap.
  - destruct (Z.lt_ge_cases (len repos) max_repos) as [Hlt|Hge].
    + destruct (repos_page srv u page) as [[st js]|e] eqn:E.
      * destruct (st =? 200) eqn:Est.
        -- apply Z.eqb_eq in Est. subst st.
           destruct js as [d|].
           ++ destruct (Z.lt_ge_cases (len d) 100) as [Hshort|Hfull].
              ** no_full_page.
                 assert (Hs : stops_at repos page).
                 { right. intros d' Hd'. unfold page_ok in Hd'.
                   rewrite E in Hd'. now inversion Hd'; subst. }
                 repeat split; [exact Hs|].
                 rewrite (last_round fuel) by exact Hs.
                 destruct (loop 1 u max_repos repos page); reflexivity.
              ** destruct (IH (repos ++ d) (page + 1)) as (ds & Hfull' & Hstop & Hrun).
                 { rewrite len_app. lia. }
                 exists (d :: ds). cbn [concat length full_pages].
                 replace (page + len (d :: ds)) with (page + 1 + len ds)
                   by (unfold len; cbn [length]; lia).
                 rewrite app_assoc.
                 repeat split; auto.
                 rewrite repos_loop_round by exact Hlt.
                 rewrite E. cbn [status_code json Z.eqb Pos.eqb].
                 destruct d as [|x d]; [unfold len in Hfull; simpl in Hfull; lia|].
                 destruct (len (x :: d) <? 100) eqn:El;
                   [apply Z.ltb_lt in El; lia|].
                 cbv zeta. rewrite Hrun. cbn [fst snd].
                 rewrite pages_from_S. reflexivity.
           ++ no_full_page.
              assert (Hs : stops_at repos page).
              { right. intros d' Hd'. unfold page_ok in Hd'.
                rewrite E in Hd'. discriminate. }
              repeat split; [exact Hs|].
              rewrite (last_round fuel) by exact Hs.
              destruct (loop 1 u max_repos repos page); reflexivity.
        -- no_full_page.
           assert (Hs : stops_at repos page).
           { right. intros d' Hd'. unfold page_ok in Hd'.
             rewrite E in Hd'. inversion Hd'; subst. discriminate. }
           repeat split; [exact Hs|].
           rewrite (last_round fuel) by exact Hs.
           destruct (loop 1 u max_repos repos page); reflexivity.
      * no_full_page.
        assert (Hs : stops_at repos page).
        { right. intros d' Hd'. unfold page_ok in Hd'.
          rewrite E in Hd'. discriminate. }
        repeat split; [exact Hs|].
        rewrite (last_round fuel) by exact Hs.
        destruct (loop 1 u max_repos repos page); reflexivity.
    + no_full_page.
      repeat split; [now left|].
      now rewrite !repos_loop_cap.
Qed.

End ReposStop.

(** [get_user_repos] as a whole: full pages, one last round, the slice. *)
Lemma get_user_repos_stops (srv : Server) (u : value) (max_repos : Z) :
  exists ds,
    full_pages srv u max_repos [] 1 ds /\
    stops_at srv u max_repos (concat ds) (1 + len ds) /\
    get_user_repos srv u max_repos =
    (match fst (get_user_repos_loop srv 1 u max_repos (concat ds) (1 + len ds)) with
     | Ok repos => Ok (slice_to repos max_repos)
     | Raise e => Raise e
     | OutOfFuel => OutOfFuel
     end,
     map Call (pages_from (repos_request u) 1 (length ds)) ++
     snd (get_user_repos_loop srv 1 u max_repos (concat ds) (1 + len ds))).
Proof.
  destruct (repos_loop_stops srv u max_repos (Z.to_nat max_repos) [] 1)
    as (ds & Hfull & Hstop & Hrun).
  { unfold len. simpl. lia. }
  exists ds. cbn [app] in *. repeat split; auto.
  unfold get_user_repos. rewrite Hrun.
  destruct (get_user_repos_loop srv 1 u max_repos (concat ds) (1 + len ds))
    as [[r|e|] t]; cbn [fst snd bind ret]; rewrite ?app_nil_r; reflexivity.
Qed.

(** [get_user_repos] always comes back: the fuel it gives its loop is
    enough for every remote service. *)
Lemma get_user_repos_returns (srv : Server) (u : value) (max_repos : Z) :
  result (get_user_repos srv u max_repos) <> OutOfFuel.
Proof.
  destruct (get_user_repos_stops srv u max_repos) as (ds & _ & Hstop & Hrun).
  rewrite Hrun. unfold result. cbn [fst].
  pose proof (last_round_returns srv u max_repos _ _ Hstop) as H.
  unfold result in H.
  destruct (fst (get_user_repos_loop srv 1 u max_repos (concat ds) (1 + len ds)));
    congruence.
Qed.

Lemma full_pages_inv (srv : Server) (u : value) (max_repos : Z) ds :
  forall repos page,
    full_pages srv u max_repos repos page ds ->
    Forall (fun j => len (repos ++ concat (firstn j ds)) < max_repos /\
                     100 <= len (nth j ds []))
           (seq 0 (length ds)).
Proof.
  induction ds as [|d ds IH]; intros repos page H; [constructor|].
  destruct H as (Hlt & _ & Hlen & Hrest).
  cbn [length seq]. constructor.
  - cbn [firstn concat nth]. rewrite app_nil_r. auto.
  - rewrite <- seq_shift. apply Forall_map.
    specialize (IH _ _ Hrest).
    eapply Forall_impl; [|exact IH].
    intros j [H1 H2]. cbn [firstn concat nth].
    rewrite app_assoc. auto.
Qed.

(** ** Listing from a finite sequence of pages *)

Section Listing.

Variable pages : list (list Dict).
Variable u : value.

Lemma listing_page (page : Z) :
  repos_page (Fixture.listing pages) u page = page_ok (Fixture.page_of pages page).
Proof. reflexivity. Qed.

Lemma page_of_nth (i : nat) :
  Fixture.page_of pages (1 + Z.of_nat i) = nth i pages [].
Proof.
  unfold Fixture.page_of.
  destruct (1 + Z.of_nat i <=? 0) eqn:E; [apply Z.leb_le in E; lia|].
  f_equal. lia.
Qed.

Lemma listing_full_pages (max_repos : Z) ds : forall repos page,
  full_pages (Fixture.listing pages) u max_repos repos page ds ->
  ds = pages_from (Fixture.page_of pages) page (length ds).
Proof.
  induction ds as [|d ds IH]; intros repos page H; [reflexivity|].
  destruct H as (_ & Hpage & _ & Hrest).
  cbn [length]. rewrite pages_from_S.
  rewrite listing_page in Hpage. inversion Hpage; subst d.
  f_equal. eapply IH. exact Hrest.
Qed.

End Listing.

Lemma concat_nth_seq {A} (l : list (list A)) : forall n,
  concat (map (fun i => nth i l []) (seq 0 n)) = concat (firstn n l).
Proof.
  induction l as [|a l IH]; intros n.
  - rewrite firstn_nil. simpl.
    induction (seq 0 n) as [|i s IHs]; [reflexivity|].
    simpl. destruct i; exact IHs.
  - destruct n as [|n]; [reflexivity|].
    cbn [seq map firstn concat nth]. f_equal.
    rewrite <- seq_shift, map_map. cbn [nth]. apply IH.
Qed.

Lemma concat_pages_from (pages : list (list Dict)) (n : nat) :
  concat (pages_from (Fixture.page_of pages) 1 n) = concat (firstn n pages).
Proof.
  unfold pages_from. rewrite <- concat_nth_seq. f_equal.
  apply map_ext. intros i. apply page_of_nth.
Qed.

Lemma firstn_pages_from {A} (body : Z -> A) (page : Z) (n j : nat) :
  (j <= n)%nat -> firstn j (pages_from body page n) = pages_from body page j.
Proof.
  intros H. unfold pages_from. rewrite firstn_map. f_equal.
  replace n with (j + (n - j))%nat by lia.
  rewrite seq_app, firstn_app, length_seq, Nat.sub_diag. simpl.
  rewrite app_nil_r. apply firstn_all2. rewrite length_seq. lia.
Qed.

Lemma nth_pages_from (pages : list (list Dict)) (n j : nat) :
  (j < n)%nat ->
  nth j (pages_from (Fixture.page_of pages) 1 n) [] =
  Fixture.page_of pages (Z.of_nat (S j)).
Proof.
  intros H. unfold pages_from.
  rewrite (nth_indep _ [] (Fixture.page_of pages (1 + Z.of_nat 0)))
    by (rewrite length_map, length_seq; lia).
  rewrite (map_nth (fun i => Fixture.page_of pages (1 + Z.of_nat i))).
  rewrite seq_nth by lia. f_equal. lia.
Qed.

Lemma calls_map_Call (l : list Request) : calls (map Call l) = l.
Proof. induction l as [|r l IH]; simpl; [reflexivity | now rewrite IH]. Qed.

(** The stopping point of a listing over [pages]: [n] pages are fetched;
    each was fetched below the cap, each but the last was full, and at the
    [n]-th something ended the loop. *)
Lemma listing_stop_point (pages : list (list Dict)) (u : value) (K : Z) :
  exists n : nat,
    calls (trace (get_user_repos (Fixture.listing pages) u K)) =
      pages_from (repos_request u) 1 n /\
    result (get_user_repos (Fixture.listing pages) u K) =
      Ok (slice_to (concat (firstn n pages)) K) /\
    (n = 0%nat /\ K <= 0 \/
     (0 < n)%nat /\
     (Fixture.page_of pages (Z.of_nat n) = [] \/
      len (Fixture.page_of pages (Z.of_nat n)) < 100 \/
      K <= len (concat (firstn n pages)))) /\
    Forall (fun i => len (concat (firstn (i - 1) pages)) < K) (seq 1 n) /\
    Forall (fun i => 100 <= len (Fixture.page_of pages (Z.of_nat i)))
           (seq 1 (n - 1)).
Proof.
  destruct (get_user_repos_stops (Fixture.listing pages) u K)
    as (ds & Hfull & Hstop & Hrun).
  pose proof (listing_full_pages pages u K ds _ _ Hfull) as Hds.
  pose proof (full_pages_inv _ _ _ _ _ _ Hfull) as Hinv.
  rewrite Forall_forall in Hinv.
  assert (Hcat : forall j, (j <= length ds)%nat ->
                           concat (firstn j ds) = concat (firstn j pages)).
  { intros j Hj. rewrite Hds, firstn_pages_from by exact Hj.
    apply concat_pages_from. }
  assert (Hall : concat ds = concat (firstn (length ds) pages)).
  { rewrite <- Hcat by lia. now rewrite firstn_all. }
  assert (Hbelow : forall j, (j < length ds)%nat ->
                             len (concat (firstn j pages)) < K).
  { intros j Hj. rewrite <- Hcat by lia.
    apply (Hinv j). apply in_seq. lia. }
  assert (Hfullpage : forall j, (j < length ds)%nat ->
                                100 <= len (Fixture.page_of pages (Z.of_nat (S j)))).
  { intros j Hj. rewrite <- (nth_pages_from pages (length ds)) by exact Hj.
    rewrite <- Hds. apply (Hinv j). apply in_seq. lia. }
  destruct (Z.lt_ge_cases (len (concat ds)) K) as [Hlt|Hge].
  - (* one more page is fetched, and it is not a full one *)
    exists (S (length ds)).
    set (P := 1 + len ds) in *.
    set (d := Fixture.page_of pages P).
    assert (Hd : len d < 100).
    { destruct Hstop as [Hcap|Hshort]; [lia|]. apply Hshort. apply listing_page. }
    assert (Hlast : get_user_repos_loop (Fixture.listing pages) 1 u K (concat ds) P =
                    (Ok (concat ds ++ d), [Call (repos_request u P)])).
    { rewrite repos_loop_round by exact Hlt. rewrite listing_page.
      unfold page_ok. cbn [status_code json Z.eqb Pos.eqb]. fold d.
      destruct d as [|x d']; [now rewrite app_nil_r|].
      apply Z.ltb_lt in Hd. now rewrite Hd. }
    rewrite Hlast in Hrun. cbn [fst snd] in Hrun.
    assert (HP : P = 1 + Z.of_nat (length ds)) by reflexivity.
    assert (Hfetched : concat (firstn (S (length ds)) pages) = concat ds ++ d).
    { rewrite <- concat_pages_from, pages_from_snoc, concat_app.
      rewrite concat_pages_from, <- Hall. cbn [concat]. rewrite app_nil_r.
      unfold d. now rewrite HP. }
    assert (Hn : Fixture.page_of pages (Z.of_nat (S (length ds))) = d).
    { unfold d. f_equal. lia. }
    rewrite Hrun. unfold result, trace. cbn [fst snd].
    repeat split.
    + rewrite calls_app, calls_map_Call. cbn [calls].
      rewrite pages_from_snoc. now rewrite HP.
    + now rewrite Hfetched.
    + right. split; [lia|]. rewrite Hn.
      destruct d as [|x d']; [now left | right; now left].
    + apply Forall_forall. intros i Hi. apply in_seq in Hi.
      destruct (Nat.eq_dec (i - 1) (length ds)) as [->|Hne].
      * now rewrite <- Hall.
      * apply Hbelow. lia.
    + apply Forall_forall. intros i Hi. apply in_seq in Hi.
      destruct i as [|j]; [lia|]. apply Hfullpage. lia.
  - (* the cap is reached: no further fetch *)
    exists (length ds).
    rewrite repos_loop_cap in Hrun by exact Hge. cbn [ret fst snd] in Hrun.
    rewrite Hrun. unfold result, trace. cbn [fst snd].
    rewrite app_nil_r, calls_map_Call, <- Hall.
    repeat split.
    + destruct ds as [|d0 ds'].
      * left. split; [reflexivity|]. exact Hge.
      * right. split; [cbn [length]; lia|]. right. right. exact Hge.
    + apply Forall_forall. intros i Hi. apply in_seq in Hi.
      apply Hbelow. lia.
    + apply Forall_forall. intros i Hi. apply in_seq in Hi.
      destruct i as [|j]; [lia|]. apply Hfullpage. lia.
Qed.

(** C2. Listing-mode pagination over any sequence of pages, with cap [K]:
    [n] pages are fetched, in order; the loop ends at the first page that is
    empty, or shorter than 100, or brings the collected count to [K]; the
    result is what was collected, cut to [K] items.  Pages of sizes
    100, 100, 37 give 237 items after three fetches when the cap is larger;
    pages of sizes 100, 100, 100 under cap 150 give exactly 150 items. *)
Theorem get_user_repos_listing_mode (pages : list (list Dict)) (u : value) (K : Z) :
  (exists n : nat,
      calls (trace (get_user_repos (Fixture.listing pages) u K)) =
        pages_from (repos_request u) 1 n /\
      result (get_user_repos (Fixture.listing pages) u K) =
        Ok (slice_to (concat (firstn n pages)) K) /\
      (n = 0%nat /\ K <= 0 \/
       (0 < n)%nat /\
       (Fixture.page_of pages (Z.of_nat n) = [] \/
        len (Fixture.page_of pages (Z.of_nat n)) < 100 \/
        K <= len (concat (firstn n pages)))) /\
      Forall (fun i => len (concat (firstn (i - 1) pages)) < K) (seq 1 n) /\
      Forall (fun i => 100 <= len (Fixture.page_of pages (Z.of_nat i)))
             (seq 1 (n - 1))) /\
  (exists l, result (get_user_repos (Fixture.listing pages) u K) = Ok l /\
             len l <= Z.max 0 K) /\
  (map (@length Dict) pages = [100; 100; 37]%nat -> 237 < K ->
   result (get_user_repos (Fixture.listing pages) u K) = Ok (concat pages) /\
   length (concat pages) = 237%nat /\
   calls (trace (get_user_repos (Fixture.listing pages) u K)) =
     [repos_request u 1; repos_request u 2; repos_request u 3]) /\
  (map (@length Dict) pages = [100; 100; 100]%nat -> K = 150 ->
   exists l, result (get_user_repos (Fixture.listing pages) u K) = Ok l /\
             length l = 150%nat).
Proof.
  pose proof (listing_stop_point pages u K) as Hstop.
  split; [exact Hstop|].
  destruct Hstop as (n & Hcalls & Hres & Hwhy & Hbelow & Hfull).
  rewrite Forall_forall in Hbelow, Hfull.
  split; [|split].
  - eexists. split; [exact Hres|].
    destruct (Z.lt_ge_cases K 0) as [Hneg|Hpos].
    + destruct n as [|n].
      * cbn [firstn concat]. unfold slice_to.
        destruct (0 <=? K); rewrite firstn_nil; unfold len; simpl; lia.
      * exfalso. specialize (Hbelow 1%nat). cbn in Hbelow.
        assert (In 1%nat (seq 1 (S n))) by (apply in_seq; lia).
        specialize (Hbelow H). unfold len in Hbelow. simpl in Hbelow. lia.
    + pose proof (len_slice_to (concat (firstn n pages)) K Hpos). lia.
  - intros Hsizes HK.
    destruct pages as [|p1 [|p2 [|p3 [|p4 rest]]]]; try discriminate Hsizes.
    cbn [map] in Hsizes.
    injection Hsizes as L1 L2 L3.
    assert (P1 : Fixture.page_of [p1; p2; p3] (Z.of_nat 1) = p1) by reflexivity.
    assert (P2 : Fixture.page_of [p1; p2; p3] (Z.of_nat 2) = p2) by reflexivity.
    assert (P3 : Fixture.page_of [p1; p2; p3] (Z.of_nat 3) = p3) by reflexivity.
    assert (Hn : n = 3%nat).
    { destruct n as [|[|[|[|n]]]].
      - destruct Hwhy as [[_ H]|[H _]]; lia.
      - exfalso. destruct Hwhy as [[H _]|[_ H]]; [discriminate|].
        rewrite P1 in H. cbn [firstn concat] in H. unfold len in H.
        rewrite ?length_app, L1 in H.
        destruct H as [H|[H|H]]; [subst p1; discriminate | simpl in H; lia..].
      - exfalso. destruct Hwhy as [[H _]|[_ H]]; [discriminate|].
        rewrite P2 in H. cbn [firstn concat] in H. unfold len in H.
        rewrite ?length_app, L1, L2 in H.
        destruct H as [H|[H|H]]; [subst p2; discriminate | simpl in H; lia..].
      - reflexivity.
      - exfalso. specialize (Hfull 3%nat).
        assert (Hin : In 3%nat (seq 1 (S (S (S (S n))) - 1))) by (apply in_seq; lia).
        specialize (Hfull Hin). rewrite P3 in Hfull. unfold len in Hfull.
        rewrite L3 in Hfull. lia. }
    subst n. cbn [firstn] in Hres.
    assert (Hlen : length (concat [p1; p2; p3]) = 237%nat).
    { cbn [concat]. rewrite !length_app, L1, L2, L3. reflexivity. }
    repeat split.
    + rewrite Hres. f_equal. apply slice_to_all. unfold len. rewrite Hlen. lia.
    + exact Hlen.
    + rewrite Hcalls. reflexivity.
  - intros Hsizes HK. subst K.
    destruct pages as [|p1 [|p2 [|p3 [|p4 rest]]]]; try discriminate Hsizes.
    cbn [map] in Hsizes.
    injection Hsizes as L1 L2 L3.
    assert (P1 : Fixture.page_of [p1; p2; p3] (Z.of_nat 1) = p1) by reflexivity.
    assert (Hn : n = 2%nat).
    { destruct n as [|[|[|n]]].
      - destruct Hwhy as [[_ H]|[H _]]; lia.
      - exfalso. destruct Hwhy as [[H _]|[_ H]]; [discriminate|].
        rewrite P1 in H. cbn [firstn concat] in H. unfold len in H.
        rewrite ?length_app, L1 in H.
        destruct H as [H|[H|H]]; [subst p1; discriminate | simpl in H; lia..].
      - reflexivity.
      - exfalso. specialize (Hbelow 3%nat).
        assert (Hin : In 3%nat (seq 1 (S (S (S n))))) by (apply in_seq; lia).
        specialize (Hbelow Hin). cbn [Nat.sub firstn concat] in Hbelow.
        unfold len in Hbelow.
        rewrite ?length_app, L1, L2 in Hbelow. simpl in Hbelow. lia. }
    subst n. eexists. split; [exact Hres|].
    unfold slice_to. cbn [Z.leb Z.compare firstn concat].
    rewrite length_firstn, !length_app, L1, L2. reflexivity.
Qed.

Lemma get_user_repos_listing_mode_witness :
  result (get_user_repos
            (Fixture.listing (map Fixture.repos_n [100; 100; 37]%nat))
            (VStr "octocat") 500) =
    Ok (concat (map Fixture.repos_n [100; 100; 37]%nat)) /\
  exists l,
    result (get_user_repos
              (Fixture.listing (map Fixture.repos_n [100; 100; 100]%nat))
              (VStr "octocat") 150) = Ok l /\
    length l = 150%nat.
Proof.
  split.
  - apply (get_user_repos_listing_mode
             (map Fixture.repos_n [100; 100; 37]%nat) (VStr "octocat") 500);
      [reflexivity | lia].
  - apply (get_user_repos_listing_mode
             (map Fixture.repos_n [100; 100; 100]%nat) (VStr "octocat") 150);
      reflexivity.
Defined.

(** ** The search loop *)

Section SearchLoop.

Variable srv : Server.
Variable min_followers : Z.

Local Abbreviation loop := (get_berlin_users_loop srv).
Local Abbreviation req := (search_request min_followers).

Lemma search_loop_round fuel users page :
  loop (S fuel) min_followers users page =
  match search_page srv min_followers page with
  | TransportError e => (Raise e, [Call (req page)])
  | Responded resp =>
      if status_code resp =? 200 then
        match json resp with
        | None => (Raise JSONDecodeError, [Call (req page)])
        | Some data =>
            match items data with
            | [] => (Ok users, [Call (req page)])
            | _ :: _ =>
                let m := loop fuel min_followers (users ++ items data) (page + 1) in
                (fst m, Call (req page) :: snd m)
            end
        end
      else (Ok users, [Call (req page);
                       Print (ErrorFetchingUsers (status_code resp))])
  end.
Proof.
  simpl. unfold api_call, search_page, search_request.
  destruct (srv (SearchUsers (search_query min_followers) page 100)) as [resp|e];
    [|reflexivity].
  rewrite bind_ok. destruct resp as [st js]. cbn [status_code json].
  destruct (st =? 200); [|reflexivity].
  cbn [negb]. unfold response_json. cbn [json].
  destruct js as [[[|d data]]|]; try reflexivity.
  cbn [ret bind items fst snd app].
  destruct (get_berlin_users_loop srv fuel min_followers _ _); reflexivity.
Qed.

Lemma search_loop_run ds : forall fuel users page,
  found_pages srv min_followers page ds ->
  (length ds <= fuel)%nat ->
  loop fuel min_followers users page =
  (fst (loop (fuel - length ds) min_followers (users ++ concat ds) (page + len ds)),
   map Call (pages_from req page (length ds)) ++
   snd (loop (fuel - length ds) min_followers (users ++ concat ds) (page + len ds))).
Proof.
  induction ds as [|d ds IH]; intros fuel users page Hfound Hfuel.
  - cbn [length concat pages_from map seq app].
    rewrite Nat.sub_0_r, app_nil_r. change (len (@nil (list Dict))) with 0.
    rewrite Z.add_0_r. destruct (loop _ _ _ _); reflexivity.
  - destruct Hfound as (Hpage & Hne & Hrest).
    destruct fuel as [|fuel]; [simpl in Hfuel; lia|].
    rewrite search_loop_round, Hpage. unfold page_ok.
    cbn [status_code json items Z.eqb Pos.eqb].
    destruct d as [|x d]; [congruence|].
    cbv zeta. rewrite (IH fuel (users ++ x :: d) (page + 1) Hrest)
      by (simpl in Hfuel; lia).
    cbn [fst snd length concat Nat.sub]. rewrite pages_from_S.
    rewrite <- app_assoc.
    replace (page + len ((x :: d) :: ds)) with (page + 1 + len ds)
      by (unfold len; cbn [length]; lia).
    reflexivity.
Qed.

(** The calls of the loop are search requests for consecutive pages, all
    with the same query and page size. *)
Lemma search_loop_calls fuel : forall users page,
  exists n,
    calls (trace (loop fuel min_followers users page)) = pages_from req page n /\
    (fuel = 0%nat \/ (0 < n)%nat).
Proof.
  induction fuel as [|fuel IH]; intros users page.
  - exists 0%nat. split; [reflexivity | now left].
  - rewrite search_loop_round.
    destruct (search_page srv min_followers page) as [[st js]|e].
    + cbn [status_code json]. destruct (st =? 200).
      * destruct js as [[[|d data]]|]; cbn [items].
        -- exists 1%nat. split; [|right; lia]. unfold pages_from. simpl.
           now rewrite Z.add_0_r.
        -- destruct (IH (users ++ d :: data) (page + 1)) as (n & Hn & _).
           exists (S n). split; [|right; lia].
           cbv zeta. unfold trace in *. cbn [snd calls].
           rewrite Hn, pages_from_S. reflexivity.
        -- exists 1%nat. split; [|right; lia]. unfold pages_from. simpl.
           now rewrite Z.add_0_r.
      * exists 1%nat. split; [|right; lia]. unfold pages_from. simpl.
        now rewrite Z.add_0_r.
    + exists 1%nat. split; [|right; lia]. unfold pages_from. simpl.
      now rewrite Z.add_0_r.
Qed.

(** A status other than 200 on the page after [ds] ends the search with
    what was found so far. *)
Lemma search_status_failure ds fuel resp :
  found_pages srv min_followers 1 ds ->
  search_page srv min_followers (1 + len ds) = Responded resp ->
  status_code resp <> 200 ->
  (length ds < fuel)%nat ->
  get_berlin_users srv fuel min_followers =
  (Ok (concat ds),
   map Call (pages_from req 1 (S (length ds))) ++
   [Print (ErrorFetchingUsers (status_code resp))]).
Proof.
  intros Hfound Hpage Hst Hfuel. unfold get_berlin_users.
  rewrite (search_loop_run ds) by (auto; lia).
  destruct (fuel - length ds)%nat as [|f] eqn:Ef; [lia|].
  rewrite search_loop_round, Hpage.
  apply Z.eqb_neq in Hst. rewrite Hst. cbn [fst snd app].
  rewrite pages_from_snoc, map_app, <- app_assoc. reflexivity.
Qed.

End SearchLoop.

(** A status other than 200 on the page after the full pages [ds], fetched
    below the cap, ends the listing with what was collected so far. *)
Lemma repos_status_failure (srv : Server) (u : value) (max_repos : Z) ds resp :
  full_pages srv u max_repos [] 1 ds ->
  len (concat ds) < max_repos ->
  repos_page srv u (1 + len ds) = Responded resp ->
  status_code resp <> 200 ->
  get_user_repos srv u max_repos =
  (Ok (concat ds),
   map Call (pages_from (repos_request u) 1 (S (length ds))) ++
   [Print (ErrorFetchingRepos u (status_code resp))]).
Proof.
  intros Hfull Hlt Hpage Hst.
  assert (Hfuel : (length ds < Z.to_nat max_repos)%nat).
  { pose proof (full_pages_inv _ _ _ _ _ _ Hfull) as Hinv.
    assert (Hsum : forall (l : list (list Dict)),
               Forall (fun d => 100 <= len d) l -> len l <= len (concat l)).
    { induction l as [|d l IHl]; intros Hl; [unfold len; simpl; lia|].
      inversion Hl; subst. cbn [concat]. rewrite len_app.
      specialize (IHl H2). unfold len in *. cbn [length]. lia. }
    assert (Hall : Forall (fun d => 100 <= len d) ds).
    { apply Forall_forall. intros d Hd.
      destruct (In_nth _ _ [] Hd) as (j & Hj & <-).
      rewrite Forall_forall in Hinv. apply (Hinv j). apply in_seq. lia. }
    specialize (Hsum ds Hall). unfold len in *. lia. }
  unfold get_user_repos.
  rewrite (repos_loop_run srv u max_repos ds) by (auto; lia).
  cbn [app].
  destruct (Z.to_nat max_repos - length ds)%nat as [|f] eqn:Ef; [lia|].
  rewrite repos_loop_round by exact Hlt. rewrite Hpage.
  apply Z.eqb_neq in Hst. rewrite Hst. cbn [fst snd bind ret app].
  rewrite slice_to_all by lia.
  rewrite pages_from_snoc, map_app, <- !app_assoc, app_nil_r. reflexivity.
Qed.

(** C8 (as stated, refuted). The query is not of the shape
    [location:<city> followers:><threshold>] for every city and threshold:
    the source fixes the city and uses the operator [>=]. *)
Lemma search_query_not_strictly_above :
  ~ (forall (city : string) (threshold : Z),
        search_query threshold = SearchSpec.query city threshold).
Proof.
  intros H. specialize (H "Berlin" 200). vm_compute in H. discriminate H.
Qed.

(** C8 (amended). For every threshold the query is
    [location:Berlin followers:>=<threshold>]: the location filter is fixed
    to Berlin and the follower filter selects users at or above the
    threshold.  Every call the search makes carries that query, asks for
    consecutive pages from 1, and asks for 100 items per page, the most
    the remote service allows. *)
Theorem search_query_shape (srv : Server) (fuel : nat) (min_followers : Z) :
  search_query min_followers =
    ("location:Berlin followers:>=" ++ PyStr.of_int min_followers)%string /\
  exists n,
    calls (trace (get_berlin_users srv (S fuel) min_followers)) =
    map (fun i => SearchUsers
                    ("location:Berlin followers:>=" ++ PyStr.of_int min_followers)%string
                    (1 + Z.of_nat i) SearchSpec.per_page_maximum)
        (seq 0 (S n)).
Proof.
  split; [reflexivity|].
  destruct (search_loop_calls srv min_followers (S fuel) [] 1) as (n & Hn & Hpos).
  destruct n as [|n]; [destruct Hpos; [discriminate | lia]|].
  exists n. exact Hn.
Qed.

(** C7 (as stated, refuted). When the second search page comes back with
    status 500, the caller receives the same value as from a service whose
    second page is simply empty, so the failure is not surfaced to it; and
    when the connection drops on the second page, the exception takes the
    items of the first page with it. *)
Lemma page_failure_not_surfaced :
  search_page Fixture.search_fails_on_page_2 200 2 = Fixture.status 500 /\
  search_page Fixture.search_ends_on_page_2 200 2 = page_ok (mkSearchResult []) /\
  result (get_berlin_users Fixture.search_fails_on_page_2 3 200) =
  result (get_berlin_users Fixture.search_ends_on_page_2 3 200) /\
  result (get_berlin_users Fixture.search_fails_on_page_2 3 200) =
    Ok [Fixture.stub "a"] /\
  search_page Fixture.search_drops_on_page_2 200 2 = TransportError ConnectionError /\
  result (get_berlin_users Fixture.search_drops_on_page_2 3 200) =
    Raise ConnectionError.
Proof. repeat split; reflexivity. Qed.

(** C7 (amended). When pages 1 to k-1 of a search were fetched and page k
    comes back with a status other than 200, the search makes no further
    call, prints the error, and returns exactly the items of pages 1 to
    k-1; and the same holds, on its own, of a listing below its cap.  The
    returned list is all the caller gets. *)
Theorem page_status_failure_partial_result (srv : Server) :
  (forall (min_followers : Z) (fuel : nat) (found : list (list Dict))
          (search_resp : Response SearchResult),
      found_pages srv min_followers 1 found ->
      search_page srv min_followers (1 + len found) = Responded search_resp ->
      status_code search_resp <> 200 ->
      (length found < fuel)%nat ->
      get_berlin_users srv fuel min_followers =
        (Ok (concat found),
         map Call (pages_from (search_request min_followers) 1 (S (length found))) ++
         [Print (ErrorFetchingUsers (status_code search_resp))])) /\
  (forall (u : value) (max_repos : Z) (listed : list (list Dict))
          (repos_resp : Response (list Dict)),
      full_pages srv u max_repos [] 1 listed ->
      len (concat listed) < max_repos ->
      repos_page srv u (1 + len listed) = Responded repos_resp ->
      status_code repos_resp <> 200 ->
      get_user_repos srv u max_repos =
        (Ok (concat listed),
         map Call (pages_from (repos_request u) 1 (S (length listed))) ++
         [Print (ErrorFetchingRepos u (status_code repos_resp))])).
Proof.
  split.
  - intros min_followers fuel found search_resp Hfound Hsearch Hs Hfuel.
    now apply search_status_failure.
  - intros u max_repos listed repos_resp Hfull Hlt Hrepos Hr.
    now apply repos_status_failure.
Qed.

Lemma page_status_failure_partial_result_witness :
  get_berlin_users Fixture.search_fails_on_page_2 2 200 =
    (Ok [Fixture.stub "a"],
     [Call (search_request 200 1); Call (search_request 200 2);
      Print (ErrorFetchingUsers 500)]) /\
  get_user_repos Fixture.flaky (VStr "a") 500 =
    (Ok (Fixture.repos_n 100),
     [Call (repos_request (VStr "a") 1); Call (repos_request (VStr "a") 2);
      Print (ErrorFetchingRepos (VStr "a") 503)]).
Proof.
  split.
  - pose proof (proj1 (page_status_failure_partial_result
                         Fixture.search_fails_on_page_2)
                  200 2%nat [[Fixture.stub "a"]] (mkResponse 500 None)) as H.
    cbn [concat app length] in H. apply H.
    + simpl. repeat split. discriminate.
    + reflexivity.
    + simpl. lia.
    + lia.
  - pose proof (proj2 (page_status_failure_partial_result Fixture.flaky)
                  (VStr "a") 500 [Fixture.repos_n 100] (mkResponse 503 None)) as H.
    cbn [concat app length] in H. rewrite app_nil_r in H. apply H.
    + simpl. repeat split; vm_compute; congruence.
    + vm_compute. reflexivity.
    + reflexivity.
    + simpl. lia.
Defined.

(** ** Exceptions raised while fetching a page *)

Lemma search_round_exception (srv : Server) (min_followers : Z) (fuel : nat)
    (users : list Dict) (page : Z) (e : exn) :
  fetch_exception (search_page srv min_followers page) = Some e ->
  get_berlin_users_loop srv (S fuel) min_followers users page =
    (Raise e, [Call (search_request min_followers page)]).
Proof.
  intros H. rewrite search_loop_round. unfold fetch_exception in H.
  destruct (search_page srv min_followers page) as [[st js]|e'];
    [|now inversion H].
  cbn [status_code json] in *. destruct (st =? 200); [|discriminate].
  destruct js; [discriminate | now inversion H].
Qed.

Lemma repos_round_exception (srv : Server) (u : value) (max_repos : Z) (fuel : nat)
    (repos : list Dict) (page : Z) (e : exn) :
  len repos < max_repos ->
  fetch_exception (repos_page srv u page) = Some e ->
  get_user_repos_loop srv (S fuel) u max_repos repos page =
    (Raise e, [Call (repos_request u page)]).
Proof.
  intros Hlt H. rewrite repos_loop_round by exact Hlt. unfold fetch_exception in H.
  destruct (repos_page srv u page) as [[st js]|e']; [|now inversion H].
  cbn [status_code json] in *. destruct (st =? 200); [|discriminate].
  destruct js; [discriminate | now inversion H].
Qed.

Lemma full_pages_length (srv : Server) (u : value) (max_repos : Z)
    (ds : list (list Dict)) :
  full_pages srv u max_repos [] 1 ds ->
  100 * len ds <= len (concat ds).
Proof.
  intros Hfull.
  pose proof (full_pages_inv _ _ _ _ _ _ Hfull) as Hinv.
  assert (Hall : Forall (fun d => 100 <= len d) ds).
  { apply Forall_forall. intros d Hd.
    destruct (In_nth _ _ [] Hd) as (j & Hj & <-).
    rewrite Forall_forall in Hinv. apply (Hinv j). apply in_seq. lia. }
  clear Hinv Hfull. induction Hall as [|d l Hd Hl IH]; [unfold len; simpl; lia|].
  cbn [concat]. rewrite len_app. unfold len in *. cbn [length]. lia.
Qed.

Lemma repos_exception (srv : Server) (u : value) (max_repos : Z)
    (ds : list (list Dict)) (e : exn) :
  full_pages srv u max_repos [] 1 ds ->
  len (concat ds) < max_repos ->
  fetch_exception (repos_page srv u (1 + len ds)) = Some e ->
  get_user_repos srv u max_repos =
    (Raise e, map Call (pages_from (repos_request u) 1 (S (length ds)))).
Proof.
  intros Hfull Hlt He.
  pose proof (full_pages_length _ _ _ _ Hfull) as Hlen.
  assert (Hfuel : (length ds < Z.to_nat max_repos)%nat) by (unfold len in *; lia).
  unfold get_user_repos.
  rewrite (repos_loop_run srv u max_repos ds) by (auto; lia).
  cbn [app].
  destruct (Z.to_nat max_repos - length ds)%nat as [|f] eqn:Ef; [lia|].
  rewrite (repos_round_exception _ _ _ _ _ _ e Hlt He).
  cbn [fst snd bind]. rewrite pages_from_snoc, map_app. reflexivity.
Qed.

(** ** One user *)

Section ProcessUser.

Variable srv : Server.

Lemma get_user_details_status (u : value) (resp : Response Dict) :
  user_detail srv u = Responded resp ->
  status_code resp <> 200 ->
  get_user_details srv u =
  (Ok None, [Call (GetUser u);
             Print (ErrorFetchingUserDetails u (status_code resp))]).
Proof.
  intros Hd Hst. unfold get_user_details, api_call.
  unfold user_detail in Hd. rewrite Hd, bind_ok.
  destruct resp as [st js]. cbn [status_code] in *.
  apply Z.eqb_neq in Hst. rewrite Hst. reflexivity.
Qed.

Lemma get_user_details_ok (u : value) (d : Dict) :
  user_detail srv u = page_ok d ->
  get_user_details srv u = (Ok (Some d), [Call (GetUser u)]).
Proof.
  intros Hd. unfold get_user_details, api_call.
  unfold user_detail in Hd. rewrite Hd. reflexivity.
Qed.

(** [get_user_details] hands back a profile only when the service
    answered 200 with it. *)
Lemma get_user_details_some (u : value) (d : Dict) :
  result (get_user_details srv u) = Ok (Some d) ->
  user_detail srv u = page_ok d.
Proof.
  unfold get_user_details, api_call, user_detail, page_ok.
  destruct (srv (GetUser u)) as [[st js]|e]; [|discriminate].
  rewrite bind_ok. cbn [status_code fst].
  destruct (st =? 200) eqn:E; [|discriminate].
  apply Z.eqb_eq in E. subst st.
  cbn [negb]. unfold response_json. cbn [json].
  destruct js as [d'|]; [|discriminate].
  cbn. intros H. now inversion H.
Qed.

End ProcessUser.

(** C5. When the detail fetch of a user comes back with a status other
    than 200, [process_user] returns neither a profile nor repositories,
    and the only call it made is the detail fetch: no repository page is
    requested. *)
Theorem process_user_detail_failure
    (srv : Server) (user : Dict) (login : value) (resp : Response Dict) :
  dict_get "login" user = Some login ->
  user_detail srv login = Responded resp ->
  status_code resp <> 200 ->
  result (process_user srv user) = Ok (None, None) /\
  calls (trace (process_user srv user)) = [GetUser login] /\
  trace (process_user srv user) =
    [Call (GetUser login);
     Print (ErrorFetchingUserDetails login (status_code resp))].
Proof.
  intros Hlogin Hdetail Hst.
  assert (H : process_user srv user =
              (Ok (None, None),
               [Call (GetUser login);
                Print (ErrorFetchingUserDetails login (status_code resp))])).
  { unfold process_user, dict_getitem. rewrite Hlogin. cbn [ret bind].
    rewrite (get_user_details_status srv login resp Hdetail Hst).
    reflexivity. }
  rewrite H. repeat split.
Qed.

Lemma process_user_detail_failure_witness :
  result (process_user Fixture.nobody (Fixture.stub "ghost")) = Ok (None, None) /\
  calls (trace (process_user Fixture.nobody (Fixture.stub "ghost"))) =
    [GetUser (VStr "ghost")].
Proof.
  destruct (process_user_detail_failure Fixture.nobody (Fixture.stub "ghost")
              (VStr "ghost") (mkResponse 404 None)) as (H1 & H2 & _).
  - reflexivity.
  - reflexivity.
  - simpl. lia.
  - split; [exact H1 | exact H2].
Defined.

(** C6 (as stated, refuted). A repository fetch that fails by raising is
    propagated: with the details served and the connection dropping on
    the first repository page, so that no repository item is collected,
    [process_user] raises and returns no profile; handling that future
    collects nothing for the user. *)
Lemma repos_failure_propagates :
  user_detail Fixture.repos_unreachable (VStr "a") = page_ok (Fixture.profile "a") /\
  repos_page Fixture.repos_unreachable (VStr "a") 1 =
    TransportError ConnectionError /\
  result (process_user Fixture.repos_unreachable (Fixture.stub "a")) =
    Raise ConnectionError /\
  result (process_user Fixture.repos_unreachable (Fixture.stub "a")) <>
    Ok (Some (Fixture.profile "a"), Some pd.empty_frame) /\
  result (handle_future 1 (O, mkCollected [] [])
            (submit Fixture.repos_unreachable (Fixture.stub "a"))) =
    Ok (1%nat, mkCollected [] []).
Proof.
  split; [reflexivity|]. split; [reflexivity|]. split; [reflexivity|].
  split; [|reflexivity].
  intros H. vm_compute in H. discriminate H.
Qed.

(** C6 (amended). When the detail fetch of a user succeeds with a
    non-empty record, what a failing first repository page does depends
    on how it fails.  If it comes back with a status other than 200,
    [process_user] still returns the profile, together with an empty
    table of repositories.  If fetching it raises (the transport fails,
    or a 200 body does not decode), [process_user] raises that exception
    after the two calls, and handling the future prints the error and
    collects neither profile nor repositories. *)
Theorem process_user_repos_failure
    (srv : Server) (user : Dict) (login : value) (details : Dict) :
  dict_get "login" user = Some login ->
  user_detail srv login = page_ok details ->
  details <> [] ->
  (forall resp : Response (list Dict),
      repos_page srv login 1 = Responded resp ->
      status_code resp <> 200 ->
      result (process_user srv user) = Ok (Some details, Some pd.empty_frame) /\
      rows pd.empty_frame = [] /\
      pd.empty pd.empty_frame = true /\
      trace (process_user srv user) =
        [Call (GetUser login); Call (repos_request login 1);
         Print (ErrorFetchingRepos login (status_code resp))]) /\
  (forall e : exn,
      fetch_exception (repos_page srv login 1) = Some e ->
      process_user srv user =
        (Raise e, [Call (GetUser login); Call (repos_request login 1)]) /\
      forall (total : nat) (st : nat * Collected),
        handle_future total st (submit srv user) =
          (Ok (S (fst st), snd st),
           [Print (Processing (S (fst st)) total login);
            Print (ErrorProcessing login e)])).
Proof.
  intros Hlogin Hdetail Hne. split.
  - intros resp Hrepos Hst.
    assert (Hr : get_user_repos srv login 500 =
                 (Ok [], [Call (repos_request login 1);
                          Print (ErrorFetchingRepos login (status_code resp))])).
    { apply (repos_status_failure srv login 500 [] resp); auto.
      - exact I.
      - unfold len. simpl. lia. }
    assert (H : process_user srv user =
                (Ok (Some details, Some pd.empty_frame),
                 [Call (GetUser login); Call (repos_request login 1);
                  Print (ErrorFetchingRepos login (status_code resp))])).
    { unfold process_user, dict_getitem. rewrite Hlogin. cbn [ret bind].
      rewrite (get_user_details_ok srv login details Hdetail).
      destruct details as [|kv details]; [congruence|].
      rewrite Hr. reflexivity. }
    rewrite H. repeat split.
  - intros e He.
    assert (Hr : get_user_repos srv login 500 =
                 (Raise e, [Call (repos_request login 1)])).
    { apply (repos_exception srv login 500 [] e).
      - exact I.
      - unfold len. simpl. lia.
      - exact He. }
    assert (H : process_user srv user =
                (Raise e, [Call (GetUser login); Call (repos_request login 1)])).
    { unfold process_user, dict_getitem. rewrite Hlogin. cbn [ret bind].
      rewrite (get_user_details_ok srv login details Hdetail).
      destruct details as [|kv details]; [congruence|].
      rewrite Hr. reflexivity. }
    split; [exact H|].
    intros total [completed [ud ar]]. unfold handle_future, dict_getitem.
    cbn [submit fut_user fut_run fst snd]. rewrite Hlogin, H. reflexivity.
Qed.

Lemma process_user_repos_failure_witness :
  result (process_user Fixture.no_repos (Fixture.stub "a")) =
    Ok (Some (Fixture.profile "a"), Some pd.empty_frame) /\
  process_user Fixture.repos_unreachable (Fixture.stub "a") =
    (Raise ConnectionError,
     [Call (GetUser (VStr "a")); Call (repos_request (VStr "a") 1)]).
Proof.
  split.
  - destruct (process_user_repos_failure Fixture.no_repos (Fixture.stub "a")
                (VStr "a") (Fixture.profile "a")) as (H & _).
    + reflexivity.
    + reflexivity.
    + discriminate.
    + destruct (H (mkResponse 500 None)) as (H1 & _).
      * reflexivity.
      * simpl. lia.
      * exact H1.
  - destruct (process_user_repos_failure Fixture.repos_unreachable
                (Fixture.stub "a") (VStr "a") (Fixture.profile "a")) as (_ & H).
    + reflexivity.
    + reflexivity.
    + discriminate.
    + destruct (H ConnectionError) as (H1 & _).
      * reflexivity.
      * exact H1.
Defined.

(** ** Every worker comes back *)

Lemma apply_license_key (series : list value) :
  exists l, pd.apply license_key series = Ok l /\ length l = length series.
Proof.
  induction series as [|v series (l & IH & Hl)]; [exists []; split; reflexivity|].
  assert (Hv : exists k, license_key v = Ok k).
  { unfold license_key. destruct v; eauto. destruct (dict_get "key" d); eauto. }
  destruct Hv as (k & Hk). exists (k :: l).
  cbn [pd.apply]. rewrite Hk, IH. split; [reflexivity | simpl; now rewrite Hl].
Qed.

Lemma create_repos_dataframe_returns (repos : list Dict) (u : value) :
  result (create_repos_dataframe repos u) <> OutOfFuel.
Proof.
  unfold create_repos_dataframe. destruct repos as [|r repos]; [discriminate|].
  cbv zeta. rewrite result_lift_bind.
  unfold pd.getitem.
  destruct (pd.has_column "license" _); [|discriminate].
  cbv beta iota. rewrite result_lift_bind.
  destruct (apply_license_key
              (map (fun r0 => pd.cell
                      (columns (pd.setitem_scalar (pd.DataFrame_of (r :: repos)) "login" u))
                      r0 "license")
                   (rows (pd.setitem_scalar (pd.DataFrame_of (r :: repos)) "login" u))))
    as (l & Hl & _).
  rewrite Hl. unfold result, pd.select. cbn [fst].
  destruct (filter _ repo_columns); discriminate.
Qed.

(** The result of [process_user], case by case. *)
Lemma process_user_result (srv : Server) (user : Dict) :
  result (process_user srv user) =
  match dict_get "login" user with
  | None => Raise (KeyError "login")
  | Some u =>
      match result (get_user_details srv u) with
      | Ok (Some ((_ :: _) as d)) =>
          match result (get_user_repos srv u 500) with
          | Ok ((_ :: _) as repos) =>
              match result (create_repos_dataframe repos u) with
              | Ok df => Ok (Some d, Some df)
              | Raise e => Raise e
              | OutOfFuel => OutOfFuel
              end
          | Ok [] => Ok (Some d, Some pd.empty_frame)
          | Raise e => Raise e
          | OutOfFuel => OutOfFuel
          end
      | Ok _ => Ok (None, None)
      | Raise e => Raise e
      | OutOfFuel => OutOfFuel
      end
  end.
Proof.
  unfold process_user, dict_getitem.
  destruct (dict_get "login" user) as [u|]; [|reflexivity].
  rewrite result_bind. change (result (ret u)) with (Ok u). cbv beta iota.
  rewrite result_bind.
  destruct (result (get_user_details srv u)) as [[[|kv d]|]|e|]; try reflexivity.
  cbv beta iota. rewrite result_bind.
  destruct (result (get_user_repos srv u 500)) as [[|r repos]|e|]; try reflexivity.
  cbv beta iota. rewrite result_bind.
  destruct (result (create_repos_dataframe (r :: repos) u)); reflexivity.
Qed.

Lemma get_user_details_returns (srv : Server) (u : value) :
  result (get_user_details srv u) <> OutOfFuel.
Proof.
  unfold get_user_details, api_call.
  destruct (srv (GetUser u)) as [[st js]|e]; [|discriminate].
  rewrite bind_ok. cbn [status_code fst result].
  destruct (st =? 200); [|discriminate].
  cbn [negb]. unfold response_json. cbn [json].
  destruct js; discriminate.
Qed.

Lemma process_user_returns (srv : Server) (user : Dict) :
  result (process_user srv user) <> OutOfFuel.
Proof.
  rewrite process_user_result.
  destruct (dict_get "login" user) as [u|]; [|discriminate].
  pose proof (get_user_details_returns srv u) as Hd.
  destruct (result (get_user_details srv u)) as [[[|kv d]|]|e|];
    try discriminate; [|congruence].
  pose proof (get_user_repos_returns srv u 500) as Hr.
  destruct (result (get_user_repos srv u 500)) as [[|r repos]|e|];
    try discriminate; [|congruence].
  pose proof (create_repos_dataframe_returns (r :: repos) u) as Hc.
  destruct (result (create_repos_dataframe (r :: repos) u));
    try discriminate; congruence.
Qed.

(** ** Handling the futures *)

Lemma progress_app (t1 t2 : list event) :
  progress (t1 ++ t2) = progress t1 ++ progress t2.
Proof.
  induction t1 as [|[r|[]|df p] t1 IH]; simpl; rewrite ?IH; reflexivity.
Qed.

Lemma handle_future_spec (total : nat) (st : nat * Collected) (future : Future)
    (login : value) :
  dict_get "login" (fut_user future) = Some login ->
  result (fut_run future) <> OutOfFuel ->
  result (handle_future total st future) =
    Ok (S (fst st),
        mkCollected
          (users_data (snd st) ++ profile_of (result (fut_run future)))
          (all_repos_data (snd st) ++ frames_of (result (fut_run future)))) /\
  progress (trace (handle_future total st future)) = [login] /\
  writes (trace (handle_future total st future)) = [].
Proof.
  intros Hlogin Hret. unfold handle_future, dict_getitem.
  rewrite Hlogin. destruct st as [completed [ud ar]]. cbn [fst snd users_data all_repos_data].
  destruct (result (fut_run future)) as [[[[|kv d]|] [df|]]|e|];
    try congruence; cbn [profile_of frames_of];
    rewrite ?app_nil_r; try (repeat split; reflexivity).
  all: destruct (negb (pd.empty df)); rewrite ?app_nil_r; repeat split; reflexivity.
Qed.

Lemma handle_future_quiet (total : nat) (st : nat * Collected) (future : Future) :
  writes (trace (handle_future total st future)) = [].
Proof.
  unfold handle_future, dict_getitem.
  destruct (dict_get "login" (fut_user future)); [|reflexivity].
  destruct (result (fut_run future)) as [[[[|kv d]|] [df|]]|e|]; reflexivity.
Qed.

Lemma for_each_future_quiet (total : nat) (futures : list Future) :
  forall st, writes (trace (for_each_future total st futures)) = [].
Proof.
  induction futures as [|f futures IH]; intros st; [reflexivity|].
  cbn [for_each_future]. rewrite trace_bind.
  destruct (result (handle_future total st f));
    rewrite ?writes_app, ?handle_future_quiet, ?IH; reflexivity.
Qed.

Lemma for_each_future_spec (total : nat) (futures : list Future) : forall st,
  Forall (fun f => dict_get "login" (fut_user f) <> None /\
                   result (fut_run f) <> OutOfFuel) futures ->
  result (for_each_future total st futures) =
    Ok ((fst st + length futures)%nat,
        mkCollected
          (users_data (snd st) ++
           flat_map (fun f => profile_of (result (fut_run f))) futures)
          (all_repos_data (snd st) ++
           flat_map (fun f => frames_of (result (fut_run f))) futures)) /\
  progress (trace (for_each_future total st futures)) =
    flat_map (fun f => match dict_get "login" (fut_user f) with
                       | Some login => [login]
                       | None => []
                       end) futures.
Proof.
  induction futures as [|f futures IH]; intros st Hall.
  - cbn. rewrite Nat.add_0_r, !app_nil_r. destruct st as [c [ud ar]]. split; reflexivity.
  - inversion Hall as [|f' fs' [Hlogin Hret] Hrest]; subst.
    destruct (dict_get "login" (fut_user f)) as [login|] eqn:El; [|congruence].
    destruct (handle_future_spec total st f login El Hret) as (Hres & Hprog & _).
    cbn [for_each_future]. rewrite result_bind, trace_bind, Hres.
    destruct (IH (S (fst st),
                  mkCollected
                    (users_data (snd st) ++ profile_of (result (fut_run f)))
                    (all_repos_data (snd st) ++ frames_of (result (fut_run f))))
                 Hrest) as (IHres & IHprog).
    rewrite IHres, progress_app, Hprog, IHprog.
    cbn [fst snd users_data all_repos_data length flat_map].
    rewrite El, <- !app_assoc, Nat.add_succ_r. split; reflexivity.
Qed.

(** ** The run as a whole *)

Lemma search_loop_quiet (srv : Server) (min_followers : Z) (fuel : nat) :
  forall users page,
    writes (trace (get_berlin_users_loop srv fuel min_followers users page)) = [].
Proof.
  induction fuel as [|fuel IH]; intros users page; [reflexivity|].
  rewrite search_loop_round.
  destruct (search_page srv min_followers page) as [[st js]|e]; [|reflexivity].
  cbn [status_code json]. destruct (st =? 200); [|reflexivity].
  destruct js as [[[|d data]]|]; try reflexivity.
  cbn [items]. cbv zeta. unfold trace. cbn [snd writes]. apply IH.
Qed.

Lemma create_users_dataframe_trace (users : list Dict) :
  trace (create_users_dataframe users) = [].
Proof.
  unfold create_users_dataframe. cbv zeta. unfold lift.
  destruct (pd.getitem (pd.DataFrame_of users) "company") as [company|e|];
    try reflexivity.
  rewrite bind_ok. cbn [app].
  destruct (pd.apply clean_company_name company) as [cleaned|e|];
    reflexivity.
Qed.

Lemma try_except_print (m : M unit) :
  writes (trace (try_except m (fun e => print (Error e)))) = writes (trace m) /\
  (forall e, result (try_except m (fun e => print (Error e))) <> Raise e).
Proof.
  destruct m as [[[]|e|] t]; cbn; split; try reflexivity; try discriminate.
  rewrite writes_app. cbn. now rewrite app_nil_r.
Qed.

(** [main] never lets an exception out. *)
Lemma main_never_raises (srv : Server) (sched : Schedule) (fuel : nat) (e : exn) :
  result (main srv sched fuel) <> Raise e.
Proof. unfold main. apply try_except_print. Qed.

(** What [main] writes: both tables once the search, the batch and the
    users table went through; nothing otherwise. *)
Lemma main_writes (srv : Server) (sched : Schedule) (fuel : nat) :
  writes (trace (main srv sched fuel)) =
  match result (get_berlin_users srv fuel 200) with
  | Ok berlin_users =>
      match result (process_all srv sched berlin_users) with
      | Ok st =>
          match result (create_users_dataframe (users_data (snd st))) with
          | Ok users_df =>
              [(users_df, "users.csv");
               (repos_frame (all_repos_data (snd st)), "repositories.csv")]
          | _ => []
          end
      | _ => []
      end
  | _ => []
  end.
Proof.
  unfold main. rewrite (proj1 (try_except_print _)).
  rewrite trace_bind. change (result (print FetchingBerlinUsers)) with (Ok tt).
  cbv beta iota. rewrite writes_app. cbn [trace print snd writes app].
  rewrite trace_bind.
  assert (Hq : writes (trace (get_berlin_users srv fuel 200)) = [])
    by apply search_loop_quiet.
  destruct (result (get_berlin_users srv fuel 200)) as [berlin_users|e|];
    rewrite ?writes_app, Hq; try reflexivity.
  cbn [app].
  rewrite trace_bind. change (result (print (FoundUsers (length berlin_users)))) with (Ok tt).
  cbv beta iota. rewrite writes_app. cbn [trace print snd writes app].
  rewrite trace_bind.
  assert (Hp : writes (trace (process_all srv sched berlin_users)) = [])
    by apply for_each_future_quiet.
  destruct (result (process_all srv sched berlin_users)) as [st|e|];
    rewrite ?writes_app, Hp; try reflexivity.
  cbn [app].
  rewrite trace_bind. change (result (print CreatingFinalDatasets)) with (Ok tt).
  cbv beta iota. rewrite writes_app. cbn [trace print snd writes app].
  rewrite trace_bind, create_users_dataframe_trace.
  destruct (result (create_users_dataframe (users_data (snd st)))) as [users_df|e|];
    reflexivity.
Qed.

(** ** The batch *)

Lemma process_all_spec (srv : Server) (sched : Schedule) (stubs : list Dict) :
  fair sched ->
  Forall (fun stub => dict_get "login" stub <> None) stubs ->
  let order := sched (map (submit srv) stubs) in
  Permutation (map (submit srv) stubs) order /\
  result (process_all srv sched stubs) =
    Ok (length stubs,
        mkCollected
          (flat_map (fun f => profile_of (result (fut_run f))) order)
          (flat_map (fun f => frames_of (result (fut_run f))) order)) /\
  progress (trace (process_all srv sched stubs)) =
    flat_map (fun f => stub_login (fut_user f)) order.
Proof.
  intros Hfair Hlogin order.
  assert (Hperm : Permutation (map (submit srv) stubs) order) by apply Hfair.
  split; [exact Hperm|].
  assert (Hall : Forall (fun f => dict_get "login" (fut_user f) <> None /\
                                  result (fut_run f) <> OutOfFuel) order).
  { eapply Permutation_Forall; [exact Hperm|].
    apply Forall_map. eapply Forall_impl; [|exact Hlogin].
    intros stub H. split; [exact H | apply process_user_returns]. }
  destruct (for_each_future_spec (length stubs) order (O, mkCollected [] []) Hall)
    as (Hres & Hprog).
  unfold process_all. fold order. rewrite Hres, Hprog.
  cbn [fst snd users_data all_repos_data app Nat.add].
  rewrite <- (Permutation_length Hperm), length_map. split; reflexivity.
Qed.

Lemma length_profile_of (srv : Server) (stub : Dict) :
  length (profile_of (result (process_user srv stub))) =
  if succeeds srv stub then 1%nat else 0%nat.
Proof.
  unfold succeeds.
  destruct (result (process_user srv stub)) as [[[[|kv d]|] df]|e|]; reflexivity.
Qed.

Lemma length_flat_map_filter {A B} (f : A -> list B) (g : A -> bool) (l : list A) :
  (forall x, length (f x) = if g x then 1%nat else 0%nat) ->
  length (flat_map f l) = length (filter g l).
Proof.
  intros H. induction l as [|x l IH]; [reflexivity|].
  cbn [flat_map filter]. rewrite length_app, H, IH.
  destruct (g x); reflexivity.
Qed.

Lemma filter_split_length {A} (g h : A -> bool) (l : list A) :
  forallb (fun x => g x || h x) l = true ->
  (forall x, g x = true -> h x = false) ->
  (length (filter g l) + length (filter h l) = length l)%nat.
Proof.
  intros Hall Hex. induction l as [|x l IH]; [reflexivity|].
  cbn [forallb] in Hall. apply andb_true_iff in Hall. destruct Hall as [Hx Hl].
  specialize (IH Hl). cbn [filter length].
  destruct (g x) eqn:Eg.
  - rewrite (Hex x Eg). cbn [length]. lia.
  - cbn [orb] in Hx. rewrite Hx. cbn [length]. lia.
Qed.

(** A stub whose detail fetch hands back no record gives neither a
    profile nor a table of repositories. *)
Lemma detail_fails_nothing (srv : Server) (stub : Dict) :
  detail_fails srv stub = true ->
  profile_of (result (process_user srv stub)) = [] /\
  frames_of (result (process_user srv stub)) = [] /\
  succeeds srv stub = false.
Proof.
  unfold detail_fails, succeeds. rewrite process_user_result.
  destruct (dict_get "login" stub) as [u|]; [|discriminate].
  destruct (result (get_user_details srv u)) as [[d|]|e|];
    try discriminate; intros _; repeat split; reflexivity.
Qed.

Lemma apply_length {A} (f : value -> outcome A) (series : list value) :
  forall l, pd.apply f series = Ok l -> length l = length series.
Proof.
  induction series as [|v series IH]; intros l H.
  - inversion H. reflexivity.
  - cbn [pd.apply] in H. destruct (f v); try discriminate.
    destruct (pd.apply f series) as [l'| |]; try discriminate.
    inversion H. cbn [length]. f_equal. now apply IH.
Qed.

Lemma rows_setitem_length (df : DataFrame) (c : string) (series : list value) :
  length series = length (rows df) ->
  length (rows (pd.setitem df c series)) = length (rows df).
Proof.
  intros H. unfold pd.setitem.
  destruct (pd.index_of c (columns df)); cbn [rows];
    rewrite length_map, length_combine, H; apply Nat.min_id.
Qed.

Lemma rows_select_length (df df' : DataFrame) (cols : list string) :
  pd.select df cols = Ok df' -> length (rows df') = length (rows df).
Proof.
  unfold pd.select. destruct (filter _ cols); [|discriminate].
  intros H. inversion H. cbn [rows]. apply length_map.
Qed.

(** The users table has one row per collected profile. *)
Lemma create_users_dataframe_rows (users : list Dict) (df : DataFrame) :
  result (create_users_dataframe users) = Ok df ->
  length (rows df) = length users.
Proof.
  unfold create_users_dataframe. cbv zeta. rewrite result_lift_bind.
  destruct (pd.getitem (pd.DataFrame_of users) "company") as [company|e|] eqn:Eg;
    try discriminate.
  rewrite result_lift_bind.
  destruct (pd.apply clean_company_name company) as [cleaned|e|] eqn:Ea;
    try discriminate.
  unfold result, lift. cbn [fst]. intros Hsel.
  rewrite (rows_select_length _ _ _ Hsel).
  assert (Hc : length company = length users).
  { unfold pd.getitem in Eg. destruct (pd.has_column _ _); [|discriminate].
    inversion Eg. cbn [pd.DataFrame_of rows]. now rewrite !length_map. }
  rewrite rows_setitem_length.
  - cbn [pd.DataFrame_of rows]. apply length_map.
  - rewrite length_map, (apply_length _ _ _ Ea), Hc.
    cbn [pd.DataFrame_of rows]. now rewrite length_map.
Qed.

Lemma flat_map_map_comp {A B C} (f : A -> B) (g : B -> list C) (l : list A) :
  flat_map g (map f l) = flat_map (fun x => g (f x)) l.
Proof.
  induction l as [|x l IH]; [reflexivity|]. cbn [map flat_map]. now rewrite IH.
Qed.

(** C4. For every list of stubs, each with a login, and every order in
    which the futures complete: the batch ends normally having counted
    every stub, prints one progress line per stub, and collects exactly
    one profile for each stub whose processing succeeded and none for the
    others; [main] never lets an exception out.  With 50 stubs of which
    exactly 5 fail the detail fetch and the other 45 are processed
    successfully, 45 profiles are collected and the users table has 45
    rows. *)
Theorem process_all_accounts_for_every_stub
    (srv : Server) (sched : Schedule) (stubs : list Dict) :
  fair sched ->
  Forall (fun stub => dict_get "login" stub <> None) stubs ->
  exists acc,
    result (process_all srv sched stubs) = Ok (length stubs, acc) /\
    Permutation (progress (trace (process_all srv sched stubs)))
                (flat_map stub_login stubs) /\
    Permutation (users_data acc)
                (flat_map (fun stub => profile_of (result (process_user srv stub)))
                          stubs) /\
    length (users_data acc) = length (filter (succeeds srv) stubs) /\
    (forall fuel e, result (main srv sched fuel) <> Raise e) /\
    (length stubs = 50%nat ->
     length (filter (detail_fails srv) stubs) = 5%nat ->
     forallb (fun stub => detail_fails srv stub || succeeds srv stub) stubs = true ->
     length (users_data acc) = 45%nat /\
     forall df, result (create_users_dataframe (users_data acc)) = Ok df ->
                length (rows df) = 45%nat).
Proof.
  intros Hfair Hlogin.
  destruct (process_all_spec srv sched stubs Hfair Hlogin) as (Hperm & Hres & Hprog).
  set (order := sched (map (submit srv) stubs)) in *.
  eexists. split; [exact Hres|]. cbn [users_data].
  assert (Hprofiles :
            Permutation (flat_map (fun f => profile_of (result (fut_run f))) order)
                        (flat_map (fun stub => profile_of (result (process_user srv stub)))
                                  stubs)).
  { rewrite <- (flat_map_map_comp (submit srv)
                  (fun f => profile_of (result (fut_run f)))).
    apply Permutation_flat_map. symmetry. exact Hperm. }
  assert (Hcount :
            length (flat_map (fun f => profile_of (result (fut_run f))) order) =
            length (filter (succeeds srv) stubs)).
  { rewrite (Permutation_length Hprofiles).
    apply length_flat_map_filter. apply length_profile_of. }
  split; [|split; [exact Hprofiles|split; [exact Hcount|split]]].
  - rewrite Hprog.
    rewrite <- (flat_map_map_comp (submit srv) (fun f => stub_login (fut_user f))).
    apply Permutation_flat_map. symmetry. exact Hperm.
  - intros fuel e. apply main_never_raises.
  - intros Hfifty Hfive Hrest.
    pose proof (filter_split_length (detail_fails srv) (succeeds srv) stubs Hrest
                  (fun x Hx => proj2 (proj2 (detail_fails_nothing srv x Hx))))
      as Hsplit.
    assert (H45 : length (filter (succeeds srv) stubs) = 45%nat) by lia.
    split; [now rewrite Hcount|].
    intros df Hdf. now rewrite (create_users_dataframe_rows _ _ Hdf), Hcount.
Qed.

Lemma process_all_accounts_for_every_stub_witness :
  exists acc,
    result (process_all Fixture.berlin (@rev Future) Fixture.crowd) = Ok (50%nat, acc) /\
    length (users_data acc) = 45%nat.
Proof.
  destruct (process_all_accounts_for_every_stub Fixture.berlin (@rev Future)
              Fixture.crowd) as (acc & Hres & _ & _ & _ & _ & H45).
  - intros futures. apply Permutation_rev.
  - apply Forall_forall. intros stub Hin. unfold Fixture.crowd in Hin.
    apply in_map_iff in Hin. destruct Hin as (i & <- & _). discriminate.
  - exists acc. split; [exact Hres|].
    apply H45; vm_compute; reflexivity.
Defined.

(** C10. [create_users_dataframe] on the empty list raises (there is no
    [company] column) instead of returning an empty table.  So when no
    stub that the search hands back is processed successfully, [main]
    writes neither file; and when the batch itself went through, the run
    ends by printing that error. *)
Theorem no_successful_user_no_output
    (srv : Server) (sched : Schedule) (fuel : nat) :
  fair sched ->
  (forall users, result (get_berlin_users srv fuel 200) = Ok users ->
                 forallb (fun stub => negb (succeeds srv stub)) users = true) ->
  create_users_dataframe [] = (Raise (KeyError "company"), []) /\
  writes (trace (main srv sched fuel)) = [] /\
  (forall users,
      result (get_berlin_users srv fuel 200) = Ok users ->
      Forall (fun stub => dict_get "login" stub <> None) users ->
      exists acc,
        result (process_all srv sched users) = Ok (length users, acc) /\
        users_data acc = []).
Proof.
  intros Hfair Hnone. split; [reflexivity|].
  assert (Hempty : forall users,
             result (get_berlin_users srv fuel 200) = Ok users ->
             forall st, result (process_all srv sched users) = Ok st ->
                        users_data (snd st) = []).
  { intros users Hsearch st Hst.
    specialize (Hnone users Hsearch). rewrite forallb_forall in Hnone.
    unfold process_all in Hst.
    assert (Hgen : forall futures st0 st1,
               (forall f, In f futures -> profile_of (result (fut_run f)) = []) ->
               result (for_each_future (length users) st0 futures) = Ok st1 ->
               users_data (snd st1) = users_data (snd st0)).
    { induction futures as [|f futures IH]; intros st0 st1 Hfs Hrun.
      - cbn in Hrun. now inversion Hrun.
      - cbn [for_each_future] in Hrun. rewrite result_bind in Hrun.
        destruct (result (handle_future (length users) st0 f)) as [st'| |] eqn:Eh;
          try discriminate.
        rewrite (IH st' st1 (fun g Hg => Hfs g (or_intror Hg)) Hrun).
        unfold handle_future, dict_getitem in Eh.
        destruct (dict_get "login" (fut_user f)) as [login|]; [|discriminate].
        rewrite result_bind in Eh. change (result (ret login)) with (Ok login) in Eh.
        cbv beta iota in Eh. rewrite result_bind in Eh.
        change (result (print (Processing (S (fst st0)) (length users) login)))
          with (Ok tt) in Eh. cbv beta iota in Eh.
        pose proof (Hfs f (or_introl eq_refl)) as Hp.
        destruct (result (fut_run f)) as [[[[|kv d]|] [df|]]|e|];
          try discriminate; cbn in Eh; inversion Eh; reflexivity. }
    assert (Hfs : forall f, In f (sched (map (submit srv) users)) ->
                            profile_of (result (fut_run f)) = []).
    { intros f Hf.
      assert (Hin : In f (map (submit srv) users)).
      { eapply Permutation_in; [symmetry; apply Hfair | exact Hf]. }
      apply in_map_iff in Hin. destruct Hin as (stub & <- & Hstub).
      specialize (Hnone stub Hstub). unfold succeeds in Hnone.
      cbn [submit fut_run snd].
      destruct (profile_of (result (process_user srv stub)));
        [reflexivity|discriminate]. }
    rewrite (Hgen _ _ _ Hfs Hst). reflexivity. }
  split.
  - rewrite main_writes.
    destruct (result (get_berlin_users srv fuel 200)) as [users| |] eqn:Es;
      try reflexivity.
    destruct (result (process_all srv sched users)) as [st| |] eqn:Ep;
      try reflexivity.
    rewrite (Hempty users eq_refl st Ep). reflexivity.
  - intros users Hsearch Hlogin.
    destruct (process_all_spec srv sched users Hfair Hlogin) as (_ & Hres & _).
    eexists. split; [exact Hres|].
    apply (Hempty users Hsearch _ Hres).
Qed.

Lemma no_successful_user_no_output_witness :
  writes (trace (main Fixture.nobody (@rev Future) 3)) = [] /\
  last (trace (main Fixture.nobody (@rev Future) 3)) (Print Done) =
    Print (Error (KeyError "company")).
Proof.
  split.
  - apply (no_successful_user_no_output Fixture.nobody (@rev Future) 3).
    + intros futures. apply Permutation_rev.
    + intros users H. vm_compute in H. injection H as <-. vm_compute. reflexivity.
  - vm_compute. reflexivity.
Defined.

(** ** Tables *)

Section Tables.

Lemma index_of_bound (c : string) (cols : list string) (i : nat) :
  pd.index_of c cols = Some i -> (i < length cols)%nat /\ nth i cols ""%string = c.
Proof.
  revert i. induction cols as [|c' cols IH]; intros i H; [discriminate|].
  cbn [pd.index_of] in H. destruct (String.eqb c c') eqn:E.
  - inversion H. apply String.eqb_eq in E. subst. split; [simpl; lia | reflexivity].
  - destruct (pd.index_of c cols) as [j|]; [|discriminate].
    inversion H. destruct (IH j eq_refl) as [Hj Hn].
    split; [simpl; lia | exact Hn].
Qed.

Lemma index_of_inj (c c' : string) (cols : list string) (i : nat) :
  pd.index_of c cols = Some i -> pd.index_of c' cols = Some i -> c = c'.
Proof.
  intros H H'. apply index_of_bound in H, H'.
  destruct H as [_ <-], H' as [_ <-]. reflexivity.
Qed.

Lemma index_of_snoc (c c' : string) (cols : list string) :
  pd.index_of c (cols ++ [c']) =
  match pd.index_of c cols with
  | Some i => Some i
  | None => if String.eqb c c' then Some (length cols) else None
  end.
Proof.
  induction cols as [|x cols IH]; cbn [app pd.index_of length].
  - destruct (String.eqb c c'); reflexivity.
  - destruct (String.eqb c x); [reflexivity|]. rewrite IH.
    destruct (pd.index_of c cols); [reflexivity|].
    destruct (String.eqb c c'); reflexivity.
Qed.

Lemma nth_map_in {A B} (f : A -> B) (l : list A) (i : nat) (a : A) (b : B) :
  (i < length l)%nat -> nth i (map f l) b = f (nth i l a).
Proof.
  revert i. induction l as [|x l IH]; intros i H; [simpl in H; lia|].
  destruct i; [reflexivity|]. cbn [map nth]. apply IH. simpl in H. lia.
Qed.

(** A realigned row shows under each of its labels what the original
    row showed. *)
Lemma cell_realign (from to : list string) (row : list value) (c : string) :
  pd.has_column c to = true ->
  pd.cell to (pd.realign from to row) c = pd.cell from row c.
Proof.
  unfold pd.has_column, pd.cell at 1, pd.realign.
  destruct (pd.index_of c to) as [i|] eqn:E; [|discriminate]. intros _.
  destruct (index_of_bound _ _ _ E) as [Hi Hc].
  rewrite (nth_map_in _ _ _ ""%string) by exact Hi. now rewrite Hc.
Qed.

Lemma set_nth_spec (i : nat) (v : value) (row : list value) :
  (i < length row)%nat ->
  length (pd.set_nth i v row) = length row /\
  forall j, nth j (pd.set_nth i v row) VNaN = if Nat.eqb j i then v else nth j row VNaN.
Proof.
  revert i. induction row as [|x row IH]; intros i H; [simpl in H; lia|].
  destruct i as [|i].
  - split; [reflexivity|]. intros [|j]; reflexivity.
  - destruct (IH i) as [Hl Hn]; [simpl in H; lia|].
    cbn [pd.set_nth length]. split; [now rewrite Hl|].
    intros [|j]; [reflexivity|]. cbn [nth Nat.eqb]. apply Hn.
Qed.

(** Assigning a column: each new row is an old row with the new cell
    under [c] and every other cell as it was. *)
Lemma setitem_rows (df : DataFrame) (c : string) (series : list value) :
  well_formed df ->
  exists tr : list value * value -> list value,
    rows (pd.setitem df c series) = map tr (combine (rows df) series) /\
    forall row v,
      In row (rows df) ->
      length (tr (row, v)) = length (columns (pd.setitem df c series)) /\
      forall c', pd.cell (columns (pd.setitem df c series)) (tr (row, v)) c' =
                 if String.eqb c' c then v else pd.cell (columns df) row c'.
Proof.
  intros Hwf. unfold well_formed in Hwf. rewrite Forall_forall in Hwf.
  unfold pd.setitem.
  destruct (pd.index_of c (columns df)) as [i|] eqn:Ei.
  - exists (fun rv => pd.set_nth i (snd rv) (fst rv)). split; [reflexivity|].
    intros row v Hrow. cbn [fst snd columns].
    destruct (index_of_bound _ _ _ Ei) as [Hi _].
    destruct (set_nth_spec i v row) as [Hl Hn]; [rewrite (Hwf row Hrow); exact Hi|].
    split; [now rewrite Hl, (Hwf row Hrow)|].
    intros c'. unfold pd.cell.
    destruct (String.eqb c' c) eqn:Ec.
    + apply String.eqb_eq in Ec. subst c'. rewrite Ei, Hn, Nat.eqb_refl. reflexivity.
    + destruct (pd.index_of c' (columns df)) as [j|] eqn:Ej; [|reflexivity].
      rewrite Hn. destruct (Nat.eqb j i) eqn:Eji; [|reflexivity].
      apply Nat.eqb_eq in Eji. subst j.
      rewrite (index_of_inj _ _ _ _ Ej Ei), String.eqb_refl in Ec. discriminate.
  - exists (fun rv => fst rv ++ [snd rv]). split; [reflexivity|].
    intros row v Hrow. cbn [fst snd columns].
    split; [rewrite !length_app, (Hwf row Hrow); reflexivity|].
    intros c'. unfold pd.cell. rewrite index_of_snoc.
    destruct (pd.index_of c' (columns df)) as [j|] eqn:Ej.
    + destruct (index_of_bound _ _ _ Ej) as [Hj _].
      rewrite app_nth1 by (rewrite (Hwf row Hrow); exact Hj).
      destruct (String.eqb c' c) eqn:Ec; [|reflexivity].
      apply String.eqb_eq in Ec. subst c'. congruence.
    + destruct (String.eqb c' c); [|reflexivity].
      rewrite <- (Hwf row Hrow), nth_middle. reflexivity.
Qed.

Lemma setitem_well_formed (df : DataFrame) (c : string) (series : list value) :
  well_formed df -> well_formed (pd.setitem df c series).
Proof.
  intros Hwf. destruct (setitem_rows df c series Hwf) as (tr & Hrows & Htr).
  unfold well_formed. rewrite Hrows. apply Forall_forall.
  intros row' Hin. apply in_map_iff in Hin. destruct Hin as ([row v] & <- & Hin).
  apply (Htr row v). eapply in_combine_l. exact Hin.
Qed.

Lemma DataFrame_of_well_formed (data : list Dict) :
  well_formed (pd.DataFrame_of data).
Proof.
  unfold well_formed, pd.DataFrame_of. cbn [rows columns].
  apply Forall_forall. intros row Hin. apply in_map_iff in Hin.
  destruct Hin as (d & <- & _). apply length_map.
Qed.

Lemma cell_DataFrame_of (data : list Dict) (d : Dict) (c : string) :
  pd.has_column c (columns (pd.DataFrame_of data)) = true ->
  pd.cell (columns (pd.DataFrame_of data))
          (map (fun c => field c d) (columns (pd.DataFrame_of data))) c =
  field c d.
Proof.
  unfold pd.has_column, pd.cell.
  destruct (pd.index_of c _) as [i|] eqn:E; [|discriminate]. intros _.
  destruct (index_of_bound _ _ _ E) as [Hi Hc].
  rewrite (nth_map_in _ _ _ ""%string) by exact Hi. now rewrite Hc.
Qed.

Lemma rows_DataFrame_of (data : list Dict) :
  rows (pd.DataFrame_of data) =
  map (fun d => map (fun c => field c d) (columns (pd.DataFrame_of data))) data.
Proof. reflexivity. Qed.

Lemma in_combine_exists {A B} (l : list A) (l' : list B) (a : A) :
  length l = length l' -> In a l -> exists b, In (a, b) (combine l l').
Proof.
  revert l'. induction l as [|x l IH]; intros l' Hlen Hin; [destruct Hin|].
  destruct l' as [|y l']; [discriminate|].
  destruct Hin as [->|Hin].
  - exists y. now left.
  - destruct (IH l' ltac:(simpl in Hlen; lia) Hin) as (b & Hb).
    exists b. now right.
Qed.

End Tables.

(** ** The owner column of the two tables *)

Lemma select_inv (df df' : DataFrame) (cols : list string) :
  pd.select df cols = Ok df' ->
  columns df' = cols /\
  rows df' = map (pd.realign (columns df) cols) (rows df).
Proof.
  unfold pd.select. destruct (filter _ cols); [|discriminate].
  intros H. inversion H. split; reflexivity.
Qed.

(** Every row of the repository table of a user carries the login the
    table was built for. *)
Lemma create_repos_dataframe_logins
    (repos : list Dict) (u : value) (df : DataFrame) :
  repos <> [] ->
  result (create_repos_dataframe repos u) = Ok df ->
  columns df = repo_columns /\
  forall row, In row (rows df) -> pd.cell repo_columns row "login" = u.
Proof.
  intros Hne. unfold create_repos_dataframe.
  destruct repos as [|r repos]; [congruence|].
  cbv zeta. set (df0 := pd.DataFrame_of (r :: repos)).
  set (df1 := pd.setitem_scalar df0 "login" u).
  rewrite result_lift_bind.
  destruct (pd.getitem df1 "license") as [license|e|]; try discriminate.
  rewrite result_lift_bind.
  destruct (apply_license_key license) as (names & Hnames & _).
  rewrite Hnames. unfold result, lift. cbn [fst]. intros Hsel.
  destruct (select_inv _ _ _ Hsel) as [Hcols Hrows].
  split; [exact Hcols|].
  intros row Hrow. rewrite Hrows in Hrow. apply in_map_iff in Hrow.
  destruct Hrow as (r2 & <- & Hr2).
  rewrite cell_realign by reflexivity.
  assert (Hwf0 : well_formed df0) by apply DataFrame_of_well_formed.
  assert (Hwf1 : well_formed df1) by (apply setitem_well_formed; exact Hwf0).
  destruct (setitem_rows df1 "license_name" names Hwf1) as (tr2 & Hrows2 & Htr2).
  rewrite Hrows2 in Hr2. apply in_map_iff in Hr2.
  destruct Hr2 as ([r1 v1] & <- & Hin1).
  assert (Hr1 : In r1 (rows df1)) by (eapply in_combine_l; exact Hin1).
  rewrite (proj2 (Htr2 r1 v1 Hr1) "login"). cbn [String.eqb Ascii.eqb Bool.eqb].
  destruct (setitem_rows df0 "login" (map (fun _ => u) (rows df0)) Hwf0)
    as (tr1 & Hrows1 & Htr1).
  unfold df1, pd.setitem_scalar in Hr1. rewrite Hrows1 in Hr1.
  apply in_map_iff in Hr1. destruct Hr1 as ([r0 v0] & <- & Hin0).
  assert (Hr0 : In r0 (rows df0)) by (eapply in_combine_l; exact Hin0).
  unfold df1, pd.setitem_scalar.
  rewrite (proj2 (Htr1 r0 v0 Hr0) "login"), String.eqb_refl.
  apply in_combine_r in Hin0. apply in_map_iff in Hin0.
  destruct Hin0 as (x & Hx & _). now symmetry.
Qed.

(** Every collected profile has its row in the users table, with its
    login in the owner column. *)
Lemma create_users_dataframe_logins
    (users : list Dict) (df : DataFrame) (d : Dict) :
  result (create_users_dataframe users) = Ok df ->
  In d users ->
  exists row, In row (rows df) /\
              pd.cell (columns df) row "login" = field "login" d.
Proof.
  unfold create_users_dataframe. cbv zeta.
  set (df0 := pd.DataFrame_of users).
  rewrite result_lift_bind.
  destruct (pd.getitem df0 "company") as [company|e|] eqn:Eg; try discriminate.
  rewrite result_lift_bind.
  destruct (pd.apply clean_company_name company) as [cleaned|e|] eqn:Ea;
    try discriminate.
  unfold result, lift. cbn [fst]. intros Hsel Hd.
  pose proof Hsel as Hsel'. unfold pd.select in Hsel'.
  destruct (filter (fun c => negb (pd.has_column c
              (columns (pd.setitem df0 "company" (map VStr cleaned))))) user_columns)
    as [|missing rest] eqn:Ef; [|discriminate]. clear Hsel'.
  assert (Hlogin1 : pd.has_column "login"
            (columns (pd.setitem df0 "company" (map VStr cleaned))) = true).
  { destruct (pd.has_column "login" _) eqn:E; [reflexivity|].
    assert (Hin : In "login"%string (filter (fun c => negb (pd.has_column c
              (columns (pd.setitem df0 "company" (map VStr cleaned))))) user_columns)).
    { apply filter_In. split; [now left | now rewrite E]. }
    rewrite Ef in Hin. destruct Hin. }
  assert (Hcompany : pd.has_column "company" (columns df0) = true).
  { unfold pd.getitem in Eg. destruct (pd.has_column "company" (columns df0));
      [reflexivity | discriminate]. }
  assert (Hcols1 : columns (pd.setitem df0 "company" (map VStr cleaned)) = columns df0).
  { unfold pd.setitem. unfold pd.has_column in Hcompany.
    destruct (pd.index_of "company" (columns df0)); [reflexivity | discriminate]. }
  assert (Hlogin0 : pd.has_column "login" (columns df0) = true)
    by now rewrite <- Hcols1.
  assert (Hlen : length (map VStr cleaned) = length (rows df0)).
  { rewrite length_map, (apply_length _ _ _ Ea).
    unfold pd.getitem in Eg. rewrite Hcompany in Eg. inversion Eg.
    apply length_map. }
  assert (Hwf0 : well_formed df0) by apply DataFrame_of_well_formed.
  destruct (setitem_rows df0 "company" (map VStr cleaned) Hwf0)
    as (tr & Hrows1 & Htr).
  set (r0 := map (fun c => field c d) (columns df0)).
  assert (Hr0 : In r0 (rows df0)).
  { unfold df0 at 1. rewrite rows_DataFrame_of. apply in_map_iff.
    exists d. split; [reflexivity | exact Hd]. }
  destruct (in_combine_exists (rows df0) (map VStr cleaned) r0 (eq_sym Hlen) Hr0)
    as (v & Hv).
  destruct (select_inv _ _ _ Hsel) as [Hcols Hrows].
  exists (pd.realign (columns (pd.setitem df0 "company" (map VStr cleaned)))
                     user_columns (tr (r0, v))).
  split.
  - rewrite Hrows. apply in_map. rewrite Hrows1. apply in_map. exact Hv.
  - rewrite Hcols, cell_realign by reflexivity.
    rewrite (proj2 (Htr r0 v Hr0) "login"). cbn [String.eqb Ascii.eqb Bool.eqb].
    apply cell_DataFrame_of. exact Hlogin0.
Qed.

(** Tables that all have the columns of the repository table are
    concatenated row by row. *)
Lemma concat_repo_frames (frames : list DataFrame) (row : list value) :
  Forall (fun f => columns f = repo_columns) frames ->
  In row (rows (pd.concat frames)) ->
  columns (pd.concat frames) = repo_columns /\
  exists f r, In f frames /\ In r (rows f) /\
              pd.cell repo_columns row "login" = pd.cell repo_columns r "login".
Proof.
  intros Hall Hrow.
  assert (Hfold : forall fs acc,
             Forall (fun f => columns f = repo_columns) fs ->
             acc = [] \/ acc = repo_columns ->
             fs <> [] \/ acc = repo_columns ->
             fold_left (fun acc f => pd.union acc (columns f)) fs acc = repo_columns).
  { induction fs as [|f fs IH]; intros acc Hfs Hacc Hne.
    - destruct Hne as [Hne|Hne]; [congruence | exact Hne].
    - inversion Hfs as [|f' fs' Hf Hfs']; subst. cbn [fold_left].
      rewrite Hf. apply IH; [exact Hfs' | | right];
        destruct Hacc as [->| ->]; try right; reflexivity. }
  unfold pd.concat in *. cbn [rows columns] in *.
  apply in_flat_map in Hrow. destruct Hrow as (f & Hf & Hrow).
  assert (Hcols : fold_left (fun acc f => pd.union acc (columns f)) frames [] =
                  repo_columns).
  { apply Hfold; [exact Hall | now left | left]. intros ->. destruct Hf. }
  split; [exact Hcols|].
  rewrite Hcols in Hrow. apply in_map_iff in Hrow. destruct Hrow as (r & <- & Hr).
  exists f, r. repeat split; auto.
  rewrite Forall_forall in Hall. rewrite (Hall f Hf).
  apply cell_realign. reflexivity.
Qed.

(** ** From the futures to the dataset *)

Lemma handle_future_collected (total : nat) (st st' : nat * Collected)
    (future : Future) :
  result (handle_future total st future) = Ok st' ->
  users_data (snd st') =
    users_data (snd st) ++ profile_of (result (fut_run future)) /\
  all_repos_data (snd st') =
    all_repos_data (snd st) ++ frames_of (result (fut_run future)).
Proof.
  unfold handle_future, dict_getitem.
  destruct (dict_get "login" (fut_user future)) as [login|]; [|discriminate].
  rewrite result_bind. change (result (ret login)) with (Ok login).
  cbv beta iota. rewrite result_bind.
  change (result (print (Processing (S (fst st)) total login))) with (Ok tt).
  cbv beta iota.
  destruct (result (fut_run future)) as [[[[|kv d]|] [df|]]|e|];
    try discriminate; cbn [profile_of frames_of];
    try (destruct (negb (pd.empty df)));
    cbn; intros H; inversion H; cbn [snd users_data all_repos_data];
    rewrite ?app_nil_r; split; reflexivity.
Qed.

Lemma for_each_future_collected (total : nat) (futures : list Future) :
  forall st st',
    result (for_each_future total st futures) = Ok st' ->
    users_data (snd st') =
      users_data (snd st) ++
      flat_map (fun f => profile_of (result (fut_run f))) futures /\
    all_repos_data (snd st') =
      all_repos_data (snd st) ++
      flat_map (fun f => frames_of (result (fut_run f))) futures.
Proof.
  induction futures as [|f futures IH]; intros st st' H.
  - cbn in H. inversion H. cbn [flat_map]. rewrite !app_nil_r. split; reflexivity.
  - cbn [for_each_future] in H. rewrite result_bind in H.
    destruct (result (handle_future total st f)) as [st1| |] eqn:Eh;
      try discriminate.
    destruct (handle_future_collected _ _ _ _ Eh) as [Hu Hr].
    destruct (IH _ _ H) as [Hu' Hr'].
    cbn [flat_map]. rewrite Hu', Hr', Hu, Hr, <- !app_assoc. split; reflexivity.
Qed.

(** A worker that hands back a non-empty repository table also hands back
    the profile of the same login. *)
Lemma process_user_frame (srv : Server) (stub : Dict) (df : DataFrame) :
  In df (frames_of (result (process_user srv stub))) ->
  exists u d,
    result (get_user_details srv u) = Ok (Some d) /\
    profile_of (result (process_user srv stub)) = [d] /\
    columns df = repo_columns /\
    forall row, In row (rows df) -> pd.cell repo_columns row "login" = u.
Proof.
  rewrite process_user_result.
  destruct (dict_get "login" stub) as [u|]; [|intros []].
  destruct (result (get_user_details srv u)) as [[[|kv d]|]|e|] eqn:Ed;
    try (intros []).
  destruct (result (get_user_repos srv u 500)) as [[|r repos]|e|];
    try (intros []).
  destruct (result (create_repos_dataframe (r :: repos) u)) as [f|e|] eqn:Ec;
    try (intros []).
  cbn [frames_of profile_of].
  destruct (negb (pd.empty f)); [|intros []].
  intros [<-|[]]. exists u, (kv :: d).
  destruct (create_repos_dataframe_logins (r :: repos) u f ltac:(discriminate) Ec)
    as [Hcols Hrows].
  repeat split; auto.
Qed.

(** C3. In every run that writes the dataset, under any completion order,
    against a remote service that answers a detail request for a login
    with the record of that login: the owner login of every row of the
    repository table is the login of some row of the users table.  A stub
    whose detail fetch hands back no record adds neither a profile nor a
    repository table: handling its future leaves both accumulators as they
    were. *)
Theorem repository_owner_in_dataset
    (srv : Server) (sched : Schedule) (fuel : nat) (users_df repos_df : DataFrame) :
  fair sched ->
  detail_login_matches srv ->
  writes (trace (main srv sched fuel)) =
    [(users_df, "users.csv"); (repos_df, "repositories.csv")] ->
  incl (logins repos_df) (logins users_df) /\
  (forall stub,
      detail_fails srv stub = true ->
      profile_of (result (process_user srv stub)) = [] /\
      frames_of (result (process_user srv stub)) = [] /\
      forall total st login,
        dict_get "login" stub = Some login ->
        result (handle_future total st (submit srv stub)) = Ok (S (fst st), snd st)).
Proof.
  intros Hfair Hmatch Hwrites. split.
  - rewrite main_writes in Hwrites.
    destruct (result (get_berlin_users srv fuel 200)) as [stubs| |];
      try discriminate.
    destruct (result (process_all srv sched stubs)) as [st| |] eqn:Ep;
      try discriminate.
    destruct (result (create_users_dataframe (users_data (snd st))))
      as [df| |] eqn:Ec; try discriminate.
    inversion Hwrites; subst df repos_df. clear Hwrites.
    unfold process_all in Ep.
    destruct (for_each_future_collected _ _ _ _ Ep) as [Hu Hr].
    cbn [fst snd users_data all_repos_data app] in Hu, Hr.
    intros v Hv. unfold logins in Hv. apply in_map_iff in Hv.
    destruct Hv as (row & <- & Hrow).
    unfold repos_frame in *.
    destruct (all_repos_data (snd st)) as [|f0 fs] eqn:Ea; [destruct Hrow|].
    rewrite <- Ea in *. clear Ea f0 fs.
    assert (Hsrc : forall f, In f (all_repos_data (snd st)) ->
               exists u d,
                 result (get_user_details srv u) = Ok (Some d) /\
                 In d (users_data (snd st)) /\
                 columns f = repo_columns /\
                 forall r, In r (rows f) -> pd.cell repo_columns r "login" = u).
    { intros f Hf. rewrite Hr in Hf. apply in_flat_map in Hf.
      destruct Hf as (fut & Hfut & Hf).
      assert (Hin : In fut (map (submit srv) stubs)).
      { eapply Permutation_in; [symmetry; apply Hfair | exact Hfut]. }
      apply in_map_iff in Hin. destruct Hin as (stub & <- & _).
      cbn [submit fut_run snd] in Hf.
      destruct (process_user_frame srv stub f Hf) as (u & d & Hd & Hp & Hc & Hrows).
      exists u, d. repeat split; auto.
      rewrite Hu. apply in_flat_map. exists (submit srv stub).
      split; [exact Hfut|]. cbn [submit fut_run snd]. rewrite Hp. now left. }
    assert (Hall : Forall (fun f => columns f = repo_columns)
                          (all_repos_data (snd st))).
    { apply Forall_forall. intros f Hf.
      destruct (Hsrc f Hf) as (_ & _ & _ & _ & Hc & _). exact Hc. }
    destruct (concat_repo_frames _ _ Hall Hrow) as (Hcols & f & r & Hf & Hr0 & Hcell).
    rewrite Hcols, Hcell.
    destruct (Hsrc f Hf) as (u & d & Hd & Hin & _ & Hrows).
    rewrite (Hrows r Hr0).
    destruct (create_users_dataframe_logins _ _ d Ec Hin) as (urow & Hurow & Hlogin).
    unfold logins. apply in_map_iff. exists urow. split; [|exact Hurow].
    rewrite Hlogin. unfold field.
    now rewrite (Hmatch u d (get_user_details_some srv u d Hd)).
  - intros stub Hfails.
    destruct (detail_fails_nothing srv stub Hfails) as (Hp & Hf & _).
    repeat split; auto.
    intros total st login Hlogin.
    destruct (handle_future_spec total st (submit srv stub) login Hlogin
                (process_user_returns srv stub)) as (Hres & _).
    rewrite Hres. cbn [submit fut_run snd]. rewrite Hp, Hf, !app_nil_r.
    destruct st as [c [ud ar]]. reflexivity.
Qed.

Lemma repository_owner_in_dataset_witness :
  exists users_df repos_df,
    writes (trace (main Fixture.berlin (@rev Future) 3)) =
      [(users_df, "users.csv"); (repos_df, "repositories.csv")] /\
    incl (logins repos_df) (logins users_df) /\
    length (rows users_df) = 45%nat /\
    length (rows repos_df) = 90%nat.
Proof.
  eexists. eexists. split; [vm_compute; reflexivity|].
  split; [|split; vm_compute; reflexivity].
  eapply (repository_owner_in_dataset Fixture.berlin (@rev Future) 3).
  - intros futures. apply Permutation_rev.
  - intros u d H. unfold user_detail, Fixture.berlin, Fixture.serve in H.
    destruct (Fixture.is_one_of _ u); [discriminate|].
    injection H as <-. reflexivity.
  - vm_compute. reflexivity.
Defined.

(** * Further properties of the scraper *)

(** ** Search *)

(** X1. Search pagination: when pages 1 to n each come back with status
    200 and at least one item and page n+1 comes back empty, the search
    makes exactly n+1 calls and returns the items of pages 1 to n in fetch
    order. *)
Theorem search_collects_pages_in_order
    (srv : Server) (min_followers : Z) (fuel : nat) (found : list (list Dict)) :
  found_pages srv min_followers 1 found ->
  search_page srv min_followers (1 + len found) = page_ok (mkSearchResult []) ->
  (length found < fuel)%nat ->
  get_berlin_users srv fuel min_followers =
    (Ok (concat found),
     map Call (pages_from (search_request min_followers) 1 (S (length found)))).
Proof.
  intros Hfound Hlast Hfuel. unfold get_berlin_users.
  rewrite (search_loop_run srv min_followers found) by (auto; lia).
  destruct (fuel - length found)%nat as [|f] eqn:Ef; [lia|].
  rewrite search_loop_round, Hlast. cbn [fst snd app].
  rewrite pages_from_snoc, map_app. reflexivity.
Qed.

Lemma search_collects_pages_in_order_witness :
  get_berlin_users Fixture.search_ends_on_page_2 5 200 =
    (Ok [Fixture.stub "a"],
     [Call (search_request 200 1); Call (search_request 200 2)]).
Proof.
  apply (search_collects_pages_in_order Fixture.search_ends_on_page_2 200 5
           [[Fixture.stub "a"]]).
  - simpl. repeat split. discriminate.
  - reflexivity.
  - simpl. lia.
Defined.

Lemma search_loop_endless (srv : Server) (min_followers : Z) :
  (forall page, 1 <= page ->
      exists d, d <> [] /\
                search_page srv min_followers page = page_ok (mkSearchResult d)) ->
  forall fuel users page,
    1 <= page ->
    result (get_berlin_users_loop srv fuel min_followers users page) = OutOfFuel /\
    trace (get_berlin_users_loop srv fuel min_followers users page) =
      map Call (pages_from (search_request min_followers) page fuel).
Proof.
  intros Hpages. induction fuel as [|fuel IH]; intros users page Hpage.
  - split; reflexivity.
  - rewrite search_loop_round.
    destruct (Hpages page Hpage) as (d & Hne & Hreply). rewrite Hreply.
    cbn [page_ok status_code json items Z.eqb Pos.eqb].
    destruct d as [|x d]; [congruence|].
    cbv zeta. unfold result, trace in *. cbn [fst snd].
    destruct (IH (users ++ x :: d) (page + 1) ltac:(lia)) as [Hres Htr].
    rewrite Hres, Htr, pages_from_S. split; reflexivity.
Qed.

(** X2. The search loop has no cap of its own: against a service whose
    every search page holds at least one item, it is still fetching after
    any number of rounds, having asked for pages 1, 2, 3, ... in turn;
    [main] then never gets to write anything. *)
Theorem search_never_ends_without_empty_page
    (srv : Server) (sched : Schedule) (fuel : nat) :
  (forall page, 1 <= page ->
      exists d, d <> [] /\ search_page srv 200 page = page_ok (mkSearchResult d)) ->
  result (get_berlin_users srv fuel 200) = OutOfFuel /\
  calls (trace (get_berlin_users srv fuel 200)) =
    pages_from (search_request 200) 1 fuel /\
  result (main srv sched fuel) = OutOfFuel /\
  writes (trace (main srv sched fuel)) = [].
Proof.
  intros Hpages.
  destruct (search_loop_endless srv 200 Hpages fuel [] 1 ltac:(lia)) as [Hres Htr].
  unfold get_berlin_users. rewrite Hres, Htr, calls_map_Call.
  repeat split.
  - unfold main. unfold get_berlin_users.
    destruct (get_berlin_users_loop srv fuel 200 [] 1) as [o t].
    unfold result in Hres. cbn [fst] in Hres. subst o. reflexivity.
  - rewrite main_writes. unfold get_berlin_users. now rewrite Hres.
Qed.

Lemma search_never_ends_without_empty_page_witness :
  result (get_berlin_users Fixture.endless 7 200) = OutOfFuel /\
  result (main Fixture.endless (@rev Future) 7) = OutOfFuel.
Proof.
  destruct (search_never_ends_without_empty_page Fixture.endless (@rev Future) 7)
    as (H1 & _ & H2 & _).
  - intros page _. exists [Fixture.stub "a"]. split; [discriminate | reflexivity].
  - split; [exact H1 | exact H2].
Defined.

(** ** Exceptions *)

(** X3. An exception during the search is not caught by the search: when
    pages 1 to n were found and fetching page n+1 raises (the transport
    fails, or a 200 body does not decode), [get_berlin_users] raises and
    the items already found are gone; [main] prints the error and ends
    without processing any user or writing any file. *)
Theorem search_exception_aborts_run
    (srv : Server) (sched : Schedule) (fuel : nat)
    (found : list (list Dict)) (e : exn) :
  found_pages srv 200 1 found ->
  fetch_exception (search_page srv 200 (1 + len found)) = Some e ->
  (length found < fuel)%nat ->
  get_berlin_users srv fuel 200 =
    (Raise e, map Call (pages_from (search_request 200) 1 (S (length found)))) /\
  main srv sched fuel =
    (Ok tt,
     Print FetchingBerlinUsers ::
     map Call (pages_from (search_request 200) 1 (S (length found))) ++
     [Print (Error e)]) /\
  writes (trace (main srv sched fuel)) = [].
Proof.
  intros Hfound He Hfuel.
  assert (Hsearch : get_berlin_users srv fuel 200 =
            (Raise e, map Call (pages_from (search_request 200) 1 (S (length found))))).
  { unfold get_berlin_users.
    rewrite (search_loop_run srv 200 found) by (auto; lia).
    destruct (fuel - length found)%nat as [|f] eqn:Ef; [lia|].
    rewrite (search_round_exception _ _ _ _ _ e He). cbn [fst snd app].
    rewrite pages_from_snoc, map_app. reflexivity. }
  split; [exact Hsearch|]. split.
  - unfold main. rewrite Hsearch. reflexivity.
  - rewrite main_writes, Hsearch. reflexivity.
Qed.

Lemma search_exception_aborts_run_witness :
  main Fixture.search_drops_on_page_2 (@rev Future) 4 =
    (Ok tt,
     [Print FetchingBerlinUsers; Call (search_request 200 1);
      Call (search_request 200 2); Print (Error ConnectionError)]).
Proof.
  destruct (search_exception_aborts_run Fixture.search_drops_on_page_2
              (@rev Future) 4 [[Fixture.stub "a"]] ConnectionError)
    as (_ & H & _).
  - simpl. repeat split. discriminate.
  - reflexivity.
  - simpl. lia.
  - exact H.
Defined.

(** X4. An exception while listing a user's repositories costs the user
    their profile too: when the detail fetch succeeded and a later
    repository page raises, [process_user] raises, and handling that
    future prints the error and leaves both accumulators as they were,
    while the batch goes on. *)
Theorem listing_exception_drops_profile
    (srv : Server) (stub : Dict) (login : value) (details : Dict)
    (listed : list (list Dict)) (e : exn) :
  dict_get "login" stub = Some login ->
  user_detail srv login = page_ok details ->
  details <> [] ->
  full_pages srv login 500 [] 1 listed ->
  len (concat listed) < 500 ->
  fetch_exception (repos_page srv login (1 + len listed)) = Some e ->
  result (process_user srv stub) = Raise e /\
  forall total st,
    handle_future total st (submit srv stub) =
      (Ok (S (fst st), snd st),
       [Print (Processing (S (fst st)) total login);
        Print (ErrorProcessing login e)]).
Proof.
  intros Hlogin Hdetail Hne Hfull Hlt He.
  assert (Hres : result (process_user srv stub) = Raise e).
  { rewrite process_user_result, Hlogin.
    rewrite (get_user_details_ok srv login details Hdetail).
    cbn [result fst]. destruct details as [|kv details]; [congruence|].
    rewrite (repos_exception srv login 500 listed e Hfull Hlt He). reflexivity. }
  split; [exact Hres|].
  intros total [completed [ud ar]]. unfold handle_future, dict_getitem.
  cbn [submit fut_user fut_run fst snd]. rewrite Hlogin, Hres. reflexivity.
Qed.

Lemma listing_exception_drops_profile_witness :
  result (process_user Fixture.listing_drops (Fixture.stub "a")) =
    Raise ConnectionError /\
  result (handle_future 1 (O, mkCollected [] [])
            (submit Fixture.listing_drops (Fixture.stub "a"))) =
    Ok (1%nat, mkCollected [] []).
Proof.
  destruct (listing_exception_drops_profile Fixture.listing_drops
              (Fixture.stub "a") (VStr "a") (Fixture.profile "a")
              [Fixture.repos_n 100] ConnectionError) as (H1 & H2).
  - reflexivity.
  - reflexivity.
  - discriminate.
  - simpl. repeat split; vm_compute; congruence.
  - vm_compute. reflexivity.
  - reflexivity.
  - split; [exact H1|]. now rewrite H2.
Defined.

(** ** The cap of the repository listing *)

Lemma full_prefix_length (ds : list (list Dict)) :
  Forall (fun d => 100 <= len d) ds ->
  forall j, 100 * len (firstn j ds) <= len (concat (firstn j ds)).
Proof.
  induction 1 as [|d l Hd Hl IH]; intros j.
  - rewrite firstn_nil. unfold len. simpl. lia.
  - destruct j as [|j]; [unfold len; simpl; lia|].
    cbn [firstn concat]. rewrite len_app. specialize (IH j).
    unfold len in *. cbn [length]. lia.
Qed.

Lemma last_round_calls (srv : Server) (u : value) (max_repos : Z)
    (repos : list Dict) (page : Z) :
  stops_at srv u max_repos repos page ->
  len repos < max_repos ->
  calls (snd (get_user_repos_loop srv 1 u max_repos repos page)) =
    [repos_request u page].
Proof.
  intros Hstop Hlt. rewrite repos_loop_round by exact Hlt.
  destruct Hstop as [Hcap|Hshort]; [lia|].
  destruct (repos_page srv u page) as [[st js]|e] eqn:E; [|reflexivity].
  cbn [status_code json]. destruct (st =? 200) eqn:Est; [|reflexivity].
  destruct js as [[|x d]|]; try reflexivity.
  apply Z.eqb_eq in Est. subst st.
  specialize (Hshort (x :: d) eq_refl). apply Z.ltb_lt in Hshort.
  now rewrite Hshort.
Qed.

Lemma get_user_repos_bounds (srv : Server) (u : value) (max_repos : Z) :
  result (get_user_repos srv u max_repos) <> OutOfFuel /\
  (exists n,
      calls (trace (get_user_repos srv u max_repos)) =
        pages_from (repos_request u) 1 n /\
      (n = 0%nat \/ 100 * (Z.of_nat n - 1) < max_repos)) /\
  (forall l, result (get_user_repos srv u max_repos) = Ok l ->
             len l <= Z.max 0 max_repos) /\
  (max_repos <= 0 -> get_user_repos srv u max_repos = (Ok [], [])).
Proof.
  split; [apply get_user_repos_returns|].
  destruct (get_user_repos_stops srv u max_repos) as (ds & Hfull & Hstop & Hrun).
  pose proof (full_pages_inv _ _ _ _ _ _ Hfull) as Hinv.
  rewrite Forall_forall in Hinv.
  assert (Hall : Forall (fun d => 100 <= len d) ds).
  { apply Forall_forall. intros d Hd.
    destruct (In_nth _ _ [] Hd) as (j & Hj & <-).
    apply (Hinv j). apply in_seq. lia. }
  assert (Hprev : ds <> [] -> 100 * (len ds - 1) < max_repos).
  { intros Hne.
    assert (Hj : In (length ds - 1)%nat (seq 0 (length ds))).
    { apply in_seq. destruct ds; [congruence | simpl; lia]. }
    destruct (Hinv _ Hj) as [Hlt _]. cbn [app] in Hlt.
    pose proof (full_prefix_length ds Hall (length ds - 1)) as Hp.
    assert (Hl : len (firstn (length ds - 1) ds) = len ds - 1).
    { unfold len. rewrite length_firstn.
      destruct ds; [congruence | simpl length; lia]. }
    rewrite Hl in Hp. lia. }
  split; [|split].
  - destruct (Z.lt_ge_cases (len (concat ds)) max_repos) as [Hlt|Hge].
    + exists (S (length ds)). split.
      * rewrite Hrun. unfold trace. cbn [snd].
        rewrite calls_app, calls_map_Call,
          (last_round_calls _ _ _ _ _ Hstop Hlt), pages_from_snoc.
        reflexivity.
      * right. pose proof (full_prefix_length ds Hall (length ds)) as Hp.
        rewrite firstn_all in Hp. unfold len in *. lia.
    + exists (length ds). split.
      * rewrite Hrun, repos_loop_cap by exact Hge. unfold trace. cbn [snd ret].
        now rewrite app_nil_r, calls_map_Call.
      * destruct ds as [|d ds']; [now left|].
        right. specialize (Hprev ltac:(discriminate)). unfold len in *. lia.
  - intros l Hl. rewrite Hrun in Hl. unfold result in Hl. cbn [fst] in Hl.
    destruct (fst (get_user_repos_loop srv 1 u max_repos (concat ds) (1 + len ds)))
      as [r| |] eqn:Er; try discriminate.
    inversion Hl; subst l. clear Hl.
    destruct (Z.lt_ge_cases max_repos 0) as [Hneg|Hpos].
    + assert (Hds : ds = []).
      { destruct ds as [|d ds']; [reflexivity|].
        destruct Hfull as (Hlt & _). unfold len in Hlt. simpl in Hlt. lia. }
      subst ds. cbn [concat] in Er.
      rewrite repos_loop_cap in Er by (unfold len; simpl; lia).
      cbn in Er. inversion Er. unfold slice_to.
      destruct (0 <=? max_repos); rewrite firstn_nil; unfold len; simpl; lia.
    + pose proof (len_slice_to r max_repos Hpos). lia.
  - intros Hle. unfold get_user_repos.
    rewrite repos_loop_cap by (unfold len; simpl; lia).
    cbn [ret bind app]. unfold slice_to.
    destruct (0 <=? max_repos); now rewrite firstn_nil.
Qed.

(** X5. Whatever the remote service answers, [get_user_repos] comes back
    after finitely many calls: it asks for pages 1, 2, ..., n in turn, with
    [100 * (n - 1) < max_repos] when it asks at all, so at most five calls
    under the cap 500; it returns at most [max_repos] items; and with a cap
    of zero or less it makes no call and returns the empty list. *)
Theorem get_user_repos_is_bounded (srv : Server) (u : value) (max_repos : Z) :
  result (get_user_repos srv u max_repos) <> OutOfFuel /\
  (exists n,
      calls (trace (get_user_repos srv u max_repos)) =
        pages_from (repos_request u) 1 n /\
      (n = 0%nat \/ 100 * (Z.of_nat n - 1) < max_repos)) /\
  (forall l, result (get_user_repos srv u max_repos) = Ok l ->
             len l <= Z.max 0 max_repos) /\
  (max_repos <= 0 -> get_user_repos srv u max_repos = (Ok [], [])).
Proof. apply get_user_repos_bounds. Qed.

Lemma get_user_repos_is_bounded_witness :
  get_user_repos Fixture.bottomless (VStr "a") 0 = (Ok [], []) /\
  length (calls (trace (get_user_repos Fixture.bottomless (VStr "a") 500))) = 5%nat.
Proof.
  split.
  - apply (get_user_repos_is_bounded Fixture.bottomless (VStr "a") 0). lia.
  - vm_compute. reflexivity.
Defined.

(** ** Stubs that cannot be processed *)

Lemma for_each_future_missing_login (total : nat) (futures : list Future) :
  Forall (fun f => result (fut_run f) <> OutOfFuel) futures ->
  Exists (fun f => dict_get "login" (fut_user f) = None) futures ->
  forall st, result (for_each_future total st futures) = Raise (KeyError "login").
Proof.
  induction futures as [|f futures IH]; intros Hret Hex st.
  - inversion Hex.
  - inversion Hret as [|f' fs' Hf Hrest]; subst.
    cbn [for_each_future]. rewrite result_bind.
    destruct (dict_get "login" (fut_user f)) as [login|] eqn:El.
    + destruct (handle_future_spec total st f login El Hf) as (Hres & _).
      rewrite Hres. apply IH; [exact Hrest|].
      inversion Hex as [f' fs' H|f' fs' H]; subst; [congruence | exact H].
    + unfold handle_future, dict_getitem. rewrite El. reflexivity.
Qed.

(** X6. A stub without a [login] key is fatal for the whole batch, not
    only for itself: its worker raises [KeyError] without calling the
    service, and because the progress line of [main] reads the login
    outside the inner [try], the batch raises too; the run then ends
    without writing a file, whatever the other stubs were. *)
Theorem stub_without_login_aborts_batch
    (srv : Server) (sched : Schedule) (fuel : nat) (stubs : list Dict) (stub : Dict) :
  fair sched ->
  In stub stubs ->
  dict_get "login" stub = None ->
  process_user srv stub = (Raise (KeyError "login"), []) /\
  result (process_all srv sched stubs) = Raise (KeyError "login") /\
  (result (get_berlin_users srv fuel 200) = Ok stubs ->
   writes (trace (main srv sched fuel)) = []).
Proof.
  intros Hfair Hin Hnone. split; [|split].
  - unfold process_user, dict_getitem. rewrite Hnone. reflexivity.
  - unfold process_all. apply for_each_future_missing_login.
    + eapply Permutation_Forall; [apply Hfair|].
      apply Forall_map. apply Forall_forall. intros x _.
      apply process_user_returns.
    + apply Exists_exists. exists (submit srv stub). split; [|exact Hnone].
      eapply Permutation_in; [apply Hfair|]. now apply in_map.
  - intros Hsearch. rewrite main_writes, Hsearch.
    unfold process_all.
    rewrite for_each_future_missing_login; [reflexivity| |].
    + eapply Permutation_Forall; [apply Hfair|].
      apply Forall_map. apply Forall_forall. intros x _.
      apply process_user_returns.
    + apply Exists_exists. exists (submit srv stub). split; [|exact Hnone].
      eapply Permutation_in; [apply Hfair|]. now apply in_map.
Qed.

Lemma stub_without_login_aborts_batch_witness :
  result (process_all Fixture.berlin (@rev Future)
            (Fixture.crowd ++ [[("id", VInt 7)]])) = Raise (KeyError "login").
Proof.
  apply (stub_without_login_aborts_batch Fixture.berlin (@rev Future) 3
           (Fixture.crowd ++ [[("id", VInt 7)]]) [("id", VInt 7)]).
  - intros futures. apply Permutation_rev.
  - apply in_or_app. right. now left.
  - reflexivity.
Defined.

(** X7. A user without a usable detail record is skipped by way of an
    exception: [process_user] returns [(None, None)] when the detail fetch
    comes back with a status other than 200 or with the empty object, and
    [main] then evaluates [repos_df.empty] on [None]; the [except] clause
    prints that [AttributeError], nothing is collected, and the batch goes
    on. *)
Theorem no_details_skipped_by_attribute_error
    (srv : Server) (stub : Dict) (login : value) (resp : Response Dict) :
  dict_get "login" stub = Some login ->
  user_detail srv login = Responded resp ->
  status_code resp <> 200 \/ json resp = Some [] ->
  result (process_user srv stub) = Ok (None, None) /\
  calls (trace (process_user srv stub)) = [GetUser login] /\
  forall total st,
    handle_future total st (submit srv stub) =
      (Ok (S (fst st), snd st),
       [Print (Processing (S (fst st)) total login);
        Print (ErrorProcessing login (AttributeError "empty"))]).
Proof.
  intros Hlogin Hdetail Hwhy.
  assert (Hrun : exists t, process_user srv stub = (Ok (None, None), t) /\
                           calls t = [GetUser login]).
  { unfold process_user, dict_getitem. rewrite Hlogin. cbv beta iota.
    unfold ret at 1. rewrite bind_ok. cbn [app].
    unfold get_user_details, api_call. unfold user_detail in Hdetail.
    rewrite Hdetail, bind_ok. destruct resp as [st js]. cbn [status_code json] in *.
    destruct (st =? 200) eqn:Est.
    - destruct Hwhy as [Hst|Hjs]; [apply Z.eqb_eq in Est; congruence|].
      subst js. eexists. split; reflexivity.
    - eexists. split; reflexivity. }
  destruct Hrun as (t & Hrun & Hcalls).
  assert (Hres : result (process_user srv stub) = Ok (None, None))
    by now rewrite Hrun.
  split; [exact Hres|]. split; [now rewrite Hrun|].
  intros total [completed [ud ar]]. unfold handle_future, dict_getitem.
  cbn [submit fut_user fut_run fst snd]. rewrite Hlogin, Hres. reflexivity.
Qed.

Lemma no_details_skipped_by_attribute_error_witness :
  handle_future 50 (O, mkCollected [] []) (submit Fixture.blank (Fixture.stub "a")) =
    (Ok (1%nat, mkCollected [] []),
     [Print (Processing 1 50 (VStr "a"));
      Print (ErrorProcessing (VStr "a") (AttributeError "empty"))]).
Proof.
  destruct (no_details_skipped_by_attribute_error Fixture.blank (Fixture.stub "a")
              (VStr "a") (mkResponse 200 (Some []))) as (_ & _ & H).
  - reflexivity.
  - reflexivity.
  - right. reflexivity.
  - apply H.
Defined.

(** ** Columns of a table built from records *)

Lemma has_column_app (c : string) (cols more : list string) :
  pd.has_column c (cols ++ more) = pd.has_column c cols || pd.has_column c more.
Proof.
  unfold pd.has_column. induction cols as [|x cols IH]; cbn [app pd.index_of].
  - reflexivity.
  - destruct (String.eqb c x); [reflexivity|].
    destruct (pd.index_of c (cols ++ more)), (pd.index_of c cols),
      (pd.index_of c more); cbn in *; congruence.
Qed.

Lemma has_column_union (c : string) (new : list string) : forall cols,
  pd.has_column c (pd.union cols new) =
  pd.has_column c cols || existsb (String.eqb c) new.
Proof.
  induction new as [|x new IH]; intros cols; cbn [pd.union existsb].
  - now rewrite orb_false_r.
  - destruct (pd.has_column x cols) eqn:Ex; rewrite IH.
    + destruct (String.eqb c x) eqn:Ec; [|reflexivity].
      apply String.eqb_eq in Ec. subst x. now rewrite Ex.
    + rewrite has_column_app. unfold pd.has_column at 2. cbn [pd.index_of].
      destruct (String.eqb c x); now rewrite <- orb_assoc.
Qed.

Lemma existsb_keys (c : string) (d : Dict) :
  existsb (String.eqb c) (map fst d) =
  match dict_get c d with Some _ => true | None => false end.
Proof.
  induction d as [|[k v] d IH]; [reflexivity|].
  cbn [map fst existsb dict_get]. destruct (String.eqb c k); [reflexivity | exact IH].
Qed.

Lemma has_column_fold (c : string) (data : list Dict) : forall acc,
  pd.has_column c (fold_left (fun acc d => pd.union acc (map fst d)) data acc) =
  pd.has_column c acc || key_somewhere c data.
Proof.
  induction data as [|d data IH]; intros acc; cbn [fold_left key_somewhere existsb].
  - now rewrite orb_false_r.
  - rewrite IH, has_column_union, existsb_keys, orb_assoc. reflexivity.
Qed.

(** A table built from records has exactly the keys of the records as
    its columns. *)
Lemma has_column_DataFrame_of (c : string) (data : list Dict) :
  pd.has_column c (columns (pd.DataFrame_of data)) = key_somewhere c data.
Proof. unfold pd.DataFrame_of. cbn [columns]. apply has_column_fold. Qed.

Lemma has_column_setitem (c c' : string) (df : DataFrame) (series : list value) :
  pd.has_column c (columns (pd.setitem df c' series)) =
  pd.has_column c (columns df) || String.eqb c c'.
Proof.
  unfold pd.setitem.
  destruct (pd.index_of c' (columns df)) as [i|] eqn:Ei; cbn [columns].
  - destruct (String.eqb c c') eqn:Ec; [|now rewrite orb_false_r].
    apply String.eqb_eq in Ec. subst c'. unfold pd.has_column. now rewrite Ei.
  - rewrite has_column_app. f_equal. unfold pd.has_column. cbn [pd.index_of].
    destruct (String.eqb c c'); reflexivity.
Qed.

Lemma key_somewhere_field (c : string) (data : list Dict) (d : Dict) :
  key_somewhere c data = false -> In d data -> field c d = VNaN.
Proof.
  unfold key_somewhere, field. intros H Hin.
  destruct (dict_get c d) eqn:E; [|reflexivity].
  assert (Ht : existsb (fun d => match dict_get c d with
                                 | Some _ => true | None => false end) data = true).
  { apply existsb_exists. exists d. split; [exact Hin | now rewrite E]. }
  congruence.
Qed.

(** The row a record gets shows the record's own value under every label,
    NaN where the record has none. *)
Lemma cell_record_row (data : list Dict) (d : Dict) (c : string) :
  In d data ->
  pd.cell (columns (pd.DataFrame_of data))
          (map (fun c => field c d) (columns (pd.DataFrame_of data))) c =
  field c d.
Proof.
  intros Hin.
  destruct (pd.has_column c (columns (pd.DataFrame_of data))) eqn:E.
  - now apply cell_DataFrame_of.
  - rewrite has_column_DataFrame_of in E.
    rewrite (key_somewhere_field c data d E Hin).
    unfold pd.cell. rewrite <- has_column_DataFrame_of in E.
    unfold pd.has_column in E.
    destruct (pd.index_of c (columns (pd.DataFrame_of data)));
      [discriminate | reflexivity].
Qed.

Lemma combine_map_r {A B} (h : A -> B) (l : list A) :
  combine l (map h l) = map (fun a => (a, h a)) l.
Proof. induction l as [|a l IH]; [reflexivity|]. cbn. now rewrite IH. Qed.

Lemma apply_as_map {A} (f : value -> outcome A) (g : value -> A)
    (series : list value) :
  (forall v a, f v = Ok a -> g v = a) ->
  forall l, pd.apply f series = Ok l -> l = map g series.
Proof.
  intros Hg. induction series as [|v series IH]; intros l H.
  - now inversion H.
  - cbn [pd.apply] in H. destruct (f v) as [a| |] eqn:Ef; try discriminate.
    destruct (pd.apply f series) as [l'| |]; try discriminate.
    inversion H. cbn [map]. rewrite (Hg v a Ef), (IH l' eq_refl). reflexivity.
Qed.

Lemma apply_license_key_map (series : list value) :
  pd.apply license_key series = Ok (map license_name_of series).
Proof.
  destruct (apply_license_key series) as (l & Hl & _).
  rewrite Hl. f_equal. apply (apply_as_map license_key); [|exact Hl].
  intros v a H. unfold license_key in H. unfold license_name_of.
  destruct v; try (now inversion H).
  destruct (dict_get "key" d); now inversion H.
Qed.

(** ** The repository table, row by row *)

Lemma repo_rows_formula (data : list Dict) (u : value) :
  let df1 := pd.setitem_scalar (pd.DataFrame_of data) "login" u in
  let names :=
    map license_name_of (map (fun r => pd.cell (columns df1) r "license") (rows df1)) in
  let df2 := pd.setitem df1 "license_name" names in
  map (pd.realign (columns df2) repo_columns) (rows df2) = map (repo_row u) data.
Proof.
  intros df1 names df2.
  set (df0 := pd.DataFrame_of data) in *.
  assert (Hwf0 : well_formed df0) by apply DataFrame_of_well_formed.
  assert (Hwf1 : well_formed df1) by (apply setitem_well_formed; exact Hwf0).
  destruct (setitem_rows df0 "login" (map (fun _ => u) (rows df0)) Hwf0)
    as (tr1 & Hrows1 & Htr1).
  destruct (setitem_rows df1 "license_name" names Hwf1) as (tr2 & Hrows2 & Htr2).
  fold df2 in Hrows2, Htr2.
  change (pd.setitem df0 "login" (map (fun _ => u) (rows df0))) with df1 in Hrows1, Htr1.
  set (row0 := fun d => map (fun c => field c d) (columns df0)).
  assert (Hr0 : rows df0 = map row0 data) by reflexivity.
  assert (Hr1 : rows df1 = map (fun d => tr1 (row0 d, u)) data).
  { rewrite Hrows1, combine_map_r, Hr0, !map_map. reflexivity. }
  set (G := fun r => license_name_of (pd.cell (columns df1) r "license")).
  assert (Hnames : names = map G (rows df1)).
  { unfold names. now rewrite map_map. }
  rewrite Hrows2, Hnames, combine_map_r, Hr1, !map_map.
  apply map_ext_in. intros d Hd.
  assert (Hin0 : In (row0 d) (rows df0)) by (rewrite Hr0; now apply in_map).
  assert (Hin1 : In (tr1 (row0 d, u)) (rows df1)).
  { rewrite Hr1. apply in_map_iff. exists d. split; [reflexivity | exact Hd]. }
  pose proof (fun v c => proj2 (Htr2 (tr1 (row0 d, u)) v Hin1) c) as H2.
  pose proof (fun c => proj2 (Htr1 (row0 d) u Hin0) c) as H1.
  assert (H0 : forall c, pd.cell (columns df0) (row0 d) c = field c d)
    by (intros c; now apply cell_record_row).
  unfold pd.realign, repo_columns, repo_row, G. cbn [map].
  rewrite !H2, !H1, !H0. reflexivity.
Qed.

Lemma filter_skip {A} (f g : A -> bool) (l1 l2 : list A) (x : A) :
  f x = false ->
  (forall y, In y (l1 ++ l2) -> f y = g y) ->
  filter f (l1 ++ x :: l2) = filter g (l1 ++ l2).
Proof.
  intros Hx Hext. rewrite !filter_app. cbn [filter]. rewrite Hx.
  f_equal; apply filter_ext_in; intros y Hy; apply Hext; apply in_or_app; auto.
Qed.

Lemma create_repos_dataframe_cases (repos : list Dict) (u : value) :
  repos <> [] ->
  create_repos_dataframe repos u =
  (match filter (fun c => negb (key_somewhere c repos)) raw_repo_keys with
   | [] => Ok (mkDataFrame repo_columns (map (repo_row u) repos))
   | c :: _ => Raise (KeyError c)
   end, []).
Proof.
  intros Hne. unfold create_repos_dataframe.
  destruct repos as [|r repos0]; [congruence|].
  set (data := r :: repos0) in *. cbv zeta.
  pose proof (repo_rows_formula data u) as Hrows. cbv zeta in Hrows.
  set (df1 := pd.setitem_scalar (pd.DataFrame_of data) "login" u) in *.
  assert (Hcol1 : forall c, pd.has_column c (columns df1) =
                            key_somewhere c data || String.eqb c "login").
  { intros c. unfold df1, pd.setitem_scalar.
    now rewrite has_column_setitem, has_column_DataFrame_of. }
  unfold pd.getitem. rewrite Hcol1.
  change (String.eqb "license" "login") with false. rewrite orb_false_r.
  change raw_repo_keys with
    ("license"%string ::
     ["full_name"; "created_at"; "stargazers_count"; "watchers_count";
      "language"; "has_projects"; "has_wiki"]%string).
  set (raw7 := ["full_name"; "created_at"; "stargazers_count"; "watchers_count";
                "language"; "has_projects"; "has_wiki"]%string).
  change (filter (fun c => negb (key_somewhere c data)) ("license"%string :: raw7))
    with (if negb (key_somewhere "license" data)
          then "license"%string :: filter (fun c => negb (key_somewhere c data)) raw7
          else filter (fun c => negb (key_somewhere c data)) raw7).
  destruct (key_somewhere "license" data) eqn:Elic; cbn [negb]; [|reflexivity].
  unfold lift at 1. rewrite bind_ok. cbn [app].
  rewrite apply_license_key_map. unfold lift at 1. rewrite bind_ok. cbn [app].
  set (names := map license_name_of
                  (map (fun r0 => pd.cell (columns df1) r0 "license") (rows df1))) in *.
  set (df2 := pd.setitem df1 "license_name" names) in *.
  assert (Hcol2 : forall c, pd.has_column c (columns df2) =
                            key_somewhere c data || String.eqb c "login"
                            || String.eqb c "license_name").
  { intros c. unfold df2. now rewrite has_column_setitem, Hcol1. }
  assert (Hfilter :
            filter (fun c => negb (pd.has_column c (columns df2))) repo_columns =
            filter (fun c => negb (key_somewhere c data)) raw7).
  { change repo_columns with
      ("login" :: raw7 ++ ["license_name"]).
    cbn [filter]. rewrite Hcol2. cbn [String.eqb Ascii.eqb Bool.eqb].
    rewrite orb_true_r, orb_false_r. cbn [negb].
    rewrite filter_app. cbn [filter]. rewrite Hcol2, String.eqb_refl, orb_true_r.
    cbn [negb]. rewrite app_nil_r.
    apply filter_ext_in. intros c Hc. rewrite Hcol2. unfold raw7 in Hc.
    cbn [In] in Hc.
    repeat (destruct Hc as [<-|Hc]; [now rewrite !orb_false_r|]).
    destruct Hc. }
  unfold lift, pd.select. rewrite Hfilter, Hrows. reflexivity.
Qed.

(** ** The users table, row by row *)

Lemma clean_company_name_cases (v : value) :
  (exists s, clean_company_name v = Ok s) \/
  clean_company_name v = Raise (AttributeError "strip").
Proof.
  unfold clean_company_name. destruct (negb (truthy v)); [left; eauto|].
  destruct v; try (now right); left; eauto.
Qed.

Lemma apply_clean_company_name (series : list value) :
  pd.apply clean_company_name series =
  if forallb (fun v => match clean_company_name v with
                       | Ok _ => true | _ => false end) series
  then Ok (map (fun v => match clean_company_name v with
                         | Ok s => s | _ => ""%string end) series)
  else Raise (AttributeError "strip").
Proof.
  induction series as [|v series IH]; [reflexivity|].
  cbn [pd.apply forallb map].
  destruct (clean_company_name_cases v) as [(s & Hs)|Hs]; rewrite Hs;
    [|reflexivity].
  rewrite IH. cbn [andb].
  destruct (forallb _ series); reflexivity.
Qed.

Lemma forallb_map_in {A B} (f : B -> bool) (g : A -> B) (h : A -> bool)
    (l : list A) :
  (forall x, In x l -> f (g x) = h x) ->
  forallb f (map g l) = forallb h l.
Proof.
  induction l as [|x l IH]; intros H; [reflexivity|].
  cbn [map forallb]. rewrite (H x (or_introl eq_refl)), IH; [reflexivity|].
  intros y Hy. apply H. now right.
Qed.

Lemma user_rows_formula (users : list Dict) :
  let df0 := pd.DataFrame_of users in
  let series :=
    map VStr (map (fun v => match clean_company_name v with
                            | Ok s => s | _ => ""%string end)
                  (map (fun r => pd.cell (columns df0) r "company") (rows df0))) in
  companies_clean users = true ->
  map (pd.realign (columns (pd.setitem df0 "company" series)) user_columns)
      (rows (pd.setitem df0 "company" series)) =
  map user_row users.
Proof.
  intros df0 series Hclean.
  assert (Hwf0 : well_formed df0) by apply DataFrame_of_well_formed.
  destruct (setitem_rows df0 "company" series Hwf0) as (tr & Hrows & Htr).
  set (df1 := pd.setitem df0 "company" series) in *.
  set (row0 := fun d => map (fun c => field c d) (columns df0)).
  assert (Hr0 : rows df0 = map row0 users) by reflexivity.
  set (H := fun r => VStr match clean_company_name (pd.cell (columns df0) r "company") with
                          | Ok s => s | _ => ""%string end).
  assert (Hseries : series = map H (rows df0)).
  { unfold series. now rewrite !map_map. }
  rewrite Hrows, Hseries, combine_map_r, Hr0, !map_map.
  apply map_ext_in. intros d Hd.
  assert (Hin0 : In (row0 d) (rows df0)) by (rewrite Hr0; now apply in_map).
  pose proof (fun v c => proj2 (Htr (row0 d) v Hin0) c) as H1.
  assert (H0 : forall c, pd.cell (columns df0) (row0 d) c = field c d)
    by (intros c; now apply cell_record_row).
  unfold pd.realign, user_columns, user_row. cbn [map].
  rewrite !H1. cbn [String.eqb Ascii.eqb Bool.eqb]. rewrite !H0.
  unfold H, company_cell. rewrite H0.
  unfold companies_clean in Hclean. rewrite forallb_forall in Hclean.
  specialize (Hclean d Hd).
  destruct (clean_company_name (field "company" d)); try discriminate.
  reflexivity.
Qed.

Lemma create_users_dataframe_cases (users : list Dict) :
  create_users_dataframe users =
  (if negb (key_somewhere "company" users) then Raise (KeyError "company")
   else if negb (companies_clean users) then Raise (AttributeError "strip")
   else match filter (fun c => negb (key_somewhere c users)) raw_user_keys with
        | [] => Ok (mkDataFrame user_columns (map user_row users))
        | c :: _ => Raise (KeyError c)
        end, []).
Proof.
  unfold create_users_dataframe. cbv zeta.
  pose proof (user_rows_formula users) as Hrows. cbv zeta in Hrows.
  set (df0 := pd.DataFrame_of users) in *.
  unfold pd.getitem. unfold df0 at 1. rewrite has_column_DataFrame_of.
  destruct (key_somewhere "company" users) eqn:Ec; cbn [negb]; [|reflexivity].
  unfold lift at 1. rewrite bind_ok. cbn [app].
  rewrite apply_clean_company_name.
  assert (Hsame : forallb (fun v => match clean_company_name v with
                                    | Ok _ => true | _ => false end)
                    (map (fun r => pd.cell (columns df0) r "company") (rows df0)) =
                  companies_clean users).
  { unfold companies_clean.
    change (rows df0) with
      (map (fun d => map (fun c => field c d) (columns df0)) users).
    rewrite map_map. apply forallb_map_in.
    intros d Hd. unfold df0. now rewrite cell_record_row. }
  rewrite Hsame.
  destruct (companies_clean users) eqn:Eclean; cbn [negb]; [|reflexivity].
  unfold lift at 1. rewrite bind_ok. cbn [app].
  set (series := map VStr _) in *.
  assert (Hcol : forall c, pd.has_column c (columns (pd.setitem df0 "company" series)) =
                           key_somewhere c users || String.eqb c "company").
  { intros c. unfold df0. now rewrite has_column_setitem, has_column_DataFrame_of. }
  assert (Hfilter :
            filter (fun c => negb (pd.has_column c
                      (columns (pd.setitem df0 "company" series)))) user_columns =
            filter (fun c => negb (key_somewhere c users)) raw_user_keys).
  { apply (filter_skip _ _ ["login"; "name"]%string
             ["location"; "email"; "hireable"; "bio"; "public_repos";
              "followers"; "following"; "created_at"]%string "company"%string).
    - rewrite Hcol, String.eqb_refl, orb_true_r. reflexivity.
    - intros c Hc. rewrite Hcol. cbn [app In] in Hc.
      repeat (destruct Hc as [<-|Hc]; [now rewrite orb_false_r|]).
      destruct Hc. }
  unfold lift, pd.select. rewrite Hfilter, (Hrows eq_refl). reflexivity.
Qed.

Lemma filter_negb_nil {A} (f : A -> bool) (l : list A) :
  filter (fun x => negb (f x)) l = [] <-> forallb f l = true.
Proof.
  induction l as [|x l IH]; cbn [filter forallb]; [tauto|].
  destruct (f x); cbn [negb andb]; [exact IH|].
  split; discriminate.
Qed.

(** X8. The shape of the repository table of a user, when it can be
    built: an empty list of records gives the empty table; otherwise the
    table has the nine columns, in their order, one row of nine cells per
    record, and in every row the login the table was built for. *)
Theorem create_repos_dataframe_shape
    (repos : list Dict) (u : value) (df : DataFrame) :
  result (create_repos_dataframe repos u) = Ok df ->
  (repos = [] -> df = pd.empty_frame) /\
  (repos <> [] ->
   columns df = repo_columns /\
   length (rows df) = length repos /\
   Forall (fun row => length row = 9%nat) (rows df) /\
   logins df = map (fun _ => u) repos).
Proof.
  destruct repos as [|r repos].
  - intros H. inversion H. split; [reflexivity | congruence].
  - remember (r :: repos) as data eqn:Ed.
    rewrite create_repos_dataframe_cases by (subst data; discriminate).
    unfold result. cbn [fst].
    destruct (filter _ raw_repo_keys); [|discriminate].
    intros H. injection H as <-. split; [subst data; discriminate|]. intros _.
    unfold logins. cbn [columns rows]. rewrite !length_map, map_map.
    split; [reflexivity|]. split; [reflexivity|]. split; [|reflexivity].
    apply Forall_forall. intros row Hrow.
    apply in_map_iff in Hrow. destruct Hrow as (d & <- & _). reflexivity.
Qed.

Lemma create_repos_dataframe_shape_witness :
  columns (mkDataFrame repo_columns
             (map (repo_row (VStr "a"))
                  [Fixture.repo "a/x"; [("full_name", VStr "a/y"); ("license", VNone)]])) =
    repo_columns /\
  logins (mkDataFrame repo_columns
            (map (repo_row (VStr "a"))
                 [Fixture.repo "a/x"; [("full_name", VStr "a/y"); ("license", VNone)]])) =
    [VStr "a"; VStr "a"].
Proof.
  destruct (create_repos_dataframe_shape
              [Fixture.repo "a/x"; [("full_name", VStr "a/y"); ("license", VNone)]]
              (VStr "a")
              (mkDataFrame repo_columns
                 (map (repo_row (VStr "a"))
                      [Fixture.repo "a/x";
                       [("full_name", VStr "a/y"); ("license", VNone)]])))
    as (_ & H).
  - vm_compute. reflexivity.
  - destruct H as (H1 & _ & _ & H2); [discriminate|].
    split; [exact H1 | exact H2].
Defined.

(** X9. Building the repository table of a non-empty list of records
    succeeds exactly when each of the eight raw keys ([license] and the
    seven projected fields) occurs in at least one record; otherwise it
    raises [KeyError] for a key that no record has, and for [license]
    first. *)
Theorem create_repos_dataframe_needs_keys (repos : list Dict) (u : value) :
  repos <> [] ->
  ((exists df, result (create_repos_dataframe repos u) = Ok df) <->
   forallb (fun c => key_somewhere c repos) raw_repo_keys = true) /\
  (key_somewhere "license" repos = false ->
   create_repos_dataframe repos u = (Raise (KeyError "license"), [])) /\
  (forall e, result (create_repos_dataframe repos u) = Raise e ->
             exists c, e = KeyError c /\ In c raw_repo_keys /\
                       key_somewhere c repos = false).
Proof.
  intros Hne. rewrite (create_repos_dataframe_cases repos u Hne).
  unfold result. cbn [fst]. split; [|split].
  - rewrite <- filter_negb_nil.
    destruct (filter _ raw_repo_keys) as [|c rest]; split; intros H.
    + reflexivity.
    + eauto.
    + destruct H as (df & H). discriminate.
    + discriminate.
  - intros Hlic. unfold raw_repo_keys. cbn [filter]. now rewrite Hlic.
  - intros e He.
    destruct (filter (fun c => negb (key_somewhere c repos)) raw_repo_keys)
      as [|c rest] eqn:Ef; [discriminate|].
    inversion He; subst e. exists c. split; [reflexivity|].
    assert (Hin : In c (filter (fun c => negb (key_somewhere c repos)) raw_repo_keys))
      by (rewrite Ef; now left).
    apply filter_In in Hin. destruct Hin as [Hin Hc].
    split; [exact Hin|]. now apply negb_true_iff.
Qed.

Lemma create_repos_dataframe_needs_keys_witness :
  create_repos_dataframe [[("full_name", VStr "a/y")]] (VStr "a") =
    (Raise (KeyError "license"), []).
Proof.
  apply (create_repos_dataframe_needs_keys [[("full_name", VStr "a/y")]] (VStr "a")).
  - discriminate.
  - reflexivity.
Defined.


(** X10. The shape of the users table, when it can be built: there is at
    least one profile, the table has the eleven columns, in their order,
    and one row of eleven cells per collected profile; and every profile
    has a [company] entry that is falsy or a string. *)
Theorem create_users_dataframe_shape (users : list Dict) (df : DataFrame) :
  result (create_users_dataframe users) = Ok df ->
  users <> [] /\
  columns df = user_columns /\
  length (rows df) = length users /\
  Forall (fun row => length row = 11%nat) (rows df) /\
  Forall (fun d => exists v, dict_get "company" d = Some v /\
                             (truthy v = false \/ exists s, v = VStr s)) users.
Proof.
  rewrite create_users_dataframe_cases. unfold result. cbn [fst].
  destruct (key_somewhere "company" users) eqn:Ec; cbn [negb]; [|discriminate].
  destruct (companies_clean users) eqn:Eclean; cbn [negb]; [|discriminate].
  destruct (filter _ raw_user_keys); [|discriminate].
  intros H. inversion H. cbn [columns rows]. rewrite length_map.
  split; [intros ->; discriminate|]. repeat split.
  - apply Forall_forall. intros row Hrow.
    apply in_map_iff in Hrow. destruct Hrow as (d & <- & _). reflexivity.
  - apply Forall_forall. intros d Hd.
    unfold companies_clean in Eclean. rewrite forallb_forall in Eclean.
    specialize (Eclean d Hd). unfold field in Eclean.
    destruct (dict_get "company" d) as [v|]; [|discriminate].
    exists v. split; [reflexivity|].
    unfold clean_company_name in Eclean.
    destruct (truthy v) eqn:Et; [|now left].
    cbn [negb] in Eclean. right.
    destruct v; try discriminate. eauto.
Qed.

Lemma create_users_dataframe_shape_witness :
  columns (mkDataFrame user_columns (map user_row [Fixture.profile "a"])) =
    user_columns /\
  length (rows (mkDataFrame user_columns (map user_row [Fixture.profile "a"]))) =
    1%nat.
Proof.
  destruct (create_users_dataframe_shape [Fixture.profile "a"]
              (mkDataFrame user_columns (map user_row [Fixture.profile "a"])))
    as (_ & H1 & H2 & _).
  - vm_compute. reflexivity.
  - split; [exact H1 | exact H2].
Defined.

(** X11. How the users table fails.  When no profile has a [company] key
    (in particular for no profile at all) it raises [KeyError] for
    [company].  When some profile has the key and another lacks it, the
    missing cell is NaN, which is truthy and has no [strip]: the builder
    raises [AttributeError] and no table is made for anyone.  These and a
    [KeyError] for a projected field that no profile has are the only
    exceptions. *)
Theorem create_users_dataframe_failures (users : list Dict) :
  (key_somewhere "company" users = false ->
   create_users_dataframe users = (Raise (KeyError "company"), [])) /\
  (forall d, key_somewhere "company" users = true ->
             In d users -> dict_get "company" d = None ->
             create_users_dataframe users = (Raise (AttributeError "strip"), [])) /\
  (forall e, result (create_users_dataframe users) = Raise e ->
             e = AttributeError "strip" \/
             exists c, e = KeyError c /\ key_somewhere c users = false /\
                       (c = "company"%string \/ In c raw_user_keys)).
Proof.
  rewrite create_users_dataframe_cases. unfold result. cbn [fst].
  split; [|split].
  - intros Hc. now rewrite Hc.
  - intros d Hc Hd Hnone. rewrite Hc. cbn [negb].
    assert (Hclean : companies_clean users = false).
    { destruct (companies_clean users) eqn:E; [|reflexivity].
      unfold companies_clean in E. rewrite forallb_forall in E.
      specialize (E d Hd). unfold field in E. rewrite Hnone in E. discriminate. }
    now rewrite Hclean.
  - intros e He.
    destruct (key_somewhere "company" users) eqn:Ec; cbn [negb] in He.
    + destruct (companies_clean users); cbn [negb] in He.
      * destruct (filter (fun c => negb (key_somewhere c users)) raw_user_keys)
          as [|c rest] eqn:Ef; [discriminate|].
        inversion He; subst e. right. exists c.
        assert (Hin : In c (filter (fun c => negb (key_somewhere c users))
                              raw_user_keys)) by (rewrite Ef; now left).
        apply filter_In in Hin. destruct Hin as [Hin Hc].
        repeat split; [now apply negb_true_iff | now right].
      * inversion He. now left.
    + inversion He. right. exists "company"%string. repeat split; auto.
Qed.

Lemma create_users_dataframe_failures_witness :
  create_users_dataframe [Fixture.profile "a"; [("login", VStr "b")]] =
    (Raise (AttributeError "strip"), []).
Proof.
  destruct (create_users_dataframe_failures
              [Fixture.profile "a"; [("login", VStr "b")]]) as (_ & H & _).
  apply (H [("login", VStr "b")]).
  - reflexivity.
  - right. now left.
  - reflexivity.
Defined.

(** ** What one worker asks of the service, and what it hands back *)

Lemma get_user_details_calls (srv : Server) (u : value) :
  calls (trace (get_user_details srv u)) = [GetUser u].
Proof.
  unfold get_user_details, api_call.
  destruct (srv (GetUser u)) as [[st js]|e]; [|reflexivity].
  rewrite bind_ok. cbn [status_code].
  destruct (st =? 200); [|reflexivity].
  cbn [negb]. unfold response_json. cbn [json]. destruct js; reflexivity.
Qed.

Lemma create_repos_dataframe_trace (repos : list Dict) (u : value) :
  trace (create_repos_dataframe repos u) = [].
Proof.
  destruct repos as [|r repos]; [reflexivity|].
  now rewrite create_repos_dataframe_cases by discriminate.
Qed.

Lemma process_user_calls (srv : Server) (stub : Dict) :
  calls (trace (process_user srv stub)) =
  match dict_get "login" stub with
  | None => []
  | Some u =>
      GetUser u ::
      match result (get_user_details srv u) with
      | Ok (Some (_ :: _)) => calls (trace (get_user_repos srv u 500))
      | _ => []
      end
  end.
Proof.
  unfold process_user, dict_getitem.
  destruct (dict_get "login" stub) as [u|]; [|reflexivity].
  rewrite trace_bind. change (result (ret u)) with (Ok u). cbv beta iota.
  change (trace (ret u)) with (@nil event). cbn [app].
  rewrite trace_bind, calls_app || rewrite trace_bind.
  pose proof (get_user_details_calls srv u) as Hd.
  destruct (result (get_user_details srv u)) as [[[|kv d]|]|e|];
    rewrite ?calls_app, Hd; try reflexivity.
  cbn [app]. f_equal. rewrite trace_bind.
  destruct (result (get_user_repos srv u 500)) as [[|r repos]|e|];
    rewrite ?calls_app; try (now rewrite app_nil_r); try reflexivity.
  rewrite trace_bind, create_repos_dataframe_trace.
  destruct (result (create_repos_dataframe (r :: repos) u));
    now rewrite app_nil_r.
Qed.

(** X12. The call budget of one worker, whatever the service answers:
    [process_user] asks for the user's details first and then for
    repository pages 1, 2, ... in turn, at most five of them, so it makes
    at most six calls; a stub without a login makes none. *)
Theorem process_user_call_budget (srv : Server) (stub : Dict) :
  (length (calls (trace (process_user srv stub))) <= 6)%nat /\
  (calls (trace (process_user srv stub)) = [] /\ dict_get "login" stub = None \/
   exists u n,
     dict_get "login" stub = Some u /\ (n <= 5)%nat /\
     calls (trace (process_user srv stub)) =
       GetUser u :: pages_from (repos_request u) 1 n).
Proof.
  rewrite process_user_calls.
  destruct (dict_get "login" stub) as [u|]; [|split; [simpl; lia | now left]].
  destruct (get_user_repos_bounds srv u 500) as (_ & (n & Hcalls & Hn) & _).
  assert (Hn5 : (n <= 5)%nat) by lia.
  destruct (result (get_user_details srv u)) as [[[|kv d]|]|e|].
  2: { rewrite Hcalls. split.
       - cbn [length]. unfold pages_from. rewrite length_map, length_seq. lia.
       - right. exists u, n. repeat split; auto. }
  all: split; [simpl; lia | right; exists u, 0%nat; repeat split; auto; lia].
Qed.

(** X13. What a worker hands back when all goes well: the detail fetch
    gave a non-empty record, the listing returned [repos], and (unless
    there are none) each raw key occurs in some record.  The result is the
    profile as fetched and the table with one row per repository, at most
    500 of them; handling the future collects exactly that profile, and
    the table unless it is empty. *)
Theorem process_user_success
    (srv : Server) (stub : Dict) (u : value) (details : Dict) (repos : list Dict) :
  dict_get "login" stub = Some u ->
  user_detail srv u = page_ok details ->
  details <> [] ->
  result (get_user_repos srv u 500) = Ok repos ->
  repos = [] \/ forallb (fun c => key_somewhere c repos) raw_repo_keys = true ->
  let table := match repos with
               | [] => pd.empty_frame
               | _ :: _ => mkDataFrame repo_columns (map (repo_row u) repos)
               end in
  result (process_user srv stub) = Ok (Some details, Some table) /\
  (length (rows table) = length repos /\ length repos <= 500)%nat /\
  profile_of (result (process_user srv stub)) = [details] /\
  frames_of (result (process_user srv stub)) =
    match repos with [] => [] | _ :: _ => [table] end.
Proof.
  intros Hlogin Hdetail Hne Hrepos Hkeys table.
  assert (Hlen : (length repos <= 500)%nat).
  { destruct (get_user_repos_bounds srv u 500) as (_ & _ & Hl & _).
    specialize (Hl repos Hrepos). unfold len in Hl. lia. }
  assert (Hres : result (process_user srv stub) = Ok (Some details, Some table)).
  { rewrite process_user_result, Hlogin.
    rewrite (get_user_details_ok srv u details Hdetail). cbn [result fst].
    destruct details as [|kv details]; [congruence|].
    rewrite Hrepos.
    destruct repos as [|r repos]; [reflexivity|].
    rewrite create_repos_dataframe_cases by discriminate. cbn [result fst].
    destruct Hkeys as [Hk|Hk]; [discriminate|].
    apply filter_negb_nil in Hk. now rewrite Hk. }
  split; [exact Hres|]. split; [|split].
  - split; [|exact Hlen]. unfold table.
    destruct repos; [reflexivity|]. cbn [rows]. apply length_map.
  - rewrite Hres. destruct details; [congruence | reflexivity].
  - rewrite Hres. unfold table. destruct repos as [|r repos]; reflexivity.
Qed.

Lemma process_user_success_witness :
  result (process_user Fixture.berlin (Fixture.stub "u7")) =
    Ok (Some (Fixture.profile "u7"),
        Some (mkDataFrame repo_columns
                (map (repo_row (VStr "u7")) (Fixture.repos_n 2)))).
Proof.
  apply (process_user_success Fixture.berlin (Fixture.stub "u7") (VStr "u7")
           (Fixture.profile "u7") (Fixture.repos_n 2)).
  - reflexivity.
  - reflexivity.
  - discriminate.
  - vm_compute. reflexivity.
  - right. vm_compute. reflexivity.
Defined.

(** ** The two files *)







(** ** What a cleaned company name looks like *)








(** ** Surnames *)

Section Surname.

Variable db : Unicode.database.

Local Abbreviation isspace := (Unicode.isspace db).
Local Abbreviation spaces := (forallb (Unicode.isspace db)).
Local Abbreviation solid := (forallb (fun c => negb (Unicode.isspace db c))).
Local Abbreviation split := (Unicode.split db).

Lemma split_cons (c : Unicode.char) (s' : Unicode.str) :
  split (c :: s') =
  if isspace c then split s'
  else
    match s' with
    | [] => [[c]]
    | c' :: _ =>
        if isspace c' then [c] :: split s'
        else
          match split s' with
          | w :: ws => (c :: w) :: ws
          | [] => [[c]]
          end
    end.
Proof. destruct s'; reflexivity. Qed.

Lemma split_nil (s : Unicode.str) :
  split s = [] <-> spaces s = true.
Proof.
  induction s as [|c s IH]; [split; reflexivity|].
  rewrite split_cons. cbn [forallb].
  destruct (isspace c); cbn [andb]; [exact IH|].
  split; [|discriminate].
  destruct s as [|c' s']; [discriminate|].
  destruct (isspace c'); [discriminate|].
  destruct (split (c' :: s')); discriminate.
Qed.

(** The first word of a split, and what is split after it. *)
Lemma split_first (s : Unicode.str) : forall w1 ws,
  split s = w1 :: ws ->
  exists b t,
    s = b ++ w1 ++ t /\
    spaces b = true /\
    w1 <> [] /\ solid w1 = true /\
    (t = [] \/ exists c t', t = c :: t' /\ isspace c = true) /\
    ws = split t /\
    (length t < length s)%nat.
Proof.
  induction s as [|c s IH]; intros w1 ws H; [discriminate|].
  rewrite split_cons in H.
  destruct (isspace c) eqn:Ec.
  - destruct (IH w1 ws H) as (b & t & Hs & Hb & Hw & Hsolid & Ht & Hws & Hlen).
    exists (c :: b), t. cbn [app forallb length]. rewrite Ec, Hb.
    repeat split; auto; try (now f_equal); try lia.
  - destruct s as [|c' s'].
    + inversion H; subst. exists [], [].
      cbn [app forallb length]. rewrite Ec.
      repeat split; auto; try discriminate.
    + destruct (isspace c') eqn:Ec'.
      * inversion H; subst. exists [], (c' :: s').
        cbn [app forallb length]. rewrite Ec.
        repeat split; auto; try discriminate.
        right. exists c', s'. split; [reflexivity | exact Ec'].
      * destruct (split (c' :: s')) as [|w ws'] eqn:Es.
        -- apply split_nil in Es. cbn [forallb] in Es.
           rewrite Ec' in Es. discriminate.
        -- inversion H; subst.
           destruct (IH w ws eq_refl) as (b & t & Hs & Hb & Hw & Hsolid & Ht & Hws & Hlen).
           assert (b = []) as ->.
           { destruct b as [|x b]; [reflexivity|].
             cbn [app] in Hs. inversion Hs; subst x.
             cbn [forallb] in Hb. rewrite Ec' in Hb. discriminate. }
           exists [], t. cbn [app forallb length] in *.
           rewrite Ec, Hsolid.
           repeat split; auto; try discriminate; try (now f_equal); try lia.
Qed.

Lemma spaces_end (b : Unicode.str) :
  spaces b = true ->
  b = [] \/ exists b' c, b = b' ++ [c] /\ isspace c = true.
Proof.
  intros H. destruct b as [|x b0]; [now left|]. right.
  destruct (@exists_last _ (x :: b0) ltac:(discriminate)) as (b' & c & Heq).
  rewrite Heq in *. exists b', c. split; [reflexivity|].
  rewrite forallb_app in H. apply andb_true_iff in H. destruct H as [_ H].
  cbn [forallb] in H. now rewrite andb_true_r in H.
Qed.

Lemma last_part_none (parts : list Unicode.str) :
  Answers.last_part parts = None <-> parts = [].
Proof.
  induction parts as [|w parts IH]; [split; reflexivity|].
  cbn [Answers.last_part]. destruct parts as [|w' parts']; [split; discriminate|].
  rewrite IH. split; discriminate.
Qed.

(** The last word of a split sits at the end of the string, behind white
    space or at the very start, with only white space after it. *)
Lemma last_part_split (n : nat) : forall s w,
  (length s <= n)%nat ->
  Answers.last_part (split s) = Some w ->
  exists pre post,
    s = pre ++ w ++ post /\
    spaces post = true /\
    (pre = [] \/ exists pre' c, pre = pre' ++ [c] /\ isspace c = true) /\
    w <> [] /\ solid w = true.
Proof.
  induction n as [|n IH]; intros s w Hn Hlast.
  - destruct s; [discriminate | simpl in Hn; lia].
  - destruct (split s) as [|w1 ws] eqn:Es; [discriminate|].
    destruct (split_first s w1 ws Es)
      as (b & t & Hs & Hb & Hw1 & Hsolid & Ht & Hws & Hlen).
    destruct ws as [|w2 ws'].
    + inversion Hlast; subst w.
      exists b, t. repeat split; auto.
      * apply split_nil. now symmetry.
      * now apply spaces_end.
    + assert (Hlast' : Answers.last_part (split t) = Some w)
        by (rewrite <- Hws; exact Hlast).
      destruct (IH t w ltac:(lia) Hlast')
        as (pre & post & Hst & Hpost & Hpre & Hw & Hwsolid).
      exists (b ++ w1 ++ pre), post.
      split; [rewrite Hs, Hst, <- !app_assoc; reflexivity|].
      split; [exact Hpost|]. split; [|split; assumption].
      right. destruct Hpre as [->|(pre' & c & -> & Hc)].
      * exfalso. destruct Ht as [->|(c & t' & -> & Hc)].
        -- rewrite <- Hws in Hlast'. discriminate.
        -- destruct w as [|c0 w']; [congruence|].
           cbn [app forallb] in Hst, Hwsolid.
           inversion Hst; subst c0. rewrite Hc in Hwsolid. discriminate.
      * exists (b ++ w1 ++ pre'), c.
        split; [now rewrite <- !app_assoc | exact Hc].
Qed.

Lemma solid_ends (w : Unicode.str) :
  solid w = true ->
  (forall c r, w = c :: r -> isspace c = false) /\
  (forall r c, w = r ++ [c] -> isspace c = false).
Proof.
  intros H. rewrite forallb_forall in H. split.
  - intros c r ->. apply negb_true_iff. apply H. now left.
  - intros r c ->. apply negb_true_iff. apply H.
    apply in_or_app. right. now left.
Qed.

Lemma strip_solid (w : Unicode.str) :
  solid w = true -> Unicode.strip db w = w.
Proof.
  intros H. rewrite strip_trim.
  destruct (solid_ends w H). now apply trim_fixed.
Qed.

Lemma split_solid (w : Unicode.str) :
  w <> [] -> solid w = true -> split w = [w].
Proof.
  induction w as [|c w' IH]; intros Hne H; [congruence|].
  cbn [forallb] in H. apply andb_true_iff in H.
  destruct H as [Hc Hw']. apply negb_true_iff in Hc.
  rewrite split_cons, Hc. destruct w' as [|c' w'']; [reflexivity|].
  pose proof Hw' as Hw''. cbn [forallb] in Hw''.
  apply andb_true_iff in Hw''. destruct Hw'' as [Hc' _].
  apply negb_true_iff in Hc'. rewrite Hc'.
  now rewrite (IH ltac:(discriminate) Hw').
Qed.

(** X16. [get_surname] of [answers.py] picks the last word of the name,
    for every name over all of Unicode, white space being what the
    character database says it is: a missing name, or one of white space
    only, has none; any other name has as surname a non-empty run of code
    points without white space that stands at the end of the name,
    followed by white space only and preceded by white space or nothing;
    and the surname of a surname is itself. *)
Theorem get_surname_is_last_word (s : Unicode.str) :
  Answers.get_surname db None = None /\
  (Answers.get_surname db (Some s) = None <-> spaces s = true) /\
  (forall w,
      Answers.get_surname db (Some s) = Some w ->
      w <> [] /\
      solid w = true /\
      (exists pre post,
          s = pre ++ w ++ post /\
          spaces post = true /\
          (pre = [] \/ exists pre' c, pre = pre' ++ [c] /\ isspace c = true)) /\
      Answers.get_surname db (Some w) = Some w).
Proof.
  split; [reflexivity|].
  destruct (trim_core isspace s) as (before & after & Hs & Hbefore & Hafter & _).
  rewrite <- strip_trim in Hs.
  split.
  - cbn [Answers.get_surname]. rewrite last_part_none, split_nil.
    rewrite Hs at 2.
    rewrite !forallb_app, Hbefore, Hafter, andb_true_r. reflexivity.
  - intros w Hw. cbn [Answers.get_surname] in Hw.
    destruct (last_part_split _ (Unicode.strip db s) w (Nat.le_refl _) Hw)
      as (pre & post & Hst & Hpost & Hpre & Hne & Hsolid).
    split; [exact Hne|]. split; [exact Hsolid|]. split.
    + exists (before ++ pre), (post ++ after).
      split; [rewrite Hs, Hst, <- !app_assoc; reflexivity|].
      split; [now rewrite forallb_app, Hpost, Hafter|].
      destruct Hpre as [->|(pre' & c & -> & Hc)].
      * rewrite app_nil_r. now apply spaces_end.
      * right. exists (before ++ pre'), c. split; [now rewrite app_assoc | exact Hc].
    + cbn [Answers.get_surname].
      now rewrite (strip_solid w Hsolid), (split_solid w Hne Hsolid).
Qed.

End Surname.

Lemma get_surname_is_last_word_witness :
  Answers.get_surname Unicode.latin1
    (Some (Unicode.of_string " Ada  Lovelace ")) =
    Some (Unicode.of_string "Lovelace") /\
  (* a no-break space, 160, between the two words *)
  Answers.get_surname Unicode.latin1
    (Some (Unicode.of_string "Ada" ++ [160%N] ++ Unicode.of_string "Lovelace")) =
    Some (Unicode.of_string "Lovelace") /\
  Answers.get_surname Unicode.latin1 (Some (Unicode.of_string "Lovelace")) =
    Some (Unicode.of_string "Lovelace").
Proof.
  split; [reflexivity|]. split; [reflexivity|].
  apply (get_surname_is_last_word Unicode.latin1
           (Unicode.of_string " Ada  Lovelace ")).
  reflexivity.
Defined.
